(** * PyMySQL cursors: a shallow embedding of [pymysql/cursors.py]

    The cursor layer sits between application code and a connection object
    that performs the wire I/O.  The cursor classes ([Cursor], [DictCursor],
    [SSCursor], [SSDictCursor]) are embedded method by method as functions
    in a state-and-exception monad over a world made of one cursor and the
    connection it is bound to.  The connection itself, the interpreter's
    [%] operator, the text encoding and the constants of [_compat] are not
    part of [cursors.py]; they are fields of an [Environment] or are
    modelled from the interface description and marked as such. *)

From Stdlib Require Import ZArith Lia Bool Ascii.
From stdpp Require Import base option list strings gmap pretty.

Local Open Scope Z_scope.

(** ** Python data *)

(** Python 2 [unicode] / Python 3 [str] ([text_type] in [_compat]) against
    byte strings ([str] in Python 2, [bytes] and [bytearray] in Python 3).
    Characters are 8-bit: text is restricted to code points below 256. *)
Inductive pystr : Type :=
| Text (s : string)
| Bytes (s : string).

Definition payload (x : pystr) : string :=
  match x with Text s => s | Bytes s => s end.

Definition is_text (x : pystr) : bool :=
  match x with Text _ => true | Bytes _ => false end.

(** Values that travel as statement arguments and as column values. *)
Inductive Value : Type :=
| VNone
| VInt (z : Z)
| VText (s : string)
| VBytes (s : string).

(** The exceptions that cross the cursor layer.  [OperationalError] stands
    for whatever the transport raises. *)
Inductive exn : Type :=
| ProgrammingError (msg : string)
| NotSupportedError (msg : string)
| IndexError (msg : string)
| OperationalError (code : Z) (msg : string)
| TypeError (msg : string)
| ValueError (msg : string)
| KeyError (msg : string)
| AttributeError (msg : string)
| AssertionError
| StopIteration.

(** [len(l)] as a Python integer. *)
Definition py_len {A} (l : list A) : Z := Z.of_nat (length l).

(** A slice bound as Python normalises it: a negative bound counts from the
    end, and every bound is clamped to [0, len]. *)
Definition slice_bound (len i : Z) : Z :=
  if i <? 0 then Z.max (i + len) 0 else Z.min i len.

(** [l[start:stop]]; [stop = None] is the open slice [l[start:]]. *)
Definition py_slice {A} (l : list A) (start : Z) (stop : option Z) : list A :=
  let lo := slice_bound (py_len l) start in
  let hi := match stop with
            | Some s => slice_bound (py_len l) s
            | None => py_len l
            end in
  take (Z.to_nat (hi - lo)) (drop (Z.to_nat lo) l).

(** [l[i]]: a negative index counts from the end; [None] is [IndexError]. *)
Definition py_getitem {A} (l : list A) (i : Z) : option A :=
  let j := if i <? 0 then i + py_len l else i in
  if (0 <=? j) && (j <? py_len l) then l !! Z.to_nat j else None.

(** [dict(pairs)]: a later pair overwrites an earlier one with the same key. *)
Definition py_dict {K V} `{Countable K} (pairs : list (K * V)) : gmap K V :=
  foldl (fun m kv => <[kv.1 := kv.2]> m) ∅ pairs.

(** [zip(a, b)] stops at the shorter of the two. *)
Fixpoint py_zip {A B} (a : list A) (b : list B) : list (A * B) :=
  match a, b with
  | x :: a', y :: b' => (x, y) :: py_zip a' b'
  | _, _ => []
  end.

(** ** Rows, results and the connection *)

(** A row as the transport produces it (a tuple of column values). *)
Definition Row : Type := list Value.

(** A row as a cursor hands it out: the tuple, or the record that
    [DictCursorMixin] builds from it. *)
Inductive PyRow : Type :=
| RowTuple (vs : Row)
| RowDict (d : gmap string Value).

(** Column metadata of a result: [f.name] and [f.table_name] are what
    [DictCursorMixin] reads. *)
Record Field : Type := mkField {
  name : string;
  table_name : string;
  type_code : Z;
}.

(** One entry of the DB-API [description]. *)
Definition ColumnDescription : Type := (string * Z)%type.

(** A packet of row data still on the wire in unbuffered mode. *)
Inductive Packet : Type :=
| RowData (r : Row)
| ErrPacket (e : exn).

(** A warning record; [w[-1]] is its message. *)
Record WarningRecord : Type := mkWarning {
  w_level : string;
  w_code : Z;
  w_message : string;
}.

(** Modelled from the spec: the [Result] object owned by the transport
    (interface section: affected_rows, description, insert_id,
    warning_count, has_next, rows or an on-demand reader). *)
Record Result : Type := mkResult {
  affected_rows : Z;
  r_description : option (list ColumnDescription);
  fields : list Field;
  insert_id : Z;
  warning_count : Z;
  has_next : bool;
  rows : option (list Row);
  unbuffered_active : bool;
  unread : list Packet;
}.

Definition set_unread (u : list Packet) (active : bool) (r : Result) : Result :=
  {| affected_rows := affected_rows r; r_description := r_description r;
     fields := fields r; insert_id := insert_id r;
     warning_count := warning_count r; has_next := has_next r;
     rows := rows r; unbuffered_active := active; unread := u |}.

(** What the server sends back for one result set. *)
Record Reply : Type := mkReply {
  reply_affected_rows : Z;
  reply_description : option (list ColumnDescription);
  reply_fields : list Field;
  reply_insert_id : Z;
  reply_warnings : list WarningRecord;
  reply_has_next : bool;
  reply_rows : option (list Packet);
}.

Inductive ServerReply : Type :=
| Answers (r : Reply)
| Fails (e : exn).

(** Modelled from the spec: the connection/transport object.  Result objects
    live in a store and are known by their identity (a store index), so that
    [a is b] on results is equality of identities.  [incoming] holds the
    result sets the server has announced for the statement in flight and that
    have not been read yet; [sent] logs the statements handed to
    [conn.query], most recent first. *)
Record Connection : Type := mkConnection {
  conn_result : option nat;
  objects : nat -> Result;
  next_object : nat;
  incoming : list ServerReply;
  sent : list pystr;
  pending_warnings : list WarningRecord;
}.

(** ** The cursor object *)

Inductive CursorClass : Type :=
| ClsCursor
| ClsDictCursor
| ClsSSCursor
| ClsSSDictCursor.

Definition is_ss (k : CursorClass) : bool :=
  match k with ClsSSCursor | ClsSSDictCursor => true | _ => false end.

Definition is_dict (k : CursorClass) : bool :=
  match k with ClsDictCursor | ClsSSDictCursor => true | _ => false end.

(** The cursor holds a reference to its connection; there is one connection
    in the world. *)
Inductive ConnRef : Type := TheConnection.

(** Attributes of a cursor instance.  [lastrowid], [_last_executed] and
    [_fields] are not set by [__init__]: [None] is the missing attribute. *)
Record Cursor : Type := mkCursor {
  cls : CursorClass;
  connection : option ConnRef;
  description : option (list ColumnDescription);
  rownumber : Z;
  rowcount : Z;
  arraysize : Z;
  _executed : option pystr;
  _result : option nat;
  _rows : option (list PyRow);
  _last_executed : option pystr;
  lastrowid : option Z;
  _fields : option (list string);
  max_stmt_length : Z;
}.

(** [Cursor.__init__] *)
Definition new_cursor (k : CursorClass) : Cursor :=
  {| cls := k; connection := Some TheConnection; description := None;
     rownumber := 0; rowcount := -1; arraysize := 1; _executed := None;
     _result := None; _rows := None; _last_executed := None;
     lastrowid := None; _fields := None; max_stmt_length := 1024000 |}.

Definition set_connection (v : option ConnRef) (c : Cursor) : Cursor :=
  {| cls := cls c; connection := v; description := description c;
     rownumber := rownumber c; rowcount := rowcount c;
     arraysize := arraysize c; _executed := _executed c;
     _result := _result c; _rows := _rows c;
     _last_executed := _last_executed c; lastrowid := lastrowid c;
     _fields := _fields c; max_stmt_length := max_stmt_length c |}.

Definition set_description (v : option (list ColumnDescription)) (c : Cursor) : Cursor :=
  {| cls := cls c; connection := connection c; description := v;
     rownumber := rownumber c; rowcount := rowcount c;
     arraysize := arraysize c; _executed := _executed c;
     _result := _result c; _rows := _rows c;
     _last_executed := _last_executed c; lastrowid := lastrowid c;
     _fields := _fields c; max_stmt_length := max_stmt_length c |}.

Definition set_rownumber (v : Z) (c : Cursor) : Cursor :=
  {| cls := cls c; connection := connection c; description := description c;
     rownumber := v; rowcount := rowcount c;
     arraysize := arraysize c; _executed := _executed c;
     _result := _result c; _rows := _rows c;
     _last_executed := _last_executed c; lastrowid := lastrowid c;
     _fields := _fields c; max_stmt_length := max_stmt_length c |}.

Definition set_rowcount (v : Z) (c : Cursor) : Cursor :=
  {| cls := cls c; connection := connection c; description := description c;
     rownumber := rownumber c; rowcount := v;
     arraysize := arraysize c; _executed := _executed c;
     _result := _result c; _rows := _rows c;
     _last_executed := _last_executed c; lastrowid := lastrowid c;
     _fields := _fields c; max_stmt_length := max_stmt_length c |}.

Definition set_executed (v : option pystr) (c : Cursor) : Cursor :=
  {| cls := cls c; connection := connection c; description := description c;
     rownumber := rownumber c; rowcount := rowcount c;
     arraysize := arraysize c; _executed := v;
     _result := _result c; _rows := _rows c;
     _last_executed := _last_executed c; lastrowid := lastrowid c;
     _fields := _fields c; max_stmt_length := max_stmt_length c |}.

Definition set_result (v : option nat) (c : Cursor) : Cursor :=
  {| cls := cls c; connection := connection c; description := description c;
     rownumber := rownumber c; rowcount := rowcount c;
     arraysize := arraysize c; _executed := _executed c;
     _result := v; _rows := _rows c;
     _last_executed := _last_executed c; lastrowid := lastrowid c;
     _fields := _fields c; max_stmt_length := max_stmt_length c |}.

Definition set_rows (v : option (list PyRow)) (c : Cursor) : Cursor :=
  {| cls := cls c; connection := connection c; description := description c;
     rownumber := rownumber c; rowcount := rowcount c;
     arraysize := arraysize c; _executed := _executed c;
     _result := _result c; _rows := v;
     _last_executed := _last_executed c; lastrowid := lastrowid c;
     _fields := _fields c; max_stmt_length := max_stmt_length c |}.

Definition set_last_executed (v : option pystr) (c : Cursor) : Cursor :=
  {| cls := cls c; connection := connection c; description := description c;
     rownumber := rownumber c; rowcount := rowcount c;
     arraysize := arraysize c; _executed := _executed c;
     _result := _result c; _rows := _rows c;
     _last_executed := v; lastrowid := lastrowid c;
     _fields := _fields c; max_stmt_length := max_stmt_length c |}.

Definition set_lastrowid (v : option Z) (c : Cursor) : Cursor :=
  {| cls := cls c; connection := connection c; description := description c;
     rownumber := rownumber c; rowcount := rowcount c;
     arraysize := arraysize c; _executed := _executed c;
     _result := _result c; _rows := _rows c;
     _last_executed := _last_executed c; lastrowid := v;
     _fields := _fields c; max_stmt_length := max_stmt_length c |}.

Definition set_fields (v : option (list string)) (c : Cursor) : Cursor :=
  {| cls := cls c; connection := connection c; description := description c;
     rownumber := rownumber c; rowcount := rowcount c;
     arraysize := arraysize c; _executed := _executed c;
     _result := _result c; _rows := _rows c;
     _last_executed := _last_executed c; lastrowid := lastrowid c;
     _fields := v; max_stmt_length := max_stmt_length c |}.

(** [cursor.max_stmt_length = v]: the class attribute can be overridden. *)
Definition set_max_stmt_length (v : Z) (c : Cursor) : Cursor :=
  {| cls := cls c; connection := connection c; description := description c;
     rownumber := rownumber c; rowcount := rowcount c;
     arraysize := arraysize c; _executed := _executed c;
     _result := _result c; _rows := _rows c;
     _last_executed := _last_executed c; lastrowid := lastrowid c;
     _fields := _fields c; max_stmt_length := v |}.

(** ** The world and its monad *)

(** One cursor, the connection it shares with whoever else uses it, and the
    warnings surfaced so far through [warnings.warn]. *)
Record World : Type := mkWorld {
  cursor : Cursor;
  conn : Connection;
  warned : list string;
}.

Definition with_cursor (f : Cursor -> Cursor) (w : World) : World :=
  {| cursor := f (cursor w); conn := conn w; warned := warned w |}.

Definition with_conn (f : Connection -> Connection) (w : World) : World :=
  {| cursor := cursor w; conn := f (conn w); warned := warned w |}.

(** How a call ends: it returns, it raises, or the model's loop bound ran
    out (shown below never to happen). *)
Inductive outcome (A : Type) : Type :=
| Normal (a : A)
| Raised (e : exn)
| NoFuel.
Arguments Normal {A} a.
Arguments Raised {A} e.
Arguments NoFuel {A}.

Definition M (A : Type) : Type := World -> outcome A * World.

Definition ret {A} (a : A) : M A := fun w => (Normal a, w).

Definition raise {A} (e : exn) : M A := fun w => (Raised e, w).

Definition bind {A B} (m : M A) (k : A -> M B) : M B :=
  fun w =>
    match m w with
    | (Normal a, w') => k a w'
    | (Raised e, w') => (Raised e, w')
    | (NoFuel, w') => (NoFuel, w')
    end.

Declare Scope py_scope.
Delimit Scope py_scope with py.
Notation "'do' x <- m ; k" := (bind m (fun x => k))
  (at level 10, x name, m at level 100, k at level 200) : py_scope.
Notation "m ;; k" := (bind m (fun _ => k))
  (at level 100, k at level 200, right associativity) : py_scope.
Local Open Scope py_scope.

(** [try: body finally: handler]: the handler runs whether the body returns
    or raises, and an exception of the body is raised again after it. *)
Definition try_finally {A} (body : M A) (handler : M unit) : M A :=
  fun w =>
    match body w with
    | (Normal a, w') =>
        match handler w' with
        | (Normal _, w'') => (Normal a, w'')
        | (Raised e, w'') => (Raised e, w'')
        | (NoFuel, w'') => (NoFuel, w'')
        end
    | (Raised e, w') =>
        match handler w' with
        | (Normal _, w'') => (Raised e, w'')
        | (Raised e', w'') => (Raised e', w'')
        | (NoFuel, w'') => (NoFuel, w'')
        end
    | (NoFuel, w') => (NoFuel, w')
    end.

Definition get_cursor : M Cursor := fun w => (Normal (cursor w), w).

Definition get_conn : M Connection := fun w => (Normal (conn w), w).

Definition modify_cursor (f : Cursor -> Cursor) : M unit :=
  fun w => (Normal tt, with_cursor f w).

Definition modify_conn (f : Connection -> Connection) : M unit :=
  fun w => (Normal tt, with_conn f w).

(** [warnings.warn(msg, err.Warning, 4)] *)
Definition warn (msg : string) : M unit :=
  fun w => (Normal tt,
            {| cursor := cursor w; conn := conn w; warned := warned w ++ [msg] |}).

(** [for x in xs: body(x)] *)
Fixpoint for_each {A} (xs : list A) (body : A -> M unit) : M unit :=
  match xs with
  | [] => ret tt
  | x :: xs' => body x ;; for_each xs' body
  end.

(** Lifting a computation that can only fail, not touch the world. *)
Definition lift {A} (r : exn + A) : M A :=
  match r with
  | inl e => raise e
  | inr a => ret a
  end.

(** ** The transport *)

Definition set_object (id : nat) (r : Result) (c : Connection) : Connection :=
  {| conn_result := conn_result c;
     objects := fun i => if Nat.eqb i id then r else objects c i;
     next_object := next_object c; incoming := incoming c; sent := sent c;
     pending_warnings := pending_warnings c |}.

Definition set_incoming (l : list ServerReply) (c : Connection) : Connection :=
  {| conn_result := conn_result c; objects := objects c;
     next_object := next_object c; incoming := l; sent := sent c;
     pending_warnings := pending_warnings c |}.

Definition set_sent (l : list pystr) (c : Connection) : Connection :=
  {| conn_result := conn_result c; objects := objects c;
     next_object := next_object c; incoming := incoming c; sent := l;
     pending_warnings := pending_warnings c |}.

(** A new result object becomes the connection's current result. *)
Definition install (r : Result) (ws : list WarningRecord)
    (rest : list ServerReply) (c : Connection) : Connection :=
  {| conn_result := Some (next_object c);
     objects := fun i => if Nat.eqb i (next_object c) then r else objects c i;
     next_object := S (next_object c); incoming := rest; sent := sent c;
     pending_warnings := ws |}.

(** Buffered mode reads every row packet of the result set at once. *)
Fixpoint read_all_rows (ps : list Packet) : exn + list Row :=
  match ps with
  | [] => inr []
  | RowData r :: ps' =>
      match read_all_rows ps' with
      | inl e => inl e
      | inr rs => inr (r :: rs)
      end
  | ErrPacket e :: _ => inl e
  end.

(** Modelled from the spec: how the transport turns a reply into the Result
    it exposes.  Buffered mode materialises the rows; unbuffered mode leaves
    them on the wire behind the on-demand reader. *)
Definition build_result (unbuffered : bool) (r : Reply) : exn + Result :=
  let mk rs active wire :=
    {| affected_rows := reply_affected_rows r;
       r_description := reply_description r;
       fields := reply_fields r;
       insert_id := reply_insert_id r;
       warning_count := py_len (reply_warnings r);
       has_next := reply_has_next r;
       rows := rs; unbuffered_active := active; unread := wire |} in
  match reply_rows r with
  | None => inr (mk None false [])
  | Some ps =>
      if unbuffered then inr (mk None true ps)
      else match read_all_rows ps with
           | inl e => inl e
           | inr rs => inr (mk (Some rs) false [])
           end
  end.

(** Modelled from the spec: reading the next result set off the wire.  The
    reply at the head of [replies] is consumed; an error reply, or no reply
    at all, makes the transport raise and leaves the current result as it
    was. *)
Definition receive (unbuffered : bool) (replies : list ServerReply) : M unit :=
  fun w =>
    match replies with
    | [] => (Raised (OperationalError 2013 "Lost connection to MySQL server during query"),
             with_conn (set_incoming []) w)
    | Fails e :: rest => (Raised e, with_conn (set_incoming rest) w)
    | Answers r :: rest =>
        match build_result unbuffered r with
        | inl e => (Raised e, with_conn (set_incoming rest) w)
        | inr res => (Normal tt, with_conn (install res (reply_warnings r) rest) w)
        end
    end.

(** Modelled from the spec: [result._read_rowdata_packet_unbuffered()], the
    on-demand reader of a streaming result. *)
Definition read_rowdata_packet_unbuffered (id : nat) : M (option Row) :=
  fun w =>
    let r := objects (conn w) id in
    if negb (unbuffered_active r) then (Normal None, w)
    else match unread r with
         | [] => (Normal None, with_conn (set_object id (set_unread [] false r)) w)
         | RowData row :: rest =>
             (Normal (Some row), with_conn (set_object id (set_unread rest true r)) w)
         | ErrPacket e :: rest =>
             (Raised e, with_conn (set_object id (set_unread rest true r)) w)
         end.

(** Reading packets until the end-of-data marker; an error packet stops it. *)
Fixpoint drain_packets (ps : list Packet) : option exn * list Packet :=
  match ps with
  | [] => (None, [])
  | RowData _ :: ps' => drain_packets ps'
  | ErrPacket e :: ps' => (Some e, ps')
  end.

(** Modelled from the spec: [result._finish_unbuffered_query()], which
    drains the remaining wire data of a streaming result. *)
Definition finish_unbuffered_query (id : nat) : M unit :=
  fun w =>
    let r := objects (conn w) id in
    if negb (unbuffered_active r) then (Normal tt, w)
    else match drain_packets (unread r) with
         | (None, _) => (Normal tt, with_conn (set_object id (set_unread [] false r)) w)
         | (Some e, rest) => (Raised e, with_conn (set_object id (set_unread rest true r)) w)
         end.

(** Modelled from the spec: [conn.show_warnings()]. *)
Definition conn_show_warnings : M (list WarningRecord) :=
  fun w => (Normal (pending_warnings (conn w)), w).

(** Modelled from the spec: [conn.next_result(unbuffered)]. *)
Definition conn_next_result (unbuffered : bool) : M unit :=
  fun w => receive unbuffered (incoming (conn w)) w.

(** ** Statement arguments *)

#[global] Instance pystr_eq_dec : EqDecision pystr.
Proof. solve_decision. Defined.

#[global] Instance pystr_countable : Countable pystr.
Proof.
  refine (inj_countable'
            (fun x => match x with Text s => inl s | Bytes s => inr s end)
            (fun y => match y with inl s => Text s | inr s => Bytes s end) _).
  intros []; reflexivity.
Defined.

(** The [args] of [execute]: a tuple or list, a dict, or one bare value. *)
Inductive PyArgs : Type :=
| ArgSeq (l : list Value)
| ArgDict (d : gmap pystr Value)
| ArgScalar (v : Value).

(** The right operand of [%] once the arguments are escaped. *)
Inductive FormatArgs : Type :=
| FmtTuple (l : list string)
| FmtDict (d : gmap pystr string)
| FmtScalar (s : string).

(** The list without its longest prefix of elements that satisfy [p]. *)
Fixpoint drop_while {A} (p : A -> bool) (l : list A) : list A :=
  match l with
  | [] => []
  | x :: l' => if p x then drop_while p l' else l
  end.

(** [sep.join(l)] *)
Fixpoint py_join (sep : string) (l : list string) : string :=
  match l with
  | [] => ""
  | [x] => x
  | x :: l' => x +:+ sep +:+ py_join sep l'
  end.

(** Truth value of an attribute holding [None] or a string. *)
Definition truthy_str (o : option pystr) : bool :=
  match o with
  | None => false
  | Some q => negb (String.eqb (payload q) "")
  end.

(** Truth value of an attribute holding [None] or a sequence. *)
Definition truthy_seq {A} (o : option (list A)) : bool :=
  match o with
  | None | Some [] => false
  | Some (_ :: _) => true
  end.

(** [size or default] on integers: [None] and [0] are both false. *)
Definition py_or (size : option Z) (default : Z) : Z :=
  match size with
  | None => default
  | Some s => if s =? 0 then default else s
  end.

(** The name list of [DictCursorMixin._do_get_result]: a name already in the
    list is qualified with its table name before it is appended. *)
Fixpoint dict_field_names (fs : list Field) (names : list string) : list string :=
  match fs with
  | [] => names
  | f :: fs' =>
      let n := if bool_decide (name f ∈ names)
               then table_name f +:+ "." +:+ name f
               else name f in
      dict_field_names fs' (names ++ [n])
  end.

(** What [zip(self._fields, row)] iterates over on the row side: the values
    of a tuple.  (Iterating a dict would yield its keys; the rows bound by
    [_do_get_result] and those read off the wire are tuples.) *)
Definition row_items (r : PyRow) : list Value :=
  match r with
  | RowTuple vs => vs
  | RowDict d => (fun kv => VText kv.1) <$> map_to_list d
  end.

(** [self.dict_type(zip(self._fields, row))] *)
Definition dict_row (names : list string) (r : PyRow) : PyRow :=
  RowDict (py_dict (py_zip names (row_items r))).

(** ** What the cursor code takes from outside [cursors.py] *)

Class Environment : Type := mkEnvironment {
  (** [_compat.PY2] *)
  PY2 : bool;
  (** [x.encode(conn.encoding)] *)
  encode : string -> string;
  (** The interpreter's [format % args] on strings. *)
  py_format : pystr -> FormatArgs -> exn + pystr;
  (** [conn.escape(value)], a native string. *)
  escape : Value -> string;
  (** The server: given the statements sent so far, the newest first, the
      chain of result sets it announces for the newest one. *)
  server : list pystr -> list ServerReply;
}.

Section Cursors.

Context {env : Environment}.

(** A native string literal: [str] is bytes in Python 2 and text in Python 3. *)
Definition native (s : string) : pystr := if PY2 then Bytes s else Text s.

(** Modelled from the spec: [conn.query(q, unbuffered)] sends the statement
    and establishes the first result set of the answer as current result. *)
Definition conn_query (q : pystr) (unbuffered : bool) : M unit :=
  fun w =>
    let log := q :: sent (conn w) in
    receive unbuffered (server log) (with_conn (set_sent log) w).

(** ** class Cursor *)

Definition _get_db : M ConnRef :=
  do c <- get_cursor;
  match connection c with
  | None => raise (ProgrammingError "Cursor closed")
  | Some r => ret r
  end.

Definition _check_executed : M unit :=
  do c <- get_cursor;
  if truthy_str (_executed c) then ret tt
  else raise (ProgrammingError "execute() first").

Definition _show_warnings : M unit :=
  do ws <- conn_show_warnings;
  for_each ws (fun w => warn (w_message w)).

Definition Cursor_do_get_result : M unit :=
  _get_db ;;
  modify_cursor (set_rownumber 0) ;;
  do cn <- get_conn;
  modify_cursor (set_result (conn_result cn)) ;;
  match conn_result cn with
  | None => raise (AttributeError "'NoneType' object has no attribute 'affected_rows'")
  | Some id =>
      let result := objects cn id in
      modify_cursor (set_rowcount (affected_rows result)) ;;
      modify_cursor (set_description (r_description result)) ;;
      modify_cursor (set_lastrowid (Some (insert_id result))) ;;
      modify_cursor (set_rows (map RowTuple <$> rows result)) ;;
      if 0 <? warning_count result then _show_warnings else ret tt
  end.

(** [DictCursorMixin._conv_row] *)
Definition DictCursorMixin_conv_row (row : option PyRow) : M (option PyRow) :=
  match row with
  | None => ret None
  | Some r =>
      do c <- get_cursor;
      match _fields c with
      | None => raise (AttributeError "object has no attribute '_fields'")
      | Some names => ret (Some (dict_row names r))
      end
  end.

(** [Cursor._conv_row] and [SSCursor._conv_row] *)
Definition Cursor_conv_row (row : option PyRow) : M (option PyRow) := ret row.

(** [self._conv_row]: the mixin comes first in the classes that have it. *)
Definition _conv_row (row : option PyRow) : M (option PyRow) :=
  do c <- get_cursor;
  if is_dict (cls c) then DictCursorMixin_conv_row row else Cursor_conv_row row.

(** [[self._conv_row(r) for r in rows]] *)
Fixpoint conv_rows (rs : list PyRow) : M (list PyRow) :=
  match rs with
  | [] => ret []
  | r :: rs' =>
      do r' <- _conv_row (Some r);
      do rest <- conv_rows rs';
      ret (match r' with Some x => x :: rest | None => rest end)
  end.

(** [DictCursorMixin._do_get_result] *)
Definition DictCursorMixin_do_get_result : M unit :=
  Cursor_do_get_result ;;
  do c <- get_cursor;
  do names <-
    (if truthy_seq (description c) then
       match _result c with
       | None => raise (AttributeError "'NoneType' object has no attribute 'fields'")
       | Some id =>
           do cn <- get_conn;
           let names := dict_field_names (fields (objects cn id)) [] in
           modify_cursor (set_fields (Some names)) ;;
           ret names
       end
     else ret []);
  do c <- get_cursor;
  match names, _rows c with
  | _ :: _, Some (r :: rs) =>
      do converted <- conv_rows (r :: rs);
      modify_cursor (set_rows (Some converted))
  | _, _ => ret tt
  end.

Definition _do_get_result : M unit :=
  do c <- get_cursor;
  if is_dict (cls c) then DictCursorMixin_do_get_result else Cursor_do_get_result.

(** [Cursor._nextset]; the falsy results [None] are [false]. *)
Definition _nextset (unbuffered : bool) : M bool :=
  _get_db ;;
  do c <- get_cursor;
  do cn <- get_conn;
  match _result c with
  | None => ret false
  | Some id =>
      if negb (bool_decide (conn_result cn = Some id)) then ret false
      else if negb (has_next (objects cn id)) then ret false
      else conn_next_result unbuffered ;; _do_get_result ;; ret true
  end.

(** [Cursor.nextset] and its override [SSCursor.nextset] *)
Definition nextset : M bool :=
  do c <- get_cursor;
  _nextset (is_ss (cls c)).

(** [while self.nextset(): pass], with a bound on the number of rounds. *)
Fixpoint while_nextset (fuel : nat) : M unit :=
  match fuel with
  | O => fun w => (NoFuel, w)
  | S n => do more <- nextset; if more then while_nextset n else ret tt
  end.

(** Every round that goes on consumes one announced result set, so one more
    round than there are announced result sets is enough. *)
Definition drain_result_sets : M unit :=
  fun w => while_nextset (S (length (incoming (conn w)))) w.

Definition Cursor_close : M unit :=
  do c <- get_cursor;
  match connection c with
  | None => ret tt
  | Some _ =>
      try_finally drain_result_sets (modify_cursor (set_connection None))
  end.

Definition _escape_args (args : PyArgs) : FormatArgs :=
  match args with
  | ArgSeq l => FmtTuple (escape <$> l)
  | ArgDict d => FmtDict (py_dict ((fun kv => (kv.1, escape kv.2)) <$> map_to_list d))
  | ArgScalar v => FmtScalar (escape v)
  end.

(** The local [ensure_bytes] of [execute], on strings and on values. *)
Definition ensure_bytes (x : pystr) : pystr :=
  match x with
  | Text s => Bytes (encode s)
  | Bytes _ => x
  end.

Definition ensure_bytes_value (v : Value) : Value :=
  match v with
  | VText s => VBytes (encode s)
  | _ => v
  end.

Definition ensure_bytes_args (args : PyArgs) : PyArgs :=
  match args with
  | ArgSeq l => ArgSeq (ensure_bytes_value <$> l)
  | ArgDict d =>
      ArgDict (py_dict ((fun kv => (ensure_bytes kv.1, ensure_bytes_value kv.2))
                          <$> map_to_list d))
  | ArgScalar v => ArgScalar (ensure_bytes_value v)
  end.

Definition Cursor_query (q : pystr) : M Z :=
  _get_db ;;
  modify_cursor (set_last_executed (Some q)) ;;
  conn_query q false ;;
  _do_get_result ;;
  do c <- get_cursor;
  ret (rowcount c).

Definition SSCursor_query (q : pystr) : M Z :=
  _get_db ;;
  modify_cursor (set_last_executed (Some q)) ;;
  conn_query q true ;;
  _do_get_result ;;
  do c <- get_cursor;
  ret (rowcount c).

Definition _query (q : pystr) : M Z :=
  do c <- get_cursor;
  if is_ss (cls c) then SSCursor_query q else Cursor_query q.

Definition execute (query : pystr) (args : option PyArgs) : M Z :=
  _get_db ;;
  drain_result_sets ;;
  let query := if PY2 then ensure_bytes query else query in
  let args := if PY2 then ensure_bytes_args <$> args else args in
  do query <- match args with
              | Some a => lift (py_format query (_escape_args a))
              | None => ret query
              end;
  do result <- _query query;
  modify_cursor (set_executed (Some query)) ;;
  ret result.

(** *** [executemany] *)

(** [\s] of the [re] module: the ASCII class under Python 2, the Unicode
    class (here below code point 256) on Python 3 text. *)
Definition is_space (c : ascii) : bool :=
  let n := nat_of_ascii c in
  ((9 <=? n) && (n <=? 13) || (n =? 32)
   || negb PY2 && ((28 <=? n) && (n <=? 31) || (n =? 133) || (n =? 160)))%nat.

(** [c] matches the lower-case letter [l] under [re.IGNORECASE]. *)
Definition ci_eq (l c : ascii) : bool :=
  Ascii.eqb c l || (nat_of_ascii c + 32 =? nat_of_ascii l)%nat.

Fixpoint ci_prefix (word s : list ascii) : option (list ascii) :=
  match word, s with
  | [], _ => Some s
  | l :: word', c :: s' => if ci_eq l c then ci_prefix word' s' else None
  | _ :: _, [] => None
  end.

(** The inside of group 1, placeholders [%s] separated by commas with blanks
    allowed around each, against the whole of [s], as an automaton: [seen]
    tells whether a placeholder has just been read, so that a comma or the
    end may follow. *)
Fixpoint placeholders (seen : bool) (s : list ascii) : bool :=
  match s with
  | [] => seen
  | c :: s' =>
      if is_space c then placeholders seen s'
      else if seen then
        (if Ascii.eqb c "," then placeholders false s' else false)
      else
        match s' with
        | c' :: s'' =>
            if Ascii.eqb c "%" && ci_eq "s" c' then placeholders true s'' else false
        | [] => false
        end
  end.

(** [INSERT\s.+\sVALUES\s+] against the whole of [p], read from both ends:
    [p] begins with [INSERT] and a blank, ends with a blank, [VALUES] and at
    least one blank, and at least one character lies in between. *)
Definition insert_values_prefix (p : list ascii) : bool :=
  match ci_prefix (String.list_ascii_of_string "insert") p with
  | Some (c :: middle) =>
      is_space c &&
      let r := reverse middle in
      let r' := drop_while is_space r in
      (length r' <? length r)%nat &&
      match ci_prefix (String.list_ascii_of_string "seulav") r' with
      | Some (b :: _ :: _) => is_space b
      | _ => false
      end
  | _ => false
  end.

(** The text before the first [(] of [r] and the text after it. *)
Fixpoint split_paren (r : list ascii) : option (list ascii * list ascii) :=
  match r with
  | [] => None
  | c :: r' =>
      if Ascii.eqb c "(" then Some ([], r')
      else match split_paren r' with
           | Some (a, b) => Some (c :: a, b)
           | None => None
           end
  end.

(** [RE_INSERT_VALUES.match(query)]: [query[:m.start(1)]] and [m.group(1)]
    when the pattern matches, that is [INSERT\s.+\sVALUES\s+], then group 1
    (a parenthesised, comma-separated run of [%s]), then blanks up to the
    end.  Group 1 holds no inner parenthesis, so it runs from the last
    opening parenthesis to the closing one that ends the statement. *)
Definition RE_INSERT_VALUES_match (query : string) : option (string * string) :=
  let r := drop_while is_space (reverse (String.list_ascii_of_string query)) in
  match r with
  | c :: r' =>
      if Ascii.eqb c ")" then
        match split_paren r' with
        | Some (rcontent, rprefix) =>
            let content := reverse rcontent in
            let prefix := reverse rprefix in
            if placeholders false content && insert_values_prefix prefix
            then Some (String.string_of_list_ascii prefix,
                       String.string_of_list_ascii ("(" :: content ++ [")"]))%char
            else None
        | None => None
        end
      else None
  | [] => None
  end.

(** [s.rstrip()] *)
Definition rstrip (s : string) : string :=
  String.string_of_list_ascii
    (reverse (drop_while is_space (reverse (String.list_ascii_of_string s)))).

(** [x[0] == '(' and x[-1] == ')'] *)
Definition parenthesised (s : string) : bool :=
  match String.list_ascii_of_string s with
  | c :: _ =>
      Ascii.eqb c "(" &&
      match reverse (String.list_ascii_of_string s) with
      | d :: _ => Ascii.eqb d ")"
      | [] => false
      end
  | [] => false
  end.

(** A slice or a match group has the type of the string it is taken from. *)
Definition same_kind (x : pystr) (s : string) : pystr :=
  match x with Text _ => Text s | Bytes _ => Bytes s end.

(** [if isinstance(x, text_type): x = x.encode(encoding)] *)
Definition to_bytes (x : pystr) : string :=
  match x with Text s => encode s | Bytes s => s end.

Definition str_len (s : string) : Z := Z.of_nat (String.length s).

(** The [for arg in args] loop of [_do_execute_many]: [sql] is the statement
    under construction and [rows] the affected rows counted so far. *)
Fixpoint execute_many_loop (prefix : string) (values : pystr)
    (args : list PyArgs) (max_stmt_length : Z) (sql : string) (rows : Z)
    : M (string * Z) :=
  match args with
  | [] => ret (sql, rows)
  | arg :: rest =>
      do v <- lift (py_format values (_escape_args arg));
      let v := to_bytes v in
      if max_stmt_length <? str_len sql + str_len v + 1 then
        do n <- execute (Bytes sql) None;
        execute_many_loop prefix values rest max_stmt_length
          (prefix +:+ v) (rows + n)
      else
        execute_many_loop prefix values rest max_stmt_length
          (sql +:+ "," +:+ v) rows
  end.

Definition _do_execute_many (prefix values : pystr) (args : list PyArgs)
    (max_stmt_length : Z) : M Z :=
  _get_db ;;
  let prefix := to_bytes prefix in
  match args with
  | [] => raise StopIteration
  | first :: rest =>
      do v <- lift (py_format values (_escape_args first));
      let sql := prefix +:+ to_bytes v in
      do st <- execute_many_loop prefix values rest max_stmt_length sql 0;
      do n <- execute (Bytes st.1) None;
      modify_cursor (set_rowcount (st.2 + n)) ;;
      ret (st.2 + n)
  end.

(** [sum(self.execute(query, arg) for arg in args)] *)
Fixpoint sum_execute (query : pystr) (args : list PyArgs) (total : Z) : M Z :=
  match args with
  | [] => ret total
  | arg :: rest =>
      do n <- execute query (Some arg);
      sum_execute query rest (total + n)
  end.

(** [executemany]; the result [None] of the bare [return] is [None] here.
    A text pattern cannot be matched against bytes on Python 3. *)
Definition executemany (query : pystr) (args : list PyArgs) : M (option Z) :=
  match args with
  | [] => ret None
  | _ :: _ =>
      if negb PY2 && negb (is_text query)
      then raise (TypeError "cannot use a string pattern on a bytes-like object")
      else
        match RE_INSERT_VALUES_match (payload query) with
        | Some (before, group1) =>
            let q_values := rstrip group1 in
            if parenthesised q_values then
              let q_prefix := before in
              do c <- get_cursor;
              _get_db ;;
              do rows <- _do_execute_many (same_kind query q_prefix)
                           (same_kind query q_values) args (max_stmt_length c);
              ret (Some rows)
            else raise AssertionError
        | None =>
            do total <- sum_execute query args 0;
            modify_cursor (set_rowcount total) ;;
            ret (Some total)
        end
  end.

(** *** [callproc] *)

(** ["SET @_%s_%d=%s" % (procname, index, conn.escape(arg))] *)
Definition set_statement (procname : string) (index : nat) (arg : Value) : pystr :=
  native ("SET @_" +:+ procname +:+ "_" +:+ pretty index +:+ "=" +:+ escape arg).

(** ["CALL %s(%s)" % (procname, ','.join(['@_%s_%d' % (procname, i) ...]))] *)
Definition call_statement (procname : string) (n : nat) : pystr :=
  native ("CALL " +:+ procname +:+ "(" +:+
          py_join "," ((fun i => "@_" +:+ procname +:+ "_" +:+ pretty i) <$> seq 0 n)
          +:+ ")").

(** [for index, arg in enumerate(args)], from [index] on. *)
Fixpoint callproc_loop (procname : string) (index : nat) (args : list Value) : M unit :=
  match args with
  | [] => ret tt
  | arg :: rest =>
      _query (set_statement procname index arg) ;;
      nextset ;;
      callproc_loop procname (S index) rest
  end.

Definition callproc (procname : string) (args : list Value) : M (list Value) :=
  _get_db ;;
  callproc_loop procname 0 args ;;
  let q := call_statement procname (length args) in
  _query q ;;
  modify_cursor (set_executed (Some q)) ;;
  ret args.

(** *** Fetching from the materialised rows *)

Definition Cursor_fetchone : M (option PyRow) :=
  _check_executed ;;
  do c <- get_cursor;
  match _rows c with
  | None => ret None
  | Some rs =>
      if py_len rs <=? rownumber c then ret None
      else match py_getitem rs (rownumber c) with
           | None => raise (IndexError "list index out of range")
           | Some result =>
               modify_cursor (set_rownumber (rownumber c + 1)) ;;
               ret (Some result)
           end
  end.

Definition Cursor_fetchmany (size : option Z) : M (option (list PyRow)) :=
  _check_executed ;;
  do c <- get_cursor;
  match _rows c with
  | None => ret None
  | Some rs =>
      let end_ := rownumber c + py_or size (arraysize c) in
      let result := py_slice rs (rownumber c) (Some end_) in
      modify_cursor (set_rownumber (Z.min end_ (py_len rs))) ;;
      ret (Some result)
  end.

Definition Cursor_fetchall : M (option (list PyRow)) :=
  _check_executed ;;
  do c <- get_cursor;
  match _rows c with
  | None => ret None
  | Some rs =>
      let result := if rownumber c =? 0 then rs
                    else py_slice rs (rownumber c) None in
      modify_cursor (set_rownumber (py_len rs)) ;;
      ret (Some result)
  end.

Definition Cursor_scroll (value : Z) (mode : string) : M unit :=
  _check_executed ;;
  do c <- get_cursor;
  do r <- (if String.eqb mode "relative" then ret (rownumber c + value)
           else if String.eqb mode "absolute" then ret value
           else raise (ProgrammingError ("unknown scroll mode " +:+ mode)));
  (* [0 <= r < len(self._rows)] is a chained comparison: [len(self._rows)]
     is evaluated only once [0 <= r] holds. *)
  if 0 <=? r then
    match _rows c with
    | None => raise (TypeError "object of type 'NoneType' has no len()")
    | Some rs =>
        if r <? py_len rs
        then modify_cursor (set_rownumber r)
        else raise (IndexError "out of range")
    end
  else raise (IndexError "out of range").

(** ** class SSCursor *)

Definition SSCursor_close : M unit :=
  do c <- get_cursor;
  match connection c with
  | None => ret tt
  | Some _ =>
      do cn <- get_conn;
      match _result c with
      | Some id =>
          if bool_decide (conn_result cn = Some id)
          then finish_unbuffered_query id else ret tt
      | None => ret tt
      end ;;
      try_finally drain_result_sets (modify_cursor (set_connection None))
  end.

Definition read_next : M (option PyRow) :=
  do c <- get_cursor;
  match _result c with
  | None => raise (AttributeError "'NoneType' object has no attribute '_read_rowdata_packet_unbuffered'")
  | Some id =>
      do row <- read_rowdata_packet_unbuffered id;
      _conv_row (RowTuple <$> row)
  end.

Definition SSCursor_fetchone : M (option PyRow) :=
  _check_executed ;;
  do row <- read_next;
  match row with
  | None => ret None
  | Some r =>
      do c <- get_cursor;
      modify_cursor (set_rownumber (rownumber c + 1)) ;;
      ret (Some r)
  end.

(** [for i in range_type(size)] of [SSCursor.fetchmany] *)
Fixpoint fetchmany_loop (n : nat) (rows : list PyRow) : M (list PyRow) :=
  match n with
  | O => ret rows
  | S n' =>
      do row <- read_next;
      match row with
      | None => ret rows
      | Some r =>
          do c <- get_cursor;
          modify_cursor (set_rownumber (rownumber c + 1)) ;;
          fetchmany_loop n' (rows ++ [r])
      end
  end.

Definition SSCursor_fetchmany (size : option Z) : M (list PyRow) :=
  _check_executed ;;
  do c <- get_cursor;
  let size := match size with None => arraysize c | Some s => s end in
  fetchmany_loop (Z.to_nat size) [].

(** [for _ in range_type(n): self.read_next()] *)
Fixpoint read_and_drop (n : nat) : M unit :=
  match n with
  | O => ret tt
  | S n' => read_next ;; read_and_drop n'
  end.

Definition SSCursor_scroll (value : Z) (mode : string) : M unit :=
  _check_executed ;;
  if String.eqb mode "relative" then
    if value <? 0
    then raise (NotSupportedError "Backwards scrolling not supported by this cursor")
    else
      read_and_drop (Z.to_nat value) ;;
      do c <- get_cursor;
      modify_cursor (set_rownumber (rownumber c + value))
  else if String.eqb mode "absolute" then
    do c <- get_cursor;
    if value <? rownumber c
    then raise (NotSupportedError "Backwards scrolling not supported by this cursor")
    else
      let end_ := value - rownumber c in
      read_and_drop (Z.to_nat end_) ;;
      modify_cursor (set_rownumber value)
  else raise (ProgrammingError ("unknown scroll mode " +:+ mode)).

(** ** Method resolution *)

(** [cursor.close()] on a cursor of either flavour. *)
Definition close : M unit :=
  do c <- get_cursor;
  if is_ss (cls c) then SSCursor_close else Cursor_close.

(** [cursor.fetchmany(size)] on a cursor of either flavour; the list that
    the streaming method returns is wrapped like the buffered result. *)
Definition fetchmany (size : option Z) : M (option (list PyRow)) :=
  do c <- get_cursor;
  if is_ss (cls c)
  then (do rs <- SSCursor_fetchmany size; ret (Some rs))
  else Cursor_fetchmany size.

End Cursors.

(** ** Methods that run [fetchone] to exhaustion, and the rest of the
    method resolution *)

(** [self.fetchone], as it resolves for the class of the cursor. *)
Definition fetchone : M (option PyRow) :=
  do c <- get_cursor;
  if is_ss (cls c) then SSCursor_fetchone else Cursor_fetchone.

(** [iter(self.fetchone, None)] run to its end, as [list(...)] or a [for]
    loop does: [fetchone] is called until it returns [None], and the rows it
    returned before are collected in order. *)
Fixpoint fetch_until_none (fuel : nat) : M (list PyRow) :=
  match fuel with
  | O => fun w => (NoFuel, w)
  | S n =>
      do row <- fetchone;
      match row with
      | None => ret []
      | Some r => do rest <- fetch_until_none n; ret (r :: rest)
      end
  end.

(** A bound on the rows [fetchone] can still return: the packets on the
    wire of a streaming cursor, the rows from the row pointer on of a
    buffered one. *)
Definition rows_left (w : World) : nat :=
  let c := cursor w in
  if is_ss (cls c) then
    match _result c with
    | Some id => length (unread (objects (conn w) id))
    | None => O
    end
  else
    match _rows c with
    | Some rs => Z.to_nat (py_len rs - rownumber c)
    | None => O
    end.

(** [Cursor.__iter__] and [SSCursor.fetchall_unbuffered] (which is also
    [SSCursor.__iter__]), consumed to the end. *)
Definition iterate : M (list PyRow) :=
  fun w => fetch_until_none (S (rows_left w)) w.

(** [SSCursor.fetchall]: [list(self.fetchall_unbuffered())]. *)
Definition SSCursor_fetchall : M (list PyRow) := iterate.

(** [cursor.fetchall()] on a cursor of either flavour. *)
Definition fetchall : M (option (list PyRow)) :=
  do c <- get_cursor;
  if is_ss (cls c)
  then (do rs <- SSCursor_fetchall; ret (Some rs))
  else Cursor_fetchall.

(** [cursor.scroll(value, mode)] on a cursor of either flavour. *)
Definition scroll (value : Z) (mode : string) : M unit :=
  do c <- get_cursor;
  if is_ss (cls c) then SSCursor_scroll value mode else Cursor_scroll value mode.

(** ** A sample environment

    A small server over one table [t (a)], used to run the methods on
    concrete inputs. *)

(** Escaping as the examples need it: numbers as they are, strings quoted. *)
Definition sample_escape (v : Value) : string :=
  match v with
  | VNone => "NULL"
  | VInt z => pretty z
  | VText s | VBytes s => "'" +:+ s +:+ "'"
  end.

(** The [%s] and [%%] conversions of [format % tuple]. *)
Fixpoint percent_s (fmt : list ascii) (args : list string) : exn + string :=
  match fmt with
  | [] =>
      match args with
      | [] => inr ""
      | _ :: _ => inl (TypeError "not all arguments converted during string formatting")
      end
  | c :: fmt' =>
      if Ascii.eqb c "%" then
        match fmt' with
        | d :: fmt'' =>
            if Ascii.eqb d "s" then
              match args with
              | a :: args' =>
                  match percent_s fmt'' args' with
                  | inl e => inl e
                  | inr s => inr (a +:+ s)
                  end
              | [] => inl (TypeError "not enough arguments for format string")
              end
            else if Ascii.eqb d "%" then
              match percent_s fmt'' args with
              | inl e => inl e
              | inr s => inr (String "%" s)
              end
            else inl (ValueError "unsupported format character")
        | [] => inl (ValueError "incomplete format")
        end
      else
        match percent_s fmt' args with
        | inl e => inl e
        | inr s => inr (String c s)
        end
  end.

Definition sample_format (f : pystr) (a : FormatArgs) : exn + pystr :=
  let run l :=
    match percent_s (String.list_ascii_of_string (payload f)) l with
    | inl e => inl e
    | inr s => inr (match f with Text _ => Text s | Bytes _ => Bytes s end)
    end in
  match a with
  | FmtTuple l => run l
  | FmtScalar s => run [s]
  | FmtDict _ => inl (TypeError "format requires a mapping")
  end.

Fixpoint count_char (c : ascii) (s : string) : Z :=
  match s with
  | EmptyString => 0
  | String d s' => (if Ascii.eqb c d then 1 else 0) + count_char c s'
  end.

Definition sample_rows : list Row := [[VInt 10]; [VInt 20]; [VInt 30]].

(** The answer to a [SELECT]: three rows of one column. *)
Definition rows_reply (more : bool) : Reply :=
  {| reply_affected_rows := 3;
     reply_description := Some [("a", 3)];
     reply_fields := [mkField "a" "t" 3];
     reply_insert_id := 0;
     reply_warnings := [];
     reply_has_next := more;
     reply_rows := Some (RowData <$> sample_rows) |}.

(** The answer to a statement without result set that affected [n] rows. *)
Definition count_reply (n : Z) : Reply :=
  {| reply_affected_rows := n;
     reply_description := None;
     reply_fields := [];
     reply_insert_id := 0;
     reply_warnings := [];
     reply_has_next := false;
     reply_rows := None |}.

Definition syntax_error : exn :=
  ProgrammingError "You have an error in your SQL syntax".

Definition lost_connection : exn :=
  OperationalError 2013 "Lost connection to MySQL server during query".

(** The sample server looks at the newest statement only.  An [INSERT INTO t
    (a) VALUES ...] affects as many rows as it has parenthesised groups
    after the column list. *)
Definition sample_server (log : list pystr) : list ServerReply :=
  match log with
  | [] => []
  | q :: _ =>
      let s := payload q in
      if String.prefix "SELECT a FROM t; SELEC" s
      then [Answers (rows_reply true); Fails lost_connection]
      else if String.prefix "SELECT" s then [Answers (rows_reply false)]
      else if String.prefix "CALL" s
      then [Answers (rows_reply true); Answers (count_reply 0)]
      else if String.prefix "SELEC" s then [Fails syntax_error]
      else [Answers (count_reply (Z.max 0 (count_char "(" s - 1)))]
  end.

Definition sample_env : Environment :=
  {| PY2 := false; encode := fun s => s; py_format := sample_format;
     escape := sample_escape; server := sample_server |}.

Definition no_result : Result :=
  {| affected_rows := 0; r_description := None; fields := []; insert_id := 0;
     warning_count := 0; has_next := false; rows := None;
     unbuffered_active := false; unread := [] |}.

Definition idle_connection : Connection :=
  {| conn_result := None; objects := fun _ => no_result; next_object := 0;
     incoming := []; sent := []; pending_warnings := [] |}.

(** A cursor just obtained from [Connection.cursor()]. *)
Definition fresh_world (k : CursorClass) : World :=
  {| cursor := new_cursor k; conn := idle_connection; warned := [] |}.

(** The world a call leaves behind. *)
Definition after {A} (m : M A) (w : World) : World := (m w).2.

(** A cursor of class [k] that has just run [SELECT a FROM t]. *)
Definition selected_world (k : CursorClass) : World :=
  after (execute (env := sample_env) (Text "SELECT a FROM t") None) (fresh_world k).

(** A buffered cursor whose statement announced a second result set that the
    transport will fail to deliver. *)
Definition interrupted_world : World :=
  after (execute (env := sample_env) (Text "SELECT a FROM t; SELEC") None)
    (fresh_world ClsCursor).

(** A buffered cursor after [executemany] ran a [SELECT] once for each of
    two argument sets: the rows held are those of the last run, the row
    count is the sum over both runs. *)
Definition summed_world : World :=
  after (executemany (env := sample_env) (Text "SELECT a FROM t WHERE a > %s")
           [ArgSeq [VInt 1]; ArgSeq [VInt 2]])
    (fresh_world ClsCursor).

(** ** Properties *)

(** The cursor has executed a statement: [_check_executed] passes. *)
Definition executed (w : World) : Prop :=
  truthy_str (_executed (cursor w)) = true.

(** Whatever a call does, the world it leaves is related by [R] to the one
    it started from. *)
Definition preserves {A} (R : relation World) (m : M A) : Prop :=
  forall w, R w (m w).2.

(** The call never stops for lack of fuel. *)
Definition total {A} (m : M A) : Prop :=
  forall w, (m w).1 <> NoFuel.

(** The connection is untouched. *)
Definition same_conn (w w' : World) : Prop := conn w' = conn w.

(** The cursor is of the same class and bound (or not) as before. *)
Definition same_handle (w w' : World) : Prop :=
  cls (cursor w') = cls (cursor w) /\ connection (cursor w') = connection (cursor w).

(** No statement was sent. *)
Definition same_sent (w w' : World) : Prop :=
  sent (conn w') = sent (conn w).

(** The result objects that existed are untouched; new ones may exist. *)
Definition heap_extends (w w' : World) : Prop :=
  (next_object (conn w) <= next_object (conn w'))%nat /\
  forall j, (j < next_object (conn w))%nat -> objects (conn w') j = objects (conn w) j.

(** The cursor was bound to a result again; the connection is untouched. *)
Definition rebinds (w w' : World) : Prop := same_conn w w' /\ same_handle w w'.

(** Result sets were read off the wire: no statement was sent, and the
    result objects that existed are as they were. *)
Definition advances (w w' : World) : Prop :=
  same_handle w w' /\ same_sent w w' /\ heap_extends w w'.

(** What a streaming [close] does before it enters the [nextset] loop: the
    unread rows of its result are read off when that result is still the
    connection's current one.  [ready_to_drain w w0] says that this step
    returned and left the world [w0]; a buffered cursor has no such step. *)
Definition ready_to_drain (w w0 : World) : Prop :=
  if is_ss (cls (cursor w)) then
    match _result (cursor w) with
    | Some id =>
        if bool_decide (conn_result (conn w) = Some id)
        then finish_unbuffered_query id w = (Normal tt, w0)
        else w0 = w
    | None => w0 = w
    end
  else w0 = w.

(** The cursor attributes once [Cursor._do_get_result] has bound the result
    object [obj], of identity [id]. *)
Definition bound_cursor (obj : Result) (id : nat) (c : Cursor) : Cursor :=
  set_rows (map RowTuple <$> rows obj)
    (set_lastrowid (Some (insert_id obj))
       (set_description (r_description obj)
          (set_rowcount (affected_rows obj)
             (set_result (Some id) (set_rownumber 0 c))))).

(** The same for whichever class the cursor has: the dict classes also
    compute the name list and convert the materialised rows. *)
Definition rebound_cursor (obj : Result) (id : nat) (c : Cursor) : Cursor :=
  let c1 := bound_cursor obj id c in
  if is_dict (cls c) then
    if truthy_seq (r_description obj) then
      let names := dict_field_names (fields obj) [] in
      let c2 := set_fields (Some names) c1 in
      match names, rows obj with
      | _ :: _, Some (x :: xs) =>
          set_rows (Some (dict_row names <$> (RowTuple <$> x :: xs))) c2
      | _, _ => c2
      end
    else c1
  else c1.

(** The warnings surfaced while binding [obj]. *)
Definition surfaced (obj : Result) (cn : Connection) : list string :=
  if 0 <? warning_count obj then w_message <$> pending_warnings cn else [].

(** The statements of [callproc], in the order in which they are sent: one
    assignment per argument, then the call. *)
Definition callproc_statements `{Environment} (procname : string)
    (args : list Value) : list pystr :=
  imap (set_statement procname) args ++ [call_statement procname (length args)].

(** The statement that carries the rendered rows [group]: the prefix, then
    the rows separated by commas. *)
Definition statement (prefix : string) (group : list string) : string :=
  prefix +:+ py_join "," group.

(** The rendered byte length of the statement respects the ceiling. *)
Definition fits (limit : Z) (prefix : string) (group : list string) : Prop :=
  str_len (statement prefix group) <= limit.

(** The batches that the loop of [_do_execute_many] forms, in order: [cur]
    holds the rows of the statement under construction, [vs] the rows still
    to come; a row that would push the statement past the ceiling closes the
    batch and opens the next one. *)
Fixpoint greedy (limit : Z) (prefix : string) (cur vs : list string)
    : list (list string) :=
  match vs with
  | [] => [cur]
  | v :: vs' =>
      if limit <? str_len (statement prefix cur) + str_len v + 1
      then cur :: greedy limit prefix [v] vs'
      else greedy limit prefix (cur ++ [v]) vs'
  end.



(** A row as [_do_execute_many] renders it: the template formatted with the
    escaped arguments, as bytes. *)
Definition render `{Environment} (values : pystr) (arg : PyArgs) : exn + string :=
  match py_format values (_escape_args arg) with
  | inl e => inl e
  | inr v => inr (to_bytes v)
  end.

(** The statement text that [execute(query, args)] hands to [_query]. *)
Definition formatted `{Environment} (query : pystr) (args : option PyArgs)
    : exn + pystr :=
  let query := if PY2 then ensure_bytes query else query in
  let args := if PY2 then ensure_bytes_args <$> args else args in
  match args with
  | Some a => py_format query (_escape_args a)
  | None => inr query
  end.

(** An answer without result set that reports [k] affected rows and
    announces nothing more. *)
Definition ok_reply (k : Z) (rp : Reply) : Prop :=
  reply_affected_rows rp = k /\ reply_has_next rp = false /\ reply_rows rp = None.

(** The result object the transport makes of such an answer. *)
Definition ok_result (rp : Reply) : Result :=
  {| affected_rows := reply_affected_rows rp;
     r_description := reply_description rp;
     fields := reply_fields rp;
     insert_id := reply_insert_id rp;
     warning_count := py_len (reply_warnings rp);
     has_next := reply_has_next rp;
     rows := None; unbuffered_active := false; unread := [] |}.

(** What [_do_execute_many] still does once [sql] holds the statement under
    construction: the rest of the loop, the last [execute], and the row
    count. *)
Definition run_batches `{Environment} (prefix : string) (values : pystr)
    (args : list PyArgs) (max_stmt_length : Z) (sql : string) (rows : Z) : M Z :=
  do st <- execute_many_loop prefix values args max_stmt_length sql rows;
  do n <- execute (Bytes st.1) None;
  modify_cursor (set_rowcount (st.2 + n)) ;;
  ret (st.2 + n).

(** The cursor is open and has no result set left to advance to. *)
Definition idle (w : World) : Prop := nextset w = (Normal false, w).

(** The outcome of a call that raises [ProgrammingError] and touches
    nothing. *)
Definition refused {A} (msg : string) (w : World) : outcome A * World :=
  (Raised (ProgrammingError msg), w).

(** The row pointer lies within the materialised rows, or at their end. *)
Definition pointer_in_range (w : World) : Prop :=
  0 <= rownumber (cursor w)
  /\ forall rs, _rows (cursor w) = Some rs -> rownumber (cursor w) <= py_len rs.

(** The world once the cursor has advanced to the result object [res] made
    from the announced answer [rp], with [rest] still announced. *)
Definition advanced (rp : Reply) (rest : list ServerReply) (res : Result)
    (w : World) : World :=
  let cn := install res (reply_warnings rp) rest (conn w) in
  {| cursor := rebound_cursor res (next_object (conn w)) (cursor w);
     conn := cn;
     warned := warned w ++ surfaced res cn |}.

(** A buffered cursor that has just called a procedure: the first result
    set is bound and a second one is announced. *)
Definition called_world : World :=
  after (execute (env := sample_env) (Text "CALL p()") None) (fresh_world ClsCursor).

(** The rows carried by a run of packets. *)
Definition packet_rows (ps : list Packet) : list Row :=
  omap (fun p => match p with RowData r => Some r | ErrPacket _ => None end) ps.

(** A row read off the wire as a cursor with the class and the name list of
    [c] hands it out: the tuple, or for the dict classes the record built
    from it. *)
Definition delivered (c : Cursor) (r : Row) : PyRow :=
  if is_dict (cls c) then
    match _fields c with
    | Some names => dict_row names (RowTuple r)
    | None => RowTuple r
    end
  else RowTuple r.

(** The world in which the streaming result [id] has [rest] left on the
    wire. *)
Definition stream_at (id : nat) (rest : list Packet) (active : bool)
    (w : World) : World :=
  with_conn (set_object id (set_unread rest active (objects (conn w) id))) w.

(** A buffered cursor that has just run an [INSERT]: there is no result
    set. *)
Definition inserted_world : World :=
  after (execute (env := sample_env) (Text "INSERT INTO t (a) VALUES (1)") None)
    (fresh_world ClsCursor).

(** A buffered cursor that was closed after its [SELECT]. *)
Definition closed_world : World := after close (selected_world ClsCursor).

(** A packet that carries a row. *)
Definition is_row_data (p : Packet) : bool :=
  match p with RowData _ => true | ErrPacket _ => false end.

(** The rows read by the cursor can be converted: a dict cursor has its name
    list. *)
Definition conv_ready (w : World) : Prop :=
  is_dict (cls (cursor w)) = true -> _fields (cursor w) <> None.

(** The world once the statement [q] has been sent, the server has answered
    with [rp] (and announced [rest]), and the cursor has bound the result
    object [res] made from the answer. *)
Definition answered (q : pystr) (rp : Reply) (rest : list ServerReply)
    (res : Result) (w : World) : World :=
  let cn := install res (reply_warnings rp) rest
              (set_sent (q :: sent (conn w)) (conn w)) in
  {| cursor := rebound_cursor res (next_object (conn w))
                 (set_last_executed (Some q) (cursor w));
     conn := cn;
     warned := warned w ++ surfaced res cn |}.

Section Properties.

Context {env : Environment}.


Lemma bind_normal {A B} (m : M A) (k : A -> M B) (w w' : World) (b : B) :
  bind m k w = (Normal b, w') ->
  exists a w1, m w = (Normal a, w1) /\ k a w1 = (Normal b, w').
Proof.
  unfold bind. destruct (m w) as [[a|e|] w1]; intros H; try discriminate.
  exists a, w1. split; [reflexivity | exact H].
Qed.

Lemma check_executed_ok (w : World) :
  executed w -> _check_executed w = (Normal tt, w).
Proof.
  unfold executed, _check_executed, bind, get_cursor. intros ->. reflexivity.
Qed.

(** *** Frame reasoning

    [preserves R m]: whatever [m] does and however it ends, the world it
    leaves is related by [R] to the world it started from. *)

Lemma preserves_ret {A} (R : relation World) `{!Reflexive R} (a : A) :
  preserves R (ret a).
Proof. intros w. apply reflexivity. Qed.

Lemma preserves_raise {A} (R : relation World) `{!Reflexive R} (e : exn) :
  preserves R (raise (A := A) e).
Proof. intros w. apply reflexivity. Qed.

Lemma preserves_lift {A} (R : relation World) `{!Reflexive R} (r : exn + A) :
  preserves R (lift r).
Proof. destruct r; [apply preserves_raise | apply preserves_ret]; assumption. Qed.

Lemma preserves_get_cursor (R : relation World) `{!Reflexive R} :
  preserves R get_cursor.
Proof. intros w. apply reflexivity. Qed.

Lemma preserves_get_conn (R : relation World) `{!Reflexive R} :
  preserves R get_conn.
Proof. intros w. apply reflexivity. Qed.

Lemma preserves_bind {A B} (R : relation World) `{!Transitive R}
    (m : M A) (k : A -> M B) :
  preserves R m -> (forall a, preserves R (k a)) -> preserves R (bind m k).
Proof.
  intros Hm Hk w. unfold bind. specialize (Hm w).
  destruct (m w) as [[a|e|] w1]; simpl in *; try assumption.
  etransitivity; [exact Hm | apply Hk].
Qed.

Lemma preserves_try_finally {A} (R : relation World) `{!Transitive R}
    (body : M A) (handler : M unit) :
  preserves R body -> preserves R handler -> preserves R (try_finally body handler).
Proof.
  intros Hb Hh w. unfold try_finally. specialize (Hb w).
  destruct (body w) as [[a|e|] w1]; simpl in *; try assumption;
    specialize (Hh w1); destruct (handler w1) as [[[]|e'|] w2]; simpl in *;
    etransitivity; eassumption.
Qed.

Lemma preserves_for_each {A} (R : relation World) `{!PreOrder R}
    (xs : list A) (body : A -> M unit) :
  (forall x, preserves R (body x)) -> preserves R (for_each xs body).
Proof.
  intros Hb. induction xs as [|x xs IH]; simpl.
  - apply preserves_ret; apply _.
  - apply preserves_bind; [apply _ | apply Hb | intros _; exact IH].
Qed.

(** [total m]: [m] never stops for lack of fuel. *)
Lemma total_ret {A} (a : A) : total (ret a).
Proof. intros w; discriminate. Qed.

Lemma total_raise {A} (e : exn) : total (raise (A := A) e).
Proof. intros w; discriminate. Qed.

Lemma total_lift {A} (r : exn + A) : total (lift r).
Proof. destruct r; [apply total_raise | apply total_ret]. Qed.

Lemma total_bind {A B} (m : M A) (k : A -> M B) :
  total m -> (forall a, total (k a)) -> total (bind m k).
Proof.
  intros Hm Hk w. unfold bind. specialize (Hm w).
  destruct (m w) as [[a|e|] w1]; simpl in *; try discriminate.
  - apply Hk.
  - congruence.
Qed.

Lemma total_try_finally {A} (body : M A) (handler : M unit) :
  total body -> total handler -> total (try_finally body handler).
Proof.
  intros Hb Hh w. unfold try_finally. specialize (Hb w).
  destruct (body w) as [[a|e|] w1]; simpl in *; try congruence;
    specialize (Hh w1); destruct (handler w1) as [[[]|e'|] w2]; simpl in *;
    congruence.
Qed.

Lemma total_for_each {A} (xs : list A) (body : A -> M unit) :
  (forall x, total (body x)) -> total (for_each xs body).
Proof.
  intros Hb. induction xs as [|x xs IH]; simpl.
  - apply total_ret.
  - apply total_bind; [apply Hb | intros _; exact IH].
Qed.

#[local] Instance same_conn_preorder : PreOrder same_conn.
Proof. split; [intros w; reflexivity | intros a b c H1 H2; unfold same_conn in *; congruence]. Qed.

#[local] Instance same_handle_preorder : PreOrder same_handle.
Proof.
  split; [intros w; split; reflexivity|].
  intros a b c [H1 H2] [H3 H4]; split; congruence.
Qed.

#[local] Instance same_sent_preorder : PreOrder same_sent.
Proof. split; [intros w; reflexivity | intros a b c H1 H2; unfold same_sent in *; congruence]. Qed.

#[local] Instance heap_extends_preorder : PreOrder heap_extends.
Proof.
  split; [intros w; split; [lia | reflexivity]|].
  intros a b c [H1 H2] [H3 H4]; split; [lia|].
  intros j Hj. rewrite H4 by lia. apply H2, Hj.
Qed.

Lemma preserves_modify_cursor_conn (f : Cursor -> Cursor) :
  preserves same_conn (modify_cursor f).
Proof. intros w. reflexivity. Qed.

Lemma preserves_warn_conn (msg : string) : preserves same_conn (warn msg).
Proof. intros w. reflexivity. Qed.

Lemma same_conn_sent : subrelation same_conn same_sent.
Proof. intros w w' H. unfold same_sent. rewrite H. reflexivity. Qed.

Lemma same_conn_heap : subrelation same_conn heap_extends.
Proof. intros w w' H. unfold heap_extends. rewrite H. split; [lia | reflexivity]. Qed.

Lemma preserves_weaken {A} (R R' : relation World) (m : M A) :
  subrelation R R' -> preserves R m -> preserves R' m.
Proof. intros HR Hm w. apply HR, Hm. Qed.

#[local] Instance rebinds_preorder : PreOrder rebinds.
Proof.
  split.
  - intros w; split; reflexivity.
  - intros a b c [H1 H2] [H3 H4]; split; etransitivity; eassumption.
Qed.

#[local] Instance advances_preorder : PreOrder advances.
Proof.
  split.
  - intros w; split; [|split]; reflexivity.
  - intros a b c (H1 & H2 & H3) (H4 & H5 & H6).
    split; [|split]; etransitivity; eassumption.
Qed.

Lemma rebinds_advances : subrelation rebinds advances.
Proof.
  intros w w' [H1 H2]. split; [exact H2|]. split.
  - apply same_conn_sent, H1.
  - apply same_conn_heap, H1.
Qed.

Ltac frame_now :=
  solve [ simpl; discriminate
        | hnf; simpl; repeat split; try reflexivity; auto; lia ].

Ltac frame_leaf := intros ?; frame_now.

Ltac frame_step :=
  first
    [ assumption
    | match goal with
      | H : context [preserves] |- preserves _ _ => apply H
      | H : context [total] |- total _ => apply H
      end
    | apply preserves_bind; [apply _ | | intros ?]
    | apply total_bind; [ | intros ?]
    | apply preserves_ret; apply _
    | apply preserves_raise; apply _
    | apply preserves_lift; apply _
    | apply preserves_get_cursor; apply _
    | apply preserves_get_conn; apply _
    | apply preserves_try_finally; [apply _ | | ]
    | apply preserves_for_each; [apply _ | intros ?]
    | apply total_ret | apply total_raise | apply total_lift
    | apply total_try_finally
    | apply total_for_each; intros ?
    | match goal with
      | |- preserves _ (match ?x with _ => _ end) => destruct x
      | |- total (match ?x with _ => _ end) => destruct x
      end
    | frame_leaf ].

Ltac frame := repeat frame_step.

Lemma get_db_preserves (R : relation World) `{!PreOrder R} : preserves R _get_db.
Proof. unfold _get_db. frame. Qed.

Lemma get_db_total : total _get_db.
Proof. unfold _get_db. frame. Qed.

Lemma check_executed_preserves (R : relation World) `{!PreOrder R} :
  preserves R _check_executed.
Proof. unfold _check_executed. frame. Qed.

Lemma show_warnings_rebinds : preserves rebinds _show_warnings.
Proof. unfold _show_warnings, conn_show_warnings. frame. Qed.

Lemma show_warnings_total : total _show_warnings.
Proof. unfold _show_warnings, conn_show_warnings. frame. Qed.

Lemma Cursor_do_get_result_rebinds : preserves rebinds Cursor_do_get_result.
Proof.
  unfold Cursor_do_get_result.
  pose proof show_warnings_rebinds. pose proof (get_db_preserves rebinds).
  frame.
Qed.

Lemma Cursor_do_get_result_total : total Cursor_do_get_result.
Proof.
  unfold Cursor_do_get_result.
  pose proof show_warnings_total. pose proof get_db_total.
  frame.
Qed.

Lemma conv_row_rebinds (row : option PyRow) : preserves rebinds (_conv_row row).
Proof. unfold _conv_row, DictCursorMixin_conv_row, Cursor_conv_row. frame. Qed.

Lemma conv_row_total (row : option PyRow) : total (_conv_row row).
Proof. unfold _conv_row, DictCursorMixin_conv_row, Cursor_conv_row. frame. Qed.

Lemma conv_rows_rebinds (rs : list PyRow) : preserves rebinds (conv_rows rs).
Proof.
  induction rs as [|r rs IH]; simpl; [frame|].
  pose proof (conv_row_rebinds (Some r)). frame.
Qed.

Lemma conv_rows_total (rs : list PyRow) : total (conv_rows rs).
Proof.
  induction rs as [|r rs IH]; simpl; [frame|].
  pose proof (conv_row_total (Some r)). frame.
Qed.

Lemma do_get_result_rebinds : preserves rebinds _do_get_result.
Proof.
  unfold _do_get_result, DictCursorMixin_do_get_result.
  pose proof Cursor_do_get_result_rebinds. pose proof conv_rows_rebinds.
  frame.
Qed.

Lemma do_get_result_total : total _do_get_result.
Proof.
  unfold _do_get_result, DictCursorMixin_do_get_result.
  pose proof Cursor_do_get_result_total. pose proof conv_rows_total.
  frame.
Qed.

Lemma receive_advances (unbuffered : bool) (replies : list ServerReply) :
  preserves advances (receive unbuffered replies).
Proof.
  intros w. unfold receive.
  destruct replies as [|[r|e] rest]; [frame_now | | frame_now].
  destruct (build_result unbuffered r); [frame_now|].
  split; [split; reflexivity|]. split; [reflexivity|]. split; simpl; [lia|].
  intros j Hj. destruct (Nat.eqb_spec j (next_object (conn w))); [lia | reflexivity].
Qed.

Lemma receive_total (unbuffered : bool) (replies : list ServerReply) :
  total (receive unbuffered replies).
Proof.
  intros w. unfold receive.
  destruct replies as [|[r|e] rest]; try discriminate.
  destruct (build_result unbuffered r); discriminate.
Qed.

Lemma next_result_advances (unbuffered : bool) :
  preserves advances (conn_next_result unbuffered).
Proof. intros w. unfold conn_next_result. apply receive_advances. Qed.

Lemma next_result_total (unbuffered : bool) : total (conn_next_result unbuffered).
Proof. intros w. unfold conn_next_result. apply receive_total. Qed.

Lemma do_get_result_advances : preserves advances _do_get_result.
Proof. apply (preserves_weaken rebinds); [apply rebinds_advances | apply do_get_result_rebinds]. Qed.

Lemma nextset_advances : preserves advances nextset.
Proof.
  unfold nextset, _nextset.
  pose proof next_result_advances. pose proof do_get_result_advances.
  pose proof (get_db_preserves advances).
  frame.
Qed.

Lemma nextset_total : total nextset.
Proof.
  unfold nextset, _nextset.
  pose proof next_result_total. pose proof do_get_result_total.
  pose proof get_db_total.
  frame.
Qed.

Lemma while_nextset_advances (fuel : nat) : preserves advances (while_nextset fuel).
Proof.
  induction fuel as [|n IH]; simpl; [frame_leaf|].
  pose proof nextset_advances. frame.
Qed.

Lemma drain_result_sets_advances : preserves advances drain_result_sets.
Proof. intros w. unfold drain_result_sets. apply while_nextset_advances. Qed.

(** *** The [nextset] loop *)

Lemma get_db_normal (w w' : World) (r : ConnRef) :
  _get_db w = (Normal r, w') -> w' = w /\ connection (cursor w) = Some r.
Proof.
  unfold _get_db, bind, get_cursor. destruct (connection (cursor w)); simpl.
  - intros H; injection H as <- <-. split; reflexivity.
  - discriminate.
Qed.

Lemma get_db_bound (w : World) (r : ConnRef) :
  connection (cursor w) = Some r -> _get_db w = (Normal r, w).
Proof. intros H. unfold _get_db, bind, get_cursor. rewrite H. reflexivity. Qed.

Lemma receive_normal (unbuffered : bool) (replies : list ServerReply) (w w' : World) :
  receive unbuffered replies w = (Normal tt, w') ->
  exists r rest res,
    replies = Answers r :: rest /\ build_result unbuffered r = inr res /\
    w' = with_conn (install res (reply_warnings r) rest) w.
Proof.
  unfold receive. destruct replies as [|[r|e] rest]; try discriminate.
  destruct (build_result unbuffered r) as [e|res] eqn:E; try discriminate.
  intros H; injection H as <-. exists r, rest, res. auto.
Qed.

(** A round of the loop that goes on has read one announced result set. *)
Lemma nextset_true_consumes (w w' : World) :
  nextset w = (Normal true, w') ->
  length (incoming (conn w)) = S (length (incoming (conn w'))).
Proof.
  unfold nextset, _nextset. intros H.
  apply bind_normal in H as (c & w1 & Hc & H). injection Hc as <- <-.
  apply bind_normal in H as (r & w1 & Hdb & H).
  apply get_db_normal in Hdb as [-> _].
  apply bind_normal in H as (c & w1 & Hc & H). injection Hc as <- <-.
  apply bind_normal in H as (cn & w1 & Hc & H). injection Hc as <- <-.
  destruct (_result (cursor w)) as [id|]; [|discriminate].
  destruct (negb (bool_decide (conn_result (conn w) = Some id))); [discriminate|].
  destruct (negb (has_next (objects (conn w) id))); [discriminate|].
  apply bind_normal in H as ([] & w1 & Hrecv & H).
  apply bind_normal in H as ([] & w2 & Hget & H). injection H as <-.
  apply receive_normal in Hrecv as (rp & rest & res & Hin & _ & ->).
  pose proof (do_get_result_rebinds (with_conn (install res (reply_warnings rp) rest) w)) as [Hconn _].
  rewrite Hget in Hconn. simpl in Hconn. unfold same_conn in Hconn.
  rewrite Hconn, Hin. reflexivity.
Qed.

(** A round that stops the loop has changed nothing. *)
Lemma nextset_false_unchanged (w w' : World) :
  nextset w = (Normal false, w') -> w' = w.
Proof.
  unfold nextset, _nextset. intros H.
  apply bind_normal in H as (c & w1 & Hc & H). injection Hc as <- <-.
  apply bind_normal in H as (r & w1 & Hdb & H).
  apply get_db_normal in Hdb as [-> _].
  apply bind_normal in H as (c & w1 & Hc & H). injection Hc as <- <-.
  apply bind_normal in H as (cn & w1 & Hc & H). injection Hc as <- <-.
  destruct (_result (cursor w)) as [id|]; [|injection H as <-; reflexivity].
  destruct (negb (bool_decide (conn_result (conn w) = Some id)));
    [injection H as <-; reflexivity|].
  destruct (negb (has_next (objects (conn w) id)));
    [injection H as <-; reflexivity|].
  apply bind_normal in H as ([] & w1 & _ & H).
  apply bind_normal in H as ([] & w2 & _ & H). discriminate.
Qed.

(** With more fuel than announced result sets the loop comes to an end. *)
Lemma while_nextset_enough_fuel (fuel : nat) (w : World) :
  (length (incoming (conn w)) < fuel)%nat -> (while_nextset fuel w).1 <> NoFuel.
Proof.
  revert w. induction fuel as [|n IH]; intros w Hlen; [lia|].
  simpl. unfold bind. pose proof (nextset_total w) as Ht.
  destruct (nextset w) as [[[]|e|] w1] eqn:E; simpl in *; try discriminate.
  - apply IH. apply nextset_true_consumes in E. lia.
  - congruence.
Qed.

Lemma drain_result_sets_total : total drain_result_sets.
Proof. intros w. unfold drain_result_sets. apply while_nextset_enough_fuel. lia. Qed.

(** When the loop ends normally, the last round found nothing to advance
    to. *)
Lemma while_nextset_normal (fuel : nat) (w w' : World) :
  while_nextset fuel w = (Normal tt, w') -> nextset w' = (Normal false, w').
Proof.
  revert w. induction fuel as [|n IH]; intros w H; [discriminate|].
  simpl in H. apply bind_normal in H as ([] & w1 & Hn & H).
  - eapply IH, H.
  - injection H as <-. pose proof (nextset_false_unchanged _ _ Hn) as ->. exact Hn.
Qed.

(** A cursor whose result is not the connection's current one has nothing
    to drain: the loop stops at once. *)
Lemma nextset_stale (w : World) (r : ConnRef) :
  connection (cursor w) = Some r ->
  conn_result (conn w) <> _result (cursor w) \/ _result (cursor w) = None ->
  nextset w = (Normal false, w).
Proof.
  intros Hc Hstale. unfold nextset, _nextset, bind, get_cursor.
  rewrite (get_db_bound _ _ Hc). unfold get_conn.
  destruct (_result (cursor w)) as [id|]; [|reflexivity].
  destruct Hstale as [Hne|]; [|discriminate].
  rewrite bool_decide_eq_false_2 by exact Hne. reflexivity.
Qed.

Lemma drain_stale (w : World) (r : ConnRef) :
  connection (cursor w) = Some r ->
  conn_result (conn w) <> _result (cursor w) \/ _result (cursor w) = None ->
  drain_result_sets w = (Normal tt, w).
Proof.
  intros Hc Hstale. unfold drain_result_sets. simpl. unfold bind.
  rewrite (nextset_stale _ _ Hc Hstale). reflexivity.
Qed.

(** C9. [executemany] with an empty argument sequence sends no statement,
    leaves the row count and the rest of the cursor and connection state as
    they were, and returns without error: the world is unchanged. *)
Theorem executemany_empty_is_noop (query : pystr) (w : World) :
  executemany query [] w = (Normal None, w).
Proof. reflexivity. Qed.

Lemma py_slice_length_bound {A} (l : list A) (start size : Z) :
  0 <= start -> 0 <= size ->
  py_len (py_slice l start (Some (start + size))) <= size.
Proof.
  intros Hs Hz. unfold py_slice, slice_bound, py_len.
  rewrite length_take.
  destruct (Z.ltb_spec start 0); [lia|].
  destruct (Z.ltb_spec (start + size) 0); lia.
Qed.

(** C10. At size 0 the two flavours disagree.  The buffered [fetchmany]
    treats 0 as no size at all: it does what [fetchmany()] does, which is to
    return the slice of up to [arraysize] rows at the row pointer.  The
    streaming [fetchmany(0)] reads nothing and returns the empty list.  On
    the sample result the first gives one row and the second none. *)
Theorem fetchmany_size_zero (w : World) :
  Cursor_fetchmany (Some 0) w = Cursor_fetchmany None w
  /\ (forall rs, executed w -> _rows (cursor w) = Some rs ->
       let c := cursor w in
       let result := py_slice rs (rownumber c) (Some (rownumber c + arraysize c)) in
       Cursor_fetchmany (Some 0) w =
         (Normal (Some result),
          with_cursor (set_rownumber (Z.min (rownumber c + arraysize c) (py_len rs))) w)
       /\ (0 <= rownumber c -> 0 <= arraysize c -> py_len result <= arraysize c))
  /\ SSCursor_fetchmany (Some 0) w =
       (if truthy_str (_executed (cursor w)) then Normal []
        else Raised (ProgrammingError "execute() first"), w)
  /\ (fetchmany (Some 0) (selected_world ClsCursor)).1 = Normal (Some [RowTuple [VInt 10]])
  /\ (fetchmany (Some 0) (selected_world ClsSSCursor)).1 = Normal (Some []).
Proof.
  split; [reflexivity|]. split.
  { intros rs Hex Hrows c result. split.
    - unfold Cursor_fetchmany, bind. rewrite (check_executed_ok _ Hex).
      unfold get_cursor. rewrite Hrows. reflexivity.
    - intros. apply py_slice_length_bound; assumption. }
  split.
  { unfold SSCursor_fetchmany, _check_executed, bind, get_cursor.
    destruct (truthy_str (_executed (cursor w))); reflexivity. }
  split; vm_compute; reflexivity.
Qed.

(** C4. On a buffered cursor that has executed a statement and holds the
    materialised rows [rs], [scroll] with mode relative or absolute moves the
    row pointer to the target (pointer plus [n], or [n]) when the target lies
    in [0, len rs), and otherwise raises [IndexError] and leaves the cursor as
    it was; the two outcomes differ, so the pointer reaches the target if and
    only if the target is in range.  The bound is the number of rows held,
    whatever the row count says.  Any other mode raises [ProgrammingError],
    again without touching the cursor. *)
Theorem scroll_buffered (w : World) (rs : list PyRow) (n : Z) (mode : string) :
  executed w ->
  _rows (cursor w) = Some rs ->
  let target := if String.eqb mode "relative" then rownumber (cursor w) + n else n in
  (mode = "relative" \/ mode = "absolute" ->
     (0 <= target < py_len rs ->
        Cursor_scroll n mode w = (Normal tt, with_cursor (set_rownumber target) w))
     /\ (~ (0 <= target < py_len rs) ->
        Cursor_scroll n mode w = (Raised (IndexError "out of range"), w)))
  /\ (mode <> "relative" -> mode <> "absolute" ->
      Cursor_scroll n mode w =
        (Raised (ProgrammingError ("unknown scroll mode " +:+ mode)), w)).
Proof.
  intros Hex Hrows target.
  unfold Cursor_scroll, bind. rewrite (check_executed_ok _ Hex).
  unfold get_cursor. subst target. split.
  - intros Hmode.
    assert (Hr : (if String.eqb mode "relative" then ret (rownumber (cursor w) + n)
                  else if String.eqb mode "absolute" then ret n
                  else raise (ProgrammingError ("unknown scroll mode " +:+ mode))) w
                 = (Normal (if String.eqb mode "relative"
                            then rownumber (cursor w) + n else n), w)).
    { destruct Hmode as [-> | ->]; reflexivity. }
    rewrite Hr, Hrows. split; intros Hin.
    + destruct (Z.leb_spec 0 (if String.eqb mode "relative" then rownumber (cursor w) + n else n));
        destruct (Z.ltb_spec (if String.eqb mode "relative" then rownumber (cursor w) + n else n) (py_len rs));
        try lia; reflexivity.
    + destruct (Z.leb_spec 0 (if String.eqb mode "relative" then rownumber (cursor w) + n else n));
        [ destruct (Z.ltb_spec (if String.eqb mode "relative" then rownumber (cursor w) + n else n) (py_len rs));
          try lia; reflexivity
        | reflexivity ].
  - intros H1 H2.
    apply String.eqb_neq in H1. apply String.eqb_neq in H2.
    rewrite H1, H2. reflexivity.
Qed.

(** *** Binding a result *)

Lemma for_each_warn (ws : list WarningRecord) (w : World) :
  for_each ws (fun x => warn (w_message x)) w =
    (Normal tt, {| cursor := cursor w; conn := conn w;
                   warned := warned w ++ (w_message <$> ws) |}).
Proof.
  revert w. induction ws as [|x ws IH]; intros w; simpl.
  - unfold ret. rewrite app_nil_r. destruct w; reflexivity.
  - unfold bind, warn. rewrite IH. simpl. rewrite <- app_assoc. reflexivity.
Qed.

Lemma Cursor_do_get_result_bound (w : World) (r : ConnRef) (id : nat) :
  connection (cursor w) = Some r ->
  conn_result (conn w) = Some id ->
  Cursor_do_get_result w =
    (Normal tt, {| cursor := bound_cursor (objects (conn w) id) id (cursor w);
                   conn := conn w;
                   warned := warned w ++ surfaced (objects (conn w) id) (conn w) |}).
Proof.
  intros Hc Hr. unfold Cursor_do_get_result, bind.
  rewrite (get_db_bound _ _ Hc). unfold modify_cursor, get_conn. simpl.
  rewrite Hr. simpl. unfold surfaced, bound_cursor.
  destruct (0 <? warning_count (objects (conn w) id)).
  - unfold _show_warnings, bind, conn_show_warnings. rewrite for_each_warn. reflexivity.
  - unfold ret. rewrite app_nil_r. reflexivity.
Qed.

Lemma conv_rows_dict (rs : list PyRow) (names : list string) (w : World) :
  is_dict (cls (cursor w)) = true ->
  _fields (cursor w) = Some names ->
  conv_rows rs w = (Normal (dict_row names <$> rs), w).
Proof.
  intros Hd Hf. induction rs as [|r rs IH]; [reflexivity|].
  simpl. unfold bind at 1. unfold _conv_row, bind, get_cursor.
  rewrite Hd. simpl. unfold bind, get_cursor. rewrite Hf. simpl.
  rewrite IH. reflexivity.
Qed.

(** What [_do_get_result] leaves in the cursor, for either kind of class. *)
Lemma do_get_result_bound (w : World) (r : ConnRef) (id : nat) :
  connection (cursor w) = Some r ->
  conn_result (conn w) = Some id ->
  _do_get_result w =
    (Normal tt, {| cursor := rebound_cursor (objects (conn w) id) id (cursor w);
                   conn := conn w;
                   warned := warned w ++ surfaced (objects (conn w) id) (conn w) |}).
Proof.
  intros Hc Hr. unfold _do_get_result, bind, get_cursor. unfold rebound_cursor.
  destruct (is_dict (cls (cursor w))) eqn:Hd;
    [|apply (Cursor_do_get_result_bound _ _ _ Hc Hr)].
  unfold DictCursorMixin_do_get_result, bind.
  rewrite (Cursor_do_get_result_bound _ _ _ Hc Hr). unfold get_cursor.
  cbv beta iota. cbn [cursor conn warned].
  change (description (bound_cursor (objects (conn w) id) id (cursor w)))
    with (r_description (objects (conn w) id)).
  change (_result (bound_cursor (objects (conn w) id) id (cursor w)))
    with (Some id).
  destruct (truthy_seq (r_description (objects (conn w) id))) eqn:Ht;
    [|reflexivity].
  unfold bind, get_conn, modify_cursor, ret. cbn [cursor conn warned with_cursor].
  destruct (dict_field_names (fields (objects (conn w) id)) []) as [|n ns] eqn:Hn;
    [reflexivity|].
  change (_rows (set_fields (Some (n :: ns))
                   (bound_cursor (objects (conn w) id) id (cursor w))))
    with (map RowTuple <$> rows (objects (conn w) id)).
  destruct (rows (objects (conn w) id)) as [[|x xs]|] eqn:Hrows;
    cbn [fmap option_fmap option_map map]; try reflexivity.
  erewrite (conv_rows_dict _ (n :: ns)); [reflexivity | exact Hd | reflexivity].
Qed.

Lemma rebound_cursor_facts (obj : Result) (id : nat) (c : Cursor) :
  let c' := rebound_cursor obj id c in
  rownumber c' = 0 /\ rowcount c' = affected_rows obj /\ _result c' = Some id
  /\ cls c' = cls c /\ connection c' = connection c
  /\ max_stmt_length c' = max_stmt_length c /\ _executed c' = _executed c
  /\ description c' = r_description obj.
Proof.
  unfold rebound_cursor. simpl.
  destruct (is_dict (cls c)); [|repeat split; reflexivity].
  destruct (truthy_seq (r_description obj)); [|repeat split; reflexivity].
  destruct (dict_field_names (fields obj) []); [repeat split; reflexivity|].
  destruct (rows obj) as [[|x xs]|]; repeat split; reflexivity.
Qed.

(** *** Sending a statement *)

Lemma query_answered (q : pystr) (w : World) (r : ConnRef) (rp : Reply)
    (rest : list ServerReply) (res : Result) :
  connection (cursor w) = Some r ->
  server (q :: sent (conn w)) = Answers rp :: rest ->
  build_result (is_ss (cls (cursor w))) rp = inr res ->
  _query q w = (Normal (affected_rows res), answered q rp rest res w).
Proof.
  intros Hc Hs Hb.
  assert (Hq : forall u, u = is_ss (cls (cursor w)) ->
    (_get_db ;; modify_cursor (set_last_executed (Some q)) ;; conn_query q u ;;
     _do_get_result ;; do c <- get_cursor; ret (rowcount c)) w
    = (Normal (affected_rows res), answered q rp rest res w)).
  { intros u ->. unfold bind at 1. rewrite (get_db_bound _ _ Hc).
    unfold bind at 1. unfold modify_cursor at 1.
    unfold bind at 1. unfold conn_query, receive.
    cbn [conn with_conn with_cursor sent set_sent cursor cls set_last_executed].
    rewrite Hs, Hb.
    unfold bind at 1.
    erewrite do_get_result_bound;
      [| cbn; exact Hc | cbn; reflexivity].
    cbn [conn cursor warned with_conn with_cursor install objects].
    cbn [next_object set_sent]. rewrite Nat.eqb_refl.
    unfold bind, get_cursor, ret. cbn [cursor].
    destruct (rebound_cursor_facts res (next_object (conn w))
                (set_last_executed (Some q) (cursor w))) as (_ & -> & _).
    reflexivity. }
  unfold _query, bind at 1, get_cursor.
  destruct (is_ss (cls (cursor w))) eqn:Hss; apply Hq; reflexivity.
Qed.

Lemma get_db_closed (w : World) :
  connection (cursor w) = None ->
  _get_db w = (Raised (ProgrammingError "Cursor closed"), w).
Proof. intros H. unfold _get_db, bind, get_cursor. rewrite H. reflexivity. Qed.

Lemma query_closed (q : pystr) (w : World) :
  connection (cursor w) = None ->
  _query q w = (Raised (ProgrammingError "Cursor closed"), w).
Proof.
  intros H. unfold _query, SSCursor_query, Cursor_query, bind at 1, get_cursor.
  destruct (is_ss (cls (cursor w))); unfold bind at 1;
    rewrite (get_db_closed _ H); reflexivity.
Qed.

Lemma query_unfold (q : pystr) (w : World) (r : ConnRef) :
  connection (cursor w) = Some r ->
  _query q w =
    (conn_query q (is_ss (cls (cursor w))) ;; _do_get_result ;;
     do c <- get_cursor; ret (rowcount c))
      (with_cursor (set_last_executed (Some q)) w).
Proof.
  intros Hc. unfold _query, SSCursor_query, Cursor_query, bind at 1, get_cursor.
  destruct (is_ss (cls (cursor w))); unfold bind at 1;
    rewrite (get_db_bound _ _ Hc); reflexivity.
Qed.

Lemma query_normal (q : pystr) (w w' : World) (n : Z) :
  _query q w = (Normal n, w') ->
  exists rp rest res,
    server (q :: sent (conn w)) = Answers rp :: rest
    /\ build_result (is_ss (cls (cursor w))) rp = inr res
    /\ n = affected_rows res
    /\ w' = answered q rp rest res w.
Proof.
  intros H.
  assert (Hc : exists r, connection (cursor w) = Some r).
  { destruct (connection (cursor w)) as [r|] eqn:Hr; [eauto|].
    rewrite (query_closed q w Hr) in H. discriminate. }
  destruct Hc as [r Hc].
  pose proof H as H'. rewrite (query_unfold q w r Hc) in H'.
  apply bind_normal in H' as ([] & w1 & Hq & _).
  unfold conn_query in Hq. cbn [conn with_cursor] in Hq.
  apply receive_normal in Hq as (rp & rest & res & Hs & Hb & _).
  cbn [cursor with_conn with_cursor cls set_last_executed] in Hb.
  rewrite (query_answered q w r rp rest res Hc Hs Hb) in H.
  injection H as <- <-. exists rp, rest, res. auto.
Qed.

Lemma answered_facts (q : pystr) (rp : Reply) (rest : list ServerReply)
    (res : Result) (w : World) :
  let w' := answered q rp rest res w in
  rownumber (cursor w') = 0
  /\ rowcount (cursor w') = affected_rows res
  /\ _result (cursor w') = Some (next_object (conn w))
  /\ conn_result (conn w') = Some (next_object (conn w))
  /\ objects (conn w') (next_object (conn w)) = res
  /\ sent (conn w') = q :: sent (conn w)
  /\ incoming (conn w') = rest
  /\ cls (cursor w') = cls (cursor w)
  /\ connection (cursor w') = connection (cursor w)
  /\ max_stmt_length (cursor w') = max_stmt_length (cursor w).
Proof.
  unfold answered. cbn [cursor conn].
  destruct (rebound_cursor_facts res (next_object (conn w))
              (set_last_executed (Some q) (cursor w)))
    as (H1 & H2 & H3 & H4 & H5 & H6 & _).
  cbn [install conn_result objects sent incoming set_sent].
  rewrite Nat.eqb_refl. repeat split; assumption.
Qed.

(** A successful [execute] leaves the row pointer at 0 and returns the row
    count it has just bound. *)
Lemma execute_normal (query : pystr) (args : option PyArgs) (w w' : World) (n : Z) :
  execute query args w = (Normal n, w') ->
  rownumber (cursor w') = 0 /\ rowcount (cursor w') = n
  /\ exists q, _executed (cursor w') = Some q.
Proof.
  unfold execute. intros H.
  apply bind_normal in H as (r & w1 & _ & H).
  apply bind_normal in H as ([] & w2 & _ & H).
  apply bind_normal in H as (q & w3 & _ & H).
  apply bind_normal in H as (m & w4 & Hq & H).
  apply bind_normal in H as ([] & w5 & Hm & H).
  injection Hm as <-. injection H as <- <-.
  apply query_normal in Hq as (rp & rest & res & _ & _ & -> & ->).
  destruct (answered_facts q rp rest res w3) as (H1 & H2 & _).
  cbn. split; [exact H1|]. split; [exact H2|]. eauto.
Qed.

(** *** Closing *)

Lemma try_finally_clear (body : M unit) (f : Cursor -> Cursor) (w w1 : World)
    (o : outcome unit) :
  body w = (o, w1) -> o <> NoFuel ->
  try_finally body (modify_cursor f) w = (o, with_cursor f w1).
Proof.
  intros Hb Ho. unfold try_finally, modify_cursor. rewrite Hb.
  destruct o as [[]|e|]; [reflexivity | reflexivity | congruence].
Qed.


Lemma close_unfold (w w0 : World) :
  connection (cursor w) <> None ->
  ready_to_drain w w0 ->
  close w = try_finally drain_result_sets (modify_cursor (set_connection None)) w0.
Proof.
  intros Hc Hready. unfold ready_to_drain in Hready.
  destruct (connection (cursor w)) as [r|] eqn:Hr; [|congruence].
  unfold close, SSCursor_close, Cursor_close, bind, get_cursor, get_conn.
  destruct (is_ss (cls (cursor w))); cbv beta iota; rewrite Hr;
    [|subst w0; reflexivity].
  destruct (_result (cursor w)) as [id|]; [|subst w0; reflexivity].
  destruct (bool_decide (conn_result (conn w) = Some id)); [|subst w0; reflexivity].
  rewrite Hready. reflexivity.
Qed.

(** An open cursor that has reached the [nextset] loop of [close]. *)
Lemma close_open (w w0 : World) :
  connection (cursor w) <> None ->
  ready_to_drain w w0 ->
  exists o w1,
    drain_result_sets w0 = (o, w1)
    /\ o <> NoFuel
    /\ close w = (o, with_cursor (set_connection None) w1)
    /\ (o = Normal tt -> nextset w1 = (Normal false, w1)).
Proof.
  intros Hc Hready.
  destruct (drain_result_sets w0) as [o w1] eqn:Hd.
  exists o, w1. split; [reflexivity|].
  assert (Ho : o <> NoFuel).
  { pose proof (drain_result_sets_total w0) as Ht. rewrite Hd in Ht. exact Ht. }
  split; [exact Ho|]. split.
  - rewrite (close_unfold w w0 Hc Hready). apply try_finally_clear; assumption.
  - intros ->. unfold drain_result_sets in Hd. eapply while_nextset_normal, Hd.
Qed.


Lemma finish_clean (id : nat) (w : World) :
  (drain_packets (unread (objects (conn w) id))).1 = None ->
  exists w0,
    finish_unbuffered_query id w = (Normal tt, w0)
    /\ cursor w0 = cursor w
    /\ next_object (conn w0) = next_object (conn w)
    /\ unbuffered_active (objects (conn w0) id) = false
    /\ (unbuffered_active (objects (conn w) id) = true ->
        unread (objects (conn w0) id) = []).
Proof.
  intros Hd. unfold finish_unbuffered_query.
  destruct (unbuffered_active (objects (conn w) id)) eqn:Ha; simpl.
  - destruct (drain_packets (unread (objects (conn w) id))) as [[e|] rest];
      [discriminate|].
    eexists. split; [reflexivity|]. simpl. rewrite Nat.eqb_refl. simpl. auto.
  - exists w. rewrite Ha. repeat split; auto. discriminate.
Qed.

(** C3.  Take a streaming cursor that is open and bound to a result.  When
    that result is still the connection's current result and its unread wire
    data can be read, [close] reads all of it off the wire: afterwards the
    result is no longer active and none of its packets is unread, and the
    connection reference is cleared.  The reading comes first: when it
    raises, [close] raises with the reference still in place.  When the
    result is no longer current, [close] touches neither that result nor
    anything else of the connection; it only clears the reference. *)
Theorem sscursor_close_drains_current (w : World) (id : nat) :
  is_ss (cls (cursor w)) = true ->
  connection (cursor w) <> None ->
  _result (cursor w) = Some id ->
  (id < next_object (conn w))%nat ->
  (conn_result (conn w) = Some id ->
   (drain_packets (unread (objects (conn w) id))).1 = None ->
     exists o w',
       close w = (o, w') /\ o <> NoFuel
       /\ connection (cursor w') = None
       /\ unbuffered_active (objects (conn w') id) = false
       /\ (unbuffered_active (objects (conn w) id) = true ->
           unread (objects (conn w') id) = []))
  /\ (forall e,
      conn_result (conn w) = Some id ->
      unbuffered_active (objects (conn w) id) = true ->
      (drain_packets (unread (objects (conn w) id))).1 = Some e ->
        (close w).1 = Raised e
        /\ connection (cursor (close w).2) = connection (cursor w))
  /\ (conn_result (conn w) <> Some id ->
        close w = (Normal tt, with_cursor (set_connection None) w)).
Proof.
  intros Hss Hc Hres Hid. split; [|split].
  - intros Hcur Hclean.
    destruct (finish_clean id w Hclean) as (w0 & Hfin & Hcw & Hnext & Hact & Hun).
    assert (Hready : ready_to_drain w w0).
    { unfold ready_to_drain. rewrite Hss, Hres, bool_decide_eq_true_2 by exact Hcur.
      exact Hfin. }
    destruct (close_open w w0 Hc Hready) as (o & w1 & Hd & Ho & Hclose & _).
    exists o, (with_cursor (set_connection None) w1).
    split; [exact Hclose|]. split; [exact Ho|]. split; [reflexivity|].
    pose proof (drain_result_sets_advances w0) as (_ & _ & _ & Hheap).
    rewrite Hd in Hheap. simpl in *. rewrite Hheap by lia. auto.
  - intros e Hcur Hact Hd.
    destruct (connection (cursor w)) as [r|] eqn:Hr; [|congruence].
    unfold close, SSCursor_close, bind, get_cursor, get_conn. cbv beta iota.
    rewrite Hss. cbv beta iota.
    rewrite Hr, Hres, bool_decide_eq_true_2 by exact Hcur.
    unfold finish_unbuffered_query. rewrite Hact. simpl.
    destruct (drain_packets (unread (objects (conn w) id))) as [[e'|] rest];
      [|discriminate].
    simpl in Hd. injection Hd as ->. simpl. auto.
  - intros Hstale.
    assert (Hready : ready_to_drain w w).
    { unfold ready_to_drain. rewrite Hss, Hres, bool_decide_eq_false_2 by exact Hstale.
      reflexivity. }
    rewrite (close_unfold w w Hc Hready).
    destruct (connection (cursor w)) as [r|] eqn:Hr; [|congruence].
    apply try_finally_clear; [|discriminate].
    apply (drain_stale w r Hr). left. rewrite Hres. exact Hstale.
Qed.

Lemma py_slice_from_end {A} (l : list A) : py_slice l (py_len l) None = [].
Proof.
  unfold py_slice, slice_bound, py_len.
  destruct (Z.ltb_spec (Z.of_nat (length l)) 0); [lia|].
  rewrite Z.min_id, Z.sub_diag. reflexivity.
Qed.

(** C5. Right after a successful [execute] on a buffered cursor that holds
    the materialised rows, with the row count equal to their number, the row
    pointer is 0 and [fetchall] returns exactly these rows, all of them and in
    order, and moves the pointer to the row count; from there [fetchone]
    returns [None] and [fetchall] returns no rows, and neither moves the
    pointer. *)
Theorem fetchall_after_execute (query : pystr) (args : option PyArgs)
    (w0 w : World) (n : Z) (rs : list PyRow) :
  execute query args w0 = (Normal n, w) ->
  executed w ->
  _rows (cursor w) = Some rs ->
  rowcount (cursor w) = py_len rs ->
  let w1 := with_cursor (set_rownumber (rowcount (cursor w))) w in
  rownumber (cursor w) = 0
  /\ Cursor_fetchall w = (Normal (Some rs), w1)
  /\ py_len rs = rowcount (cursor w)
  /\ rownumber (cursor w1) = rowcount (cursor w1)
  /\ Cursor_fetchone w1 = (Normal None, w1)
  /\ Cursor_fetchall w1 = (Normal (Some []), w1).
Proof.
  intros Hexec Hex Hrows Hcount w1.
  destruct (execute_normal _ _ _ _ _ Hexec) as (Hzero & _ & _).
  assert (Hex1 : executed w1) by exact Hex.
  split; [exact Hzero|]. split.
  { unfold Cursor_fetchall, bind. rewrite (check_executed_ok _ Hex).
    unfold get_cursor. rewrite Hrows, Hzero. simpl.
    unfold modify_cursor, bind, ret. subst w1. rewrite Hcount. reflexivity. }
  split; [symmetry; exact Hcount|]. split; [reflexivity|]. split.
  - unfold Cursor_fetchone, bind. rewrite (check_executed_ok _ Hex1).
    unfold get_cursor. subst w1. cbn [cursor with_cursor _rows set_rownumber rownumber].
    rewrite Hrows, Hcount, Z.leb_refl. reflexivity.
  - unfold Cursor_fetchall, bind. rewrite (check_executed_ok _ Hex1).
    unfold get_cursor. subst w1. cbn [cursor with_cursor _rows set_rownumber rownumber].
    rewrite Hrows, Hcount. unfold modify_cursor, ret.
    destruct (Z.eqb_spec (py_len rs) 0) as [Hz|Hz].
    + destruct rs; [reflexivity | discriminate].
    + rewrite py_slice_from_end. reflexivity.
Qed.

(** *** Reading a streaming result *)

Lemma conv_row_ready (w : World) (row : option PyRow) :
  conv_ready w -> exists row', _conv_row row w = (Normal row', w)
                               /\ (row = None <-> row' = None).
Proof.
  intros Hready. unfold _conv_row, bind, get_cursor, Cursor_conv_row.
  destruct (is_dict (cls (cursor w))) eqn:Hd.
  - destruct row as [r|]; simpl.
    + unfold bind, get_cursor. destruct (_fields (cursor w)) as [names|] eqn:Hf.
      * eexists; split; [reflexivity|]. split; discriminate.
      * exfalso. apply (Hready Hd). exact Hf.
    + exists None. split; [reflexivity|]. tauto.
  - exists row. split; [reflexivity|]. tauto.
Qed.

(** Reading [n] times from an active stream whose next [n] packets (or all
    that remain, if fewer) are rows drops these packets and nothing else. *)
Lemma read_and_drop_rows (n : nat) (w : World) (id : nat) :
  _result (cursor w) = Some id ->
  conv_ready w ->
  (unbuffered_active (objects (conn w) id) = true
   \/ unread (objects (conn w) id) = []) ->
  forallb is_row_data (take n (unread (objects (conn w) id))) = true ->
  exists w',
    read_and_drop n w = (Normal tt, w')
    /\ cursor w' = cursor w
    /\ sent (conn w') = sent (conn w)
    /\ unread (objects (conn w') id) = drop n (unread (objects (conn w) id)).
Proof.
  revert w. induction n as [|n IH]; intros w Hres Hready Hact Hrows.
  { exists w. simpl. rewrite drop_0. auto. }
  simpl. unfold bind at 1. unfold read_next, bind at 1, get_cursor. rewrite Hres.
  unfold bind at 1. unfold read_rowdata_packet_unbuffered.
  destruct (unbuffered_active (objects (conn w) id)) eqn:Ha; simpl negb; cbv iota;
    cbn [fmap option_fmap option_map].
  - destruct (unread (objects (conn w) id)) as [|[row|e] rest] eqn:Hu.
    + set (w1 := with_conn (set_object id (set_unread [] false (objects (conn w) id))) w).
      change (RowTuple <$> None) with (@None PyRow).
      destruct (conv_row_ready w1 None Hready) as (row' & -> & _).
      destruct (IH w1) as (w' & Hrun & Hc & Hs & Hun); try assumption.
      * right. subst w1. simpl. rewrite Nat.eqb_refl. reflexivity.
      * subst w1. simpl. rewrite Nat.eqb_refl. simpl. destruct n; reflexivity.
      * exists w'. split; [exact Hrun|]. split; [exact Hc|]. split; [exact Hs|].
        rewrite Hun. subst w1. simpl. rewrite Nat.eqb_refl. simpl.
        destruct n; reflexivity.
    + set (w1 := with_conn (set_object id (set_unread rest true (objects (conn w) id))) w).
      change (RowTuple <$> Some row) with (Some (RowTuple row)).
      destruct (conv_row_ready w1 (Some (RowTuple row)) Hready) as (row' & -> & _).
      destruct (IH w1) as (w' & Hrun & Hc & Hs & Hun); try assumption.
      * left. subst w1. simpl. rewrite Nat.eqb_refl. reflexivity.
      * subst w1. simpl. rewrite Nat.eqb_refl. simpl.
        simpl in Hrows. exact Hrows.
      * exists w'. split; [exact Hrun|]. split; [exact Hc|]. split; [exact Hs|].
        rewrite Hun. subst w1. simpl. rewrite Nat.eqb_refl. reflexivity.
    + simpl in Hrows. discriminate.
  - destruct Hact as [Hact|Hu]; [discriminate|].
    change (RowTuple <$> None) with (@None PyRow).
    destruct (conv_row_ready w None Hready) as (row' & -> & _).
    destruct (IH w) as (w' & Hrun & Hc & Hs & Hun); try assumption.
    + right; exact Hu.
    + rewrite Hu. destruct n; reflexivity.
    + exists w'. split; [exact Hrun|]. split; [exact Hc|]. split; [exact Hs|].
      rewrite Hun, Hu. destruct n; reflexivity.
Qed.

(** C6. On a streaming cursor that has executed a statement: a relative
    scroll by a negative amount and an absolute scroll to a target before
    the row pointer raise [NotSupportedError] and change nothing; an unknown
    mode raises [ProgrammingError] and changes nothing; a forward scroll over
    [k] rows of an active stream reads exactly the next [k] packets off the
    wire, one [read_next] at a time, drops them, sends no statement, and
    sets the row pointer to the target. *)
Theorem scroll_streaming (w : World) (n : Z) (mode : string) :
  executed w ->
  let c := cursor w in
  let backwards := NotSupportedError "Backwards scrolling not supported by this cursor" in
  (mode = "relative" -> n < 0 -> SSCursor_scroll n mode w = (Raised backwards, w))
  /\ (mode = "absolute" -> n < rownumber c ->
      SSCursor_scroll n mode w = (Raised backwards, w))
  /\ (mode <> "relative" -> mode <> "absolute" ->
      SSCursor_scroll n mode w =
        (Raised (ProgrammingError ("unknown scroll mode " +:+ mode)), w))
  /\ (forall id target k,
        (mode = "relative" /\ 0 <= n /\ target = rownumber c + n /\ k = n)
        \/ (mode = "absolute" /\ rownumber c <= n /\ target = n /\ k = n - rownumber c) ->
        _result c = Some id ->
        conv_ready w ->
        unbuffered_active (objects (conn w) id) = true ->
        forallb is_row_data (take (Z.to_nat k) (unread (objects (conn w) id))) = true ->
        exists w',
          SSCursor_scroll n mode w = (Normal tt, w')
          /\ cursor w' = set_rownumber target c
          /\ unread (objects (conn w') id) =
               drop (Z.to_nat k) (unread (objects (conn w) id))
          /\ sent (conn w') = sent (conn w)).
Proof.
  intros Hex c backwards. subst c.
  assert (Hunf : forall k : M unit,
            (_check_executed ;; k) w = k w).
  { intros k. unfold bind. rewrite (check_executed_ok _ Hex). reflexivity. }
  unfold SSCursor_scroll. rewrite Hunf.
  split; [|split; [|split]].
  - intros -> Hn. simpl. destruct (Z.ltb_spec n 0); [reflexivity | lia].
  - intros -> Hn. simpl. unfold bind, get_cursor.
    destruct (Z.ltb_spec n (rownumber (cursor w))); [reflexivity | lia].
  - intros H1 H2. apply String.eqb_neq in H1. apply String.eqb_neq in H2.
    rewrite H1, H2. reflexivity.
  - intros id target k Hmode Hres Hready Hact Hrows.
    destruct (read_and_drop_rows (Z.to_nat k) w id Hres Hready (or_introl Hact) Hrows)
      as (w' & Hrun & Hc & Hs & Hun).
    destruct Hmode as [(-> & Hn & -> & ->) | (-> & Hn & -> & ->)]; simpl.
    + destruct (Z.ltb_spec n 0); [lia|].
      unfold bind at 1. rewrite Hrun. unfold bind, get_cursor, modify_cursor.
      eexists. split; [reflexivity|]. simpl. rewrite Hc. auto.
    + unfold bind at 1, get_cursor.
      destruct (Z.ltb_spec n (rownumber (cursor w))); [lia|].
      unfold bind at 1. rewrite Hrun. unfold modify_cursor.
      eexists. split; [reflexivity|]. simpl. rewrite Hc. auto.
Qed.

(** *** Dict rows *)

Lemma dict_field_names_app (fs : list Field) (acc : list string) :
  exists tail, dict_field_names fs acc = acc ++ tail /\ length tail = length fs.
Proof.
  revert acc. induction fs as [|f fs IH]; intros acc; simpl.
  - exists []. rewrite app_nil_r. auto.
  - destruct (IH (acc ++ [if bool_decide (name f ∈ acc)
                          then table_name f +:+ "." +:+ name f else name f]))
      as (tail & -> & Hlen).
    eexists (_ :: tail). rewrite <- app_assoc. simpl. split; [reflexivity|].
    simpl. rewrite Hlen. reflexivity.
Qed.





Lemma foldl_insert_lookup_notin {K V} `{Countable K} (pairs : list (K * V))
    (m : gmap K V) (k : K) :
  k ∉ pairs.*1 ->
  foldl (fun m kv => <[kv.1 := kv.2]> m) m pairs !! k = m !! k.
Proof.
  revert m. induction pairs as [|[k' v'] pairs IH]; intros m Hk; simpl; [reflexivity|].
  simpl in Hk. rewrite not_elem_of_cons in Hk. destruct Hk as [Hne Hk].
  rewrite IH by exact Hk. apply lookup_insert_ne. congruence.
Qed.

(** The last pair with a given key decides its value. *)
Lemma py_dict_lookup_last {K V} `{Countable K} (l1 l2 : list (K * V)) (k : K) (v : V) :
  k ∉ l2.*1 -> py_dict (l1 ++ (k, v) :: l2) !! k = Some v.
Proof.
  intros Hk. unfold py_dict. rewrite foldl_app. simpl.
  rewrite foldl_insert_lookup_notin by exact Hk. apply lookup_insert_eq.
Qed.



(** *** Stored procedures *)

Lemma query_total (q : pystr) : total (_query q).
Proof.
  assert (Hc : forall u, total (conn_query q u)).
  { intros u w. unfold conn_query. apply receive_total. }
  unfold _query, SSCursor_query, Cursor_query.
  pose proof get_db_total. pose proof do_get_result_total.
  frame.
Qed.

Lemma callproc_total (procname : string) (args : list Value) :
  total (callproc procname args).
Proof.
  assert (Hl : forall i, total (callproc_loop procname i args)).
  { induction args as [|a args IH]; intros i; simpl; [apply total_ret|].
    pose proof query_total. pose proof nextset_total. frame. }
  unfold callproc. pose proof get_db_total. pose proof query_total. frame.
Qed.

Lemma query_sent (q : pystr) (w w' : World) (n : Z) :
  _query q w = (Normal n, w') -> sent (conn w') = q :: sent (conn w).
Proof.
  intros H. apply query_normal in H as (rp & rest & res & _ & _ & _ & ->).
  apply answered_facts.
Qed.

Lemma callproc_loop_sent (procname : string) (args : list Value) (i : nat)
    (w w' : World) :
  callproc_loop procname i args w = (Normal tt, w') ->
  sent (conn w') =
    reverse (imap (fun j => set_statement procname (i + j)) args) ++ sent (conn w).
Proof.
  revert i w. induction args as [|a args IH]; intros i w H.
  - injection H as <-. reflexivity.
  - simpl in H.
    apply bind_normal in H as (n & w1 & Hq & H).
    apply bind_normal in H as (b & w2 & Hn & H).
    apply IH in H. rewrite H. apply query_sent in Hq.
    pose proof (nextset_advances w1) as (_ & Hs & _). rewrite Hn in Hs.
    unfold same_sent in Hs. simpl in Hs. rewrite Hs, Hq.
    rewrite imap_cons, reverse_cons, <- app_assoc. simpl.
    rewrite Nat.add_0_r.
    replace (imap ((fun j => set_statement procname (i + j)) ∘ S) args)
      with (imap (fun j => set_statement procname (S i + j)) args);
      [reflexivity|].
    apply imap_ext. intros j x _. simpl. f_equal. lia.
Qed.

(** C7. [callproc] never runs forever.  When it returns, it returns the
    argument sequence it was given, and what it has sent is, in this order,
    one statement [SET @_<p>_<i>=<escaped argument i>] per argument, by
    increasing index, and then the one statement [CALL <p>(@_<p>_0,...)]:
    one more statement than there are arguments.  Each assignment is
    followed by one [nextset()] before the next statement goes out.  With the
    sample server, calling [p] with two arguments sends exactly these three
    statements. *)
Theorem callproc_sends_assignments_then_call (procname : string)
    (args : list Value) (w : World) :
  (callproc procname args w).1 <> NoFuel
  /\ (forall r w',
        callproc procname args w = (Normal r, w') ->
        r = args
        /\ sent (conn w') = reverse (callproc_statements procname args) ++ sent (conn w)
        /\ length (callproc_statements procname args) = S (length args)
        /\ _executed (cursor w') = Some (call_statement procname (length args)))
  /\ (forall i a rest,
        callproc_loop procname i (a :: rest) =
          (_query (set_statement procname i a) ;; nextset ;;
           callproc_loop procname (S i) rest))
  /\ (let run := callproc (env := sample_env) "p" [VInt 1; VInt 2] (fresh_world ClsCursor) in
      run.1 = Normal [VInt 1; VInt 2]
      /\ sent (conn run.2) =
           [Text "CALL p(@_p_0,@_p_1)"; Text "SET @_p_1=2"; Text "SET @_p_0=1"]).
Proof.
  split; [apply callproc_total|]. split; [|split; [reflexivity | vm_compute; auto]].
  intros r w' H. unfold callproc in H.
  apply bind_normal in H as (c & w1 & Hdb & H).
  apply get_db_normal in Hdb as [-> _].
  apply bind_normal in H as ([] & w2 & Hloop & H).
  apply bind_normal in H as (n & w3 & Hq & H).
  apply bind_normal in H as ([] & w4 & Hm & H).
  injection Hm as <-. injection H as <- <-.
  apply callproc_loop_sent in Hloop. apply query_normal in Hq as Hq'.
  destruct Hq' as (rp & rest & res & _ & _ & _ & ->).
  split; [reflexivity|]. split; [|split].
  - cbn [conn with_cursor].
    destruct (answered_facts (call_statement procname (length args)) rp rest res w2)
      as (_ & _ & _ & _ & _ & -> & _).
    rewrite Hloop. unfold callproc_statements.
    rewrite reverse_app. reflexivity.
  - unfold callproc_statements. rewrite length_app, length_imap. simpl. lia.
  - reflexivity.
Qed.

(** *** Batches of rendered rows *)

Lemma append_cons (c : ascii) (a b : string) :
  String c a +:+ b = String c (a +:+ b).
Proof. reflexivity. Qed.

Lemma append_assoc (a b c : string) : (a +:+ b) +:+ c = a +:+ (b +:+ c).
Proof.
  induction a as [|x a IH]; [reflexivity|].
  rewrite !append_cons, IH. reflexivity.
Qed.

Lemma str_len_append (a b : string) : str_len (a +:+ b) = str_len a + str_len b.
Proof.
  unfold str_len. induction a as [|x a IH]; [reflexivity|].
  rewrite append_cons. simpl String.length. lia.
Qed.


Lemma py_join_snoc (sep : string) (cur : list string) (v : string) :
  cur <> [] -> py_join sep (cur ++ [v]) = py_join sep cur +:+ sep +:+ v.
Proof.
  induction cur as [|x cur IH]; intros Hne; [congruence|].
  destruct cur as [|y cur]; [reflexivity|].
  change (py_join sep ((x :: y :: cur) ++ [v]))
    with (x +:+ sep +:+ py_join sep ((y :: cur) ++ [v])).
  rewrite IH by discriminate.
  change (py_join sep (x :: y :: cur)) with (x +:+ sep +:+ py_join sep (y :: cur)).
  rewrite !append_assoc. reflexivity.
Qed.

Lemma statement_snoc (prefix : string) (cur : list string) (v : string) :
  cur <> [] ->
  statement prefix (cur ++ [v]) = statement prefix cur +:+ "," +:+ v.
Proof.
  intros Hne. unfold statement. rewrite (py_join_snoc _ _ _ Hne), append_assoc.
  reflexivity.
Qed.






Lemma greedy_concat (limit : Z) (prefix : string) (vs cur : list string) :
  concat (greedy limit prefix cur vs) = cur ++ vs.
Proof.
  revert cur. induction vs as [|v vs IH]; intros cur; simpl.
  - reflexivity.
  - destruct (limit <? _); simpl; rewrite IH; [reflexivity|].
    rewrite <- app_assoc. reflexivity.
Qed.








(** *** Running the batches *)

Lemma bind_assoc {A B C} (m : M A) (k : A -> M B) (f : B -> M C) (w : World) :
  bind (bind m k) f w = bind m (fun x => bind (k x) f) w.
Proof. unfold bind. destruct (m w) as [[a|e|] w1]; reflexivity. Qed.

Lemma idle_open (w : World) : idle w -> exists r, connection (cursor w) = Some r.
Proof.
  unfold idle. intros H. destruct (connection (cursor w)) as [r|] eqn:Hc; [eauto|].
  unfold nextset, _nextset, bind at 1, get_cursor in H. unfold bind at 1 in H.
  rewrite (get_db_closed _ Hc) in H. discriminate.
Qed.

Lemma drain_idle (w : World) : idle w -> drain_result_sets w = (Normal tt, w).
Proof.
  intros H. unfold drain_result_sets. simpl. unfold bind. rewrite H. reflexivity.
Qed.

Lemma nextset_no_more (w : World) (r : ConnRef) (id : nat) :
  connection (cursor w) = Some r ->
  _result (cursor w) = Some id ->
  conn_result (conn w) = Some id ->
  has_next (objects (conn w) id) = false ->
  idle w.
Proof.
  intros Hc Hr Hcr Hn. unfold idle, nextset, _nextset, bind, get_cursor.
  rewrite (get_db_bound _ _ Hc). unfold get_conn. rewrite Hr, Hcr.
  rewrite bool_decide_eq_true_2 by reflexivity. simpl. rewrite Hn. reflexivity.
Qed.

Lemma build_result_ok (u : bool) (rp : Reply) :
  reply_rows rp = None -> build_result u rp = inr (ok_result rp).
Proof. intros H. unfold build_result. rewrite H. reflexivity. Qed.

(** A statement that the server answers with a plain count, run on a cursor
    with nothing pending. *)
Lemma execute_answered (query : pystr) (args : option PyArgs) (q : pystr)
    (rp : Reply) (k : Z) (w : World) :
  idle w ->
  formatted query args = inr q ->
  server (q :: sent (conn w)) = [Answers rp] ->
  ok_reply k rp ->
  exists w',
    execute query args w = (Normal k, w')
    /\ idle w'
    /\ sent (conn w') = q :: sent (conn w)
    /\ rowcount (cursor w') = k.
Proof.
  intros Hidle Hf Hs (Hk & Hnext & Hrows).
  destruct (idle_open w Hidle) as [r Hc].
  exists (with_cursor (set_executed (Some q)) (answered q rp [] (ok_result rp) w)).
  destruct (answered_facts q rp [] (ok_result rp) w)
    as (_ & Hcount & Hres & Hcres & Hobj & Hsent & _ & _ & Hconn & _).
  split; [|split; [|split]].
  - unfold execute. unfold bind at 1. rewrite (get_db_bound _ _ Hc).
    unfold bind at 1. rewrite (drain_idle _ Hidle).
    assert (Hstep : (match (if PY2 then ensure_bytes_args <$> args else args) with
                     | Some a => lift (py_format (if PY2 then ensure_bytes query else query)
                                         (_escape_args a))
                     | None => ret (if PY2 then ensure_bytes query else query)
                     end) w = (Normal q, w)).
    { unfold formatted in Hf.
      destruct (if PY2 then ensure_bytes_args <$> args else args) as [a|].
      - rewrite Hf. reflexivity.
      - injection Hf as <-. reflexivity. }
    unfold bind at 1. rewrite Hstep.
    unfold bind at 1.
    rewrite (query_answered q w r rp [] (ok_result rp) Hc Hs (build_result_ok _ _ Hrows)).
    unfold bind, modify_cursor, ret. simpl. rewrite Hk. reflexivity.
  - apply (nextset_no_more _ r (next_object (conn w))).
    + cbn [cursor with_cursor connection set_executed]. rewrite Hconn. exact Hc.
    + cbn [cursor with_cursor _result set_executed]. exact Hres.
    + cbn [conn with_cursor]. exact Hcres.
    + cbn [conn with_cursor]. rewrite Hobj. exact Hnext.
  - cbn [conn with_cursor]. exact Hsent.
  - cbn [cursor with_cursor rowcount set_executed]. rewrite Hcount. simpl. exact Hk.
Qed.

Lemma formatted_bytes (s : string) : formatted (Bytes s) None = inr (Bytes s).
Proof. unfold formatted. destruct PY2; reflexivity. Qed.

Lemma py_len_cons {A} (x : A) (l : list A) : py_len (x :: l) = 1 + py_len l.
Proof. unfold py_len. simpl length. lia. Qed.

Lemma py_len_app {A} (l1 l2 : list A) : py_len (l1 ++ l2) = py_len l1 + py_len l2.
Proof. unfold py_len. rewrite length_app. lia. Qed.

Section Batches.

Variables (prefix : string) (values : pystr) (limit : Z) (vs : list string).

Hypothesis server_counts :
  forall log l1 group l2,
    group <> [] -> vs = l1 ++ group ++ l2 ->
    exists rp, server (Bytes (statement prefix group) :: log) = [Answers rp]
               /\ ok_reply (py_len group) rp.

Lemma run_batches_cons (a : PyArgs) (rest : list PyArgs) (sql : string)
    (rows : Z) (w : World) :
  run_batches prefix values (a :: rest) limit sql rows w =
    match py_format values (_escape_args a) with
    | inl e => (Raised e, w)
    | inr x =>
        if limit <? str_len sql + str_len (to_bytes x) + 1
        then (do n <- execute (Bytes sql) None;
              run_batches prefix values rest limit (prefix +:+ to_bytes x) (rows + n)) w
        else run_batches prefix values rest limit (sql +:+ "," +:+ to_bytes x) rows w
    end.
Proof.
  unfold run_batches. simpl execute_many_loop. rewrite bind_assoc.
  destruct (py_format values (_escape_args a)) as [e|x]; [reflexivity|].
  unfold bind at 1, lift, ret at 1.
  destruct (limit <? str_len sql + str_len (to_bytes x) + 1); [|reflexivity].
  rewrite bind_assoc. reflexivity.
Qed.

(** The loop of [_do_execute_many] followed by the last [execute]: every
    batch is sent, and the counts add up to the number of rows. *)
Lemma execute_many_loop_runs (rest_args : list PyArgs) :
  forall (rest_vs cur done : list string) (w : World) (rows : Z),
    Forall2 (fun a v => render values a = inr v) rest_args rest_vs ->
    cur <> [] ->
    vs = done ++ cur ++ rest_vs ->
    idle w ->
    exists w',
      run_batches prefix values rest_args limit (statement prefix cur) rows w
      = (Normal (rows + py_len cur + py_len rest_vs), w')
      /\ rowcount (cursor w') = rows + py_len cur + py_len rest_vs
      /\ sent (conn w') =
           reverse (Bytes ∘ statement prefix <$> greedy limit prefix cur rest_vs)
           ++ sent (conn w).
Proof.
  induction rest_args as [|a rest IH]; intros rest_vs cur done w rows Hr Hne Hvs Hidle.
  - apply Forall2_nil_inv_l in Hr as ->.
    destruct (server_counts (sent (conn w)) done cur [] Hne Hvs) as (rp & Hs & Hok).
    destruct (execute_answered (Bytes (statement prefix cur)) None _ rp _ w
                Hidle (formatted_bytes _) Hs Hok) as (w1 & Hex & _ & Hsent & Hcount).
    exists (with_cursor (set_rowcount (rows + py_len cur)) w1).
    unfold run_batches. simpl execute_many_loop. unfold bind at 1, ret at 1. cbn [fst snd].
    unfold bind at 1. rewrite Hex. unfold bind, modify_cursor, ret.
    change (py_len (@nil string)) with 0. rewrite Z.add_0_r.
    split; [reflexivity|]. split; [reflexivity|].
    cbn [conn with_cursor greedy]. rewrite Hsent. reflexivity.
  - apply Forall2_cons_inv_l in Hr as (v & vs' & Hv & Hr & ->).
    unfold render in Hv. rewrite run_batches_cons.
    destruct (py_format values (_escape_args a)) as [e|x] eqn:Hx; [discriminate|].
    injection Hv as <-.
    cbn [greedy].
    destruct (limit <? str_len (statement prefix cur) + str_len (to_bytes x) + 1).
    + destruct (server_counts (sent (conn w)) done cur (to_bytes x :: vs') Hne Hvs)
        as (rp & Hs & Hok).
      destruct (execute_answered (Bytes (statement prefix cur)) None _ rp _ w
                  Hidle (formatted_bytes _) Hs Hok) as (w1 & Hex & Hidle1 & Hsent & _).
      unfold bind at 1. rewrite Hex.
      destruct (IH vs' [to_bytes x] (done ++ cur) w1 (rows + py_len cur) Hr)
        as (w' & Hrun & Hcount & Hsent'); [discriminate | | exact Hidle1 |].
      { rewrite Hvs, <- app_assoc. reflexivity. }
      exists w'. change (statement prefix [to_bytes x]) with (prefix +:+ to_bytes x) in Hrun.
      rewrite Hrun, Hcount, Hsent', Hsent, !py_len_cons.
      change (py_len (@nil string)) with 0.
      split; [f_equal; f_equal; lia|]. split; [lia|].
      rewrite fmap_cons, reverse_cons, <- app_assoc. reflexivity.
    + destruct (IH vs' (cur ++ [to_bytes x]) done w rows Hr)
        as (w' & Hrun & Hcount & Hsent'); [destruct cur; discriminate | | exact Hidle |].
      { rewrite Hvs, <- app_assoc. reflexivity. }
      exists w'. rewrite (statement_snoc _ _ _ Hne) in Hrun.
      rewrite Hrun, Hcount, Hsent', py_len_app, !py_len_cons.
      change (py_len (@nil string)) with 0.
      split; [f_equal; f_equal; lia|]. split; [lia | reflexivity].
Qed.

Lemma do_execute_many_runs (qprefix : pystr) (args : list PyArgs) (v : string)
    (vs' : list string) (w : World) :
  to_bytes qprefix = prefix ->
  vs = v :: vs' ->
  Forall2 (fun a v => render values a = inr v) args vs ->
  idle w ->
  exists w',
    _do_execute_many qprefix values args limit w = (Normal (py_len args), w')
    /\ rowcount (cursor w') = py_len args
    /\ sent (conn w') =
         reverse (Bytes ∘ statement prefix <$> greedy limit prefix [v] vs')
         ++ sent (conn w).
Proof.
  intros Hp Hvs Hr Hidle. rewrite Hvs in Hr.
  apply Forall2_cons_inv_r in Hr as (a & rest & Hv & Hr & ->).
  destruct (idle_open w Hidle) as [r Hc].
  unfold render in Hv.
  destruct (py_format values (_escape_args a)) as [e|x] eqn:Hx; [discriminate|].
  injection Hv as <-.
  destruct (execute_many_loop_runs rest vs' [to_bytes x] [] w 0 Hr)
    as (w' & Hrun & Hcount & Hsent); [discriminate | exact Hvs | exact Hidle |].
  exists w'.
  assert (Hunf : _do_execute_many qprefix values (a :: rest) limit w =
                 run_batches prefix values rest limit (prefix +:+ to_bytes x) 0 w).
  { unfold _do_execute_many. unfold bind at 1.
    rewrite (get_db_bound _ _ Hc), Hp, Hx. reflexivity. }
  change (statement prefix [to_bytes x]) with (prefix +:+ to_bytes x) in Hrun.
  assert (Hlen : py_len (a :: rest) = 0 + py_len [to_bytes x] + py_len vs').
  { apply Forall2_length in Hr. unfold py_len. simpl length. lia. }
  rewrite Hunf, Hlen. auto.
Qed.

End Batches.


(** *** The matched template *)

Lemma is_space_paren : is_space ")" = false.
Proof. unfold is_space. destruct PY2; reflexivity. Qed.

Lemma group_parenthesised (content : list ascii) :
  let g := String.string_of_list_ascii ("("%char :: content ++ [")"%char]) in
  rstrip g = g /\ parenthesised g = true.
Proof.
  intros g. subst g.
  assert (Hrev : reverse ("("%char :: content ++ [")"%char])
                 = ")"%char :: (reverse content ++ ["("%char])).
  { rewrite reverse_cons, reverse_app. reflexivity. }
  split.
  - unfold rstrip. rewrite String.list_ascii_of_string_of_list_ascii, Hrev.
    simpl drop_while. rewrite is_space_paren, <- Hrev, reverse_involutive.
    reflexivity.
  - unfold parenthesised. rewrite String.list_ascii_of_string_of_list_ascii, Hrev.
    reflexivity.
Qed.

Lemma match_group_parenthesised (q before g : string) :
  RE_INSERT_VALUES_match q = Some (before, g) ->
  rstrip g = g /\ parenthesised g = true.
Proof.
  unfold RE_INSERT_VALUES_match.
  destruct (drop_while is_space (reverse (String.list_ascii_of_string q)))
    as [|c r]; [discriminate|].
  destruct (Ascii.eqb c ")"); [|discriminate].
  destruct (split_paren r) as [[rcontent rprefix]|]; [|discriminate].
  destruct (placeholders false (reverse rcontent) &&
            insert_values_prefix (reverse rprefix)); [|discriminate].
  intros H; injection H as _ <-. apply group_parenthesised.
Qed.



(** ** Further properties of the cursor methods *)

(** *** Guards *)

Lemma guard_refuses {A} (k : M A) (w : World) :
  truthy_str (_executed (cursor w)) = false ->
  (_check_executed ;; k) w = refused "execute() first" w.
Proof.
  unfold _check_executed, bind, get_cursor. intros ->. reflexivity.
Qed.

Lemma guard_passes {A} (k : M A) (w : World) :
  executed w -> (_check_executed ;; k) w = k w.
Proof. intros H. unfold bind. rewrite (check_executed_ok _ H). reflexivity. Qed.

(** X1. Before any statement has been executed, every fetch and scroll
    method of either flavour, and the iteration over the cursor, raises
    [ProgrammingError] at once: nothing is read and nothing changes. *)
Theorem fetch_before_execute (w : World) :
  truthy_str (_executed (cursor w)) = false ->
  Cursor_fetchone w = refused "execute() first" w
  /\ (forall size, Cursor_fetchmany size w = refused "execute() first" w)
  /\ Cursor_fetchall w = refused "execute() first" w
  /\ (forall n mode, Cursor_scroll n mode w = refused "execute() first" w)
  /\ SSCursor_fetchone w = refused "execute() first" w
  /\ (forall size, SSCursor_fetchmany size w = refused "execute() first" w)
  /\ (forall n mode, SSCursor_scroll n mode w = refused "execute() first" w)
  /\ iterate w = refused "execute() first" w.
Proof.
  intros H.
  repeat split; intros; try (apply guard_refuses; exact H).
  unfold iterate. simpl. unfold bind at 1. unfold fetchone, bind at 1, get_cursor.
  destruct (is_ss (cls (cursor w))).
  - unfold SSCursor_fetchone. rewrite (guard_refuses _ _ H). reflexivity.
  - unfold Cursor_fetchone. rewrite (guard_refuses _ _ H). reflexivity.
Qed.

Lemma execute_closed (query : pystr) (args : option PyArgs) (w : World) :
  connection (cursor w) = None -> execute query args w = refused "Cursor closed" w.
Proof.
  intros H. unfold execute, bind at 1. rewrite (get_db_closed _ H). reflexivity.
Qed.

(** X2. On a closed cursor, [execute], [callproc], [nextset] and
    [executemany] with arguments raise [ProgrammingError] before anything is
    sent or changed. *)
Theorem closed_cursor_refuses (w : World) :
  connection (cursor w) = None ->
  (forall q args, execute q args w = refused "Cursor closed" w)
  /\ (forall p args, callproc p args w = refused "Cursor closed" w)
  /\ nextset w = refused "Cursor closed" w
  /\ (forall q a args,
        negb PY2 && negb (is_text q) = false ->
        executemany q (a :: args) w = refused "Cursor closed" w).
Proof.
  intros H. split; [|split; [|split]].
  - intros q args. apply execute_closed, H.
  - intros p args. unfold callproc, bind at 1. rewrite (get_db_closed _ H). reflexivity.
  - unfold nextset, _nextset, bind at 1, get_cursor. unfold bind at 1.
    rewrite (get_db_closed _ H). reflexivity.
  - intros q a args Hk. unfold executemany. rewrite Hk.
    destruct (RE_INSERT_VALUES_match (payload q)) as [[before g]|] eqn:Hm.
    + destruct (match_group_parenthesised _ _ _ Hm) as [-> ->].
      unfold bind at 1, get_cursor. unfold bind at 1.
      rewrite (get_db_closed _ H). reflexivity.
    + unfold bind at 1. simpl sum_execute. unfold bind at 1.
      rewrite (execute_closed _ _ _ H). reflexivity.
Qed.

(** *** The materialised rows and the row pointer *)

Lemma py_slice_to (A : Type) (l : list A) (p s : Z) :
  0 <= p <= py_len l -> 0 <= s ->
  py_slice l p (Some (p + s)) = take (Z.to_nat s) (drop (Z.to_nat p) l).
Proof.
  intros Hp Hs. unfold py_slice, slice_bound, py_len in *.
  destruct (Z.ltb_spec p 0); [lia|]. destruct (Z.ltb_spec (p + s) 0); [lia|].
  rewrite (Z.min_l p) by lia.
  destruct (Z.le_ge_cases (p + s) (Z.of_nat (length l))).
  - rewrite Z.min_l by lia. f_equal. lia.
  - rewrite Z.min_r by lia.
    rewrite !take_ge; [reflexivity | |]; rewrite length_drop; lia.
Qed.

Lemma py_slice_open (A : Type) (l : list A) (p : Z) :
  0 <= p <= py_len l -> py_slice l p None = drop (Z.to_nat p) l.
Proof.
  intros Hp. unfold py_slice, slice_bound, py_len in *.
  destruct (Z.ltb_spec p 0); [lia|]. rewrite Z.min_l by lia.
  apply take_ge. rewrite length_drop. lia.
Qed.

Lemma py_getitem_in_range (A : Type) (l : list A) (p : Z) :
  0 <= p -> py_getitem l p = l !! Z.to_nat p.
Proof.
  intros Hp. unfold py_getitem, py_len.
  destruct (Z.ltb_spec p 0); [lia|].
  destruct (Z.leb_spec 0 p); [|lia].
  destruct (Z.ltb_spec p (Z.of_nat (length l))); [reflexivity|].
  symmetry. apply lookup_ge_None. lia.
Qed.

Lemma fetchone_unfold (w : World) (rs : list PyRow) :
  executed w ->
  _rows (cursor w) = Some rs ->
  Cursor_fetchone w =
    if py_len rs <=? rownumber (cursor w) then (Normal None, w)
    else match py_getitem rs (rownumber (cursor w)) with
         | None => (Raised (IndexError "list index out of range"), w)
         | Some result =>
             (Normal (Some result),
              with_cursor (set_rownumber (rownumber (cursor w) + 1)) w)
         end.
Proof.
  intros Hex Hrows. unfold Cursor_fetchone. rewrite (guard_passes _ _ Hex).
  unfold bind, get_cursor. rewrite Hrows.
  destruct (py_len rs <=? rownumber (cursor w)); [reflexivity|].
  destruct (py_getitem rs (rownumber (cursor w))); reflexivity.
Qed.

Lemma fetchmany_rows (w : World) (rs : list PyRow) (size : option Z) :
  executed w ->
  _rows (cursor w) = Some rs ->
  let c := cursor w in
  let end_ := rownumber c + py_or size (arraysize c) in
  Cursor_fetchmany size w =
    (Normal (Some (py_slice rs (rownumber c) (Some end_))),
     with_cursor (set_rownumber (Z.min end_ (py_len rs))) w).
Proof.
  intros Hex Hrows c end_. unfold Cursor_fetchmany. rewrite (guard_passes _ _ Hex).
  unfold bind, get_cursor. rewrite Hrows. reflexivity.
Qed.

Lemma fetchall_rows (w : World) (rs : list PyRow) :
  executed w ->
  _rows (cursor w) = Some rs ->
  Cursor_fetchall w =
    (Normal (Some (if rownumber (cursor w) =? 0 then rs
                   else py_slice rs (rownumber (cursor w)) None)),
     with_cursor (set_rownumber (py_len rs)) w).
Proof.
  intros Hex Hrows. unfold Cursor_fetchall. rewrite (guard_passes _ _ Hex).
  unfold bind, get_cursor. rewrite Hrows. reflexivity.
Qed.

(** X3. On a buffered cursor with materialised rows and a row pointer that
    is not negative, [fetchone] returns the row at the pointer and moves the
    pointer one row on; at or past the last row it returns [None] and leaves
    the cursor as it was. *)
Theorem fetchone_buffered (w : World) (rs : list PyRow) :
  executed w ->
  _rows (cursor w) = Some rs ->
  0 <= rownumber (cursor w) ->
  (forall r,
     rs !! Z.to_nat (rownumber (cursor w)) = Some r ->
     Cursor_fetchone w =
       (Normal (Some r), with_cursor (set_rownumber (rownumber (cursor w) + 1)) w))
  /\ (py_len rs <= rownumber (cursor w) -> Cursor_fetchone w = (Normal None, w)).
Proof.
  intros Hex Hrows Hp. rewrite (fetchone_unfold w rs Hex Hrows). split.
  - intros r Hr. pose proof (lookup_lt_Some _ _ _ Hr) as Hlt.
    destruct (Z.leb_spec (py_len rs) (rownumber (cursor w))) as [Hle|_].
    + unfold py_len in Hle. lia.
    + rewrite (py_getitem_in_range _ _ _ Hp), Hr. reflexivity.
  - intros Hle. destruct (Z.leb_spec (py_len rs) (rownumber (cursor w))); [reflexivity|lia].
Qed.

(** X4. A statement without result set leaves no rows to fetch: with
    [_rows] at [None], [fetchone], [fetchmany] and [fetchall] return [None]
    and change nothing.  [scroll] in a known mode never moves the pointer
    then: a target that is not negative reaches [len(None)] and fails with
    its [TypeError], a negative target fails the first comparison and raises
    [IndexError]. *)
Theorem fetch_without_result_set (w : World) :
  executed w ->
  _rows (cursor w) = None ->
  Cursor_fetchone w = (Normal None, w)
  /\ (forall size, Cursor_fetchmany size w = (Normal None, w))
  /\ Cursor_fetchall w = (Normal None, w)
  /\ (forall n mode,
        mode = "relative" \/ mode = "absolute" ->
        let target := if String.eqb mode "relative"
                      then rownumber (cursor w) + n else n in
        (0 <= target ->
         Cursor_scroll n mode w =
           (Raised (TypeError "object of type 'NoneType' has no len()"), w))
        /\ (target < 0 ->
            Cursor_scroll n mode w = (Raised (IndexError "out of range"), w))).
Proof.
  intros Hex Hrows.
  split; [|split; [|split]].
  - unfold Cursor_fetchone. rewrite (guard_passes _ _ Hex).
    unfold bind, get_cursor. rewrite Hrows. reflexivity.
  - intros size. unfold Cursor_fetchmany. rewrite (guard_passes _ _ Hex).
    unfold bind, get_cursor. rewrite Hrows. reflexivity.
  - unfold Cursor_fetchall. rewrite (guard_passes _ _ Hex).
    unfold bind, get_cursor. rewrite Hrows. reflexivity.
  - intros n mode Hmode target. subst target.
    unfold Cursor_scroll. rewrite (guard_passes _ _ Hex).
    unfold bind, get_cursor.
    destruct Hmode as [-> | ->]; simpl; rewrite Hrows; split; intros Ht.
    + destruct (Z.leb_spec 0 (rownumber (cursor w) + n)); [reflexivity|lia].
    + destruct (Z.leb_spec 0 (rownumber (cursor w) + n)); [lia|reflexivity].
    + destruct (Z.leb_spec 0 n); [reflexivity|lia].
    + destruct (Z.leb_spec 0 n); [lia|reflexivity].
Qed.

(** X5. With the row pointer inside the materialised rows and a size that
    is not negative, [fetchmany] returns the next [size] rows (fewer at the
    end) and advances the pointer by the number of rows it returned; a
    [fetchall] after it returns the rest, so that the two results together
    are exactly the rows that were left, in order; the pointer ends at the
    number of rows. *)
Theorem fetchmany_then_fetchall (w : World) (rs : list PyRow) (size : option Z) :
  executed w ->
  _rows (cursor w) = Some rs ->
  0 <= rownumber (cursor w) <= py_len rs ->
  0 <= py_or size (arraysize (cursor w)) ->
  let left := drop (Z.to_nat (rownumber (cursor w))) rs in
  let first := take (Z.to_nat (py_or size (arraysize (cursor w)))) left in
  exists w1 w2 rest,
    Cursor_fetchmany size w = (Normal (Some first), w1)
    /\ rownumber (cursor w1) = rownumber (cursor w) + py_len first
    /\ Cursor_fetchall w1 = (Normal (Some rest), w2)
    /\ first ++ rest = left
    /\ rownumber (cursor w2) = py_len rs.
Proof.
  intros Hex Hrows Hp Hs left first.
  set (p := rownumber (cursor w)) in *. set (s := py_or size (arraysize (cursor w))) in *.
  set (w1 := with_cursor (set_rownumber (Z.min (p + s) (py_len rs))) w).
  assert (Hlen : py_len first = Z.min (p + s) (py_len rs) - p).
  { subst first left. unfold py_len in *. rewrite length_take, length_drop. lia. }
  assert (Hex1 : executed w1) by exact Hex.
  exists w1, (with_cursor (set_rownumber (py_len rs)) w1).
  exists (drop (Z.to_nat (Z.min (p + s) (py_len rs))) rs).
  split; [|split; [|split; [|split]]].
  - rewrite (fetchmany_rows w rs size Hex Hrows). fold p s.
    rewrite (py_slice_to _ rs p s Hp Hs). reflexivity.
  - subst w1. cbn [cursor with_cursor rownumber set_rownumber]. lia.
  - rewrite (fetchall_rows w1 rs Hex1 Hrows).
    subst w1. cbn [cursor with_cursor rownumber set_rownumber].
    destruct (Z.eqb_spec (Z.min (p + s) (py_len rs)) 0) as [Hz|Hz].
    + rewrite Hz. reflexivity.
    + rewrite py_slice_open by lia. reflexivity.
  - subst first left.
    replace (Z.to_nat (Z.min (p + s) (py_len rs)))
      with (Z.to_nat p + Z.to_nat (Z.min s (py_len rs - p)))%nat by lia.
    rewrite <- drop_drop.
    destruct (Z.le_ge_cases s (py_len rs - p)).
    + rewrite Z.min_l by lia. apply take_drop.
    + rewrite Z.min_r by lia.
      rewrite take_ge by (rewrite length_drop; unfold py_len in *; lia).
      rewrite (drop_ge (drop (Z.to_nat p) rs))
        by (rewrite length_drop; unfold py_len in *; lia).
      apply app_nil_r.
  - reflexivity.
Qed.

(** X6. A negative size rewinds: when the size asked of [fetchmany] is
    negative and does not reach before the first row, [fetchmany] returns no
    row and moves the pointer back by that many rows, so that rows already
    fetched are delivered again by the next fetch. *)
Theorem fetchmany_negative_rewinds (w : World) (rs : list PyRow) (size : option Z) :
  executed w ->
  _rows (cursor w) = Some rs ->
  rownumber (cursor w) <= py_len rs ->
  py_or size (arraysize (cursor w)) < 0 ->
  0 <= rownumber (cursor w) + py_or size (arraysize (cursor w)) ->
  Cursor_fetchmany size w =
    (Normal (Some []),
     with_cursor
       (set_rownumber (rownumber (cursor w) + py_or size (arraysize (cursor w)))) w).
Proof.
  intros Hex Hrows Hp Hs Hend.
  rewrite (fetchmany_rows w rs size Hex Hrows). cbv zeta.
  set (p := rownumber (cursor w)) in *. set (s := py_or size (arraysize (cursor w))) in *.
  rewrite Z.min_l by lia. f_equal. f_equal.
  unfold py_slice, slice_bound.
  destruct (Z.ltb_spec p 0); [lia|]. destruct (Z.ltb_spec (p + s) 0); [lia|].
  replace (Z.to_nat (Z.min (p + s) (py_len rs) - Z.min p (py_len rs))) with 0%nat by lia.
  reflexivity.
Qed.

(** X7. The row pointer of a buffered cursor never leaves the materialised
    rows: a successful [execute] puts it at 0, and [fetchone], [fetchall],
    [scroll] and [fetchmany] with a size that is not negative keep it between
    0 and the number of rows, however they end. *)
Theorem pointer_stays_in_range (w : World) :
  (forall q args n w', execute q args w = (Normal n, w') -> pointer_in_range w')
  /\ (pointer_in_range w ->
      pointer_in_range (Cursor_fetchone w).2
      /\ (forall size,
            0 <= py_or size (arraysize (cursor w)) ->
            pointer_in_range (Cursor_fetchmany size w).2)
      /\ pointer_in_range (Cursor_fetchall w).2
      /\ (forall n mode, pointer_in_range (Cursor_scroll n mode w).2)).
Proof.
  split.
  { intros q args n w' H. apply execute_normal in H as (Hz & _).
    split; [lia|]. intros rs _. rewrite Hz. unfold py_len. lia. }
  intros Hin. pose proof Hin as [Hp Hle].
  destruct (truthy_str (_executed (cursor w))) eqn:Hex.
  2:{ split; [|split; [|split]]; intros;
        unfold Cursor_fetchone, Cursor_fetchmany, Cursor_fetchall, Cursor_scroll;
        rewrite (guard_refuses _ _ Hex); exact Hin. }
  destruct (_rows (cursor w)) as [rs|] eqn:Hrows.
  2:{ split; [|split; [|split]]; intros;
        unfold Cursor_fetchone, Cursor_fetchmany, Cursor_fetchall, Cursor_scroll;
        rewrite (guard_passes _ _ Hex); unfold bind, get_cursor;
        try (rewrite Hrows; exact Hin).
      destruct (String.eqb mode "relative");
        [simpl; rewrite Hrows; destruct (0 <=? _); exact Hin|].
      destruct (String.eqb mode "absolute");
        [simpl; rewrite Hrows; destruct (0 <=? _); exact Hin|].
      exact Hin. }
  specialize (Hle rs eq_refl).
  assert (Hrange : forall p, 0 <= p <= py_len rs ->
            pointer_in_range (with_cursor (set_rownumber p) w)).
  { intros p Hp'. split; [apply Hp'|]. cbn [cursor with_cursor _rows set_rownumber rownumber].
    intros rs' Hrs'. rewrite Hrows in Hrs'. injection Hrs' as <-. apply Hp'. }
  split; [|split; [|split]].
  - rewrite (fetchone_unfold w rs Hex Hrows).
    destruct (Z.leb_spec (py_len rs) (rownumber (cursor w))); [exact Hin|].
    destruct (py_getitem rs (rownumber (cursor w))); [|exact Hin].
    apply Hrange. lia.
  - intros size Hs. rewrite (fetchmany_rows w rs size Hex Hrows). apply Hrange.
    unfold py_len in *. lia.
  - rewrite (fetchall_rows w rs Hex Hrows). apply Hrange. unfold py_len. lia.
  - intros n mode. unfold Cursor_scroll. rewrite (guard_passes _ _ Hex).
    unfold bind, get_cursor.
    destruct (String.eqb mode "relative").
    + simpl. rewrite Hrows.
      destruct (Z.leb_spec 0 (rownumber (cursor w) + n)); [|exact Hin].
      destruct (Z.ltb_spec (rownumber (cursor w) + n) (py_len rs)); simpl;
        try exact Hin. apply Hrange. lia.
    + destruct (String.eqb mode "absolute"); [|exact Hin].
      simpl. rewrite Hrows.
      destruct (Z.leb_spec 0 n); [|exact Hin].
      destruct (Z.ltb_spec n (py_len rs)); simpl;
        try exact Hin. apply Hrange. lia.
Qed.

(** *** Advancing to the next result set *)

Lemma nextset_unfold (w : World) (r : ConnRef) (id : nat) :
  connection (cursor w) = Some r ->
  _result (cursor w) = Some id ->
  conn_result (conn w) = Some id ->
  has_next (objects (conn w) id) = true ->
  nextset w =
    (conn_next_result (is_ss (cls (cursor w))) ;; _do_get_result ;; ret true) w.
Proof.
  intros Hc Hr Hcr Hn. unfold nextset, _nextset. unfold bind at 1, get_cursor.
  unfold bind at 1. rewrite (get_db_bound _ _ Hc).
  unfold bind at 1. unfold bind at 1, get_conn. rewrite Hr, Hcr.
  rewrite bool_decide_eq_true_2 by reflexivity. simpl negb. rewrite Hn. reflexivity.
Qed.

(** X8. [nextset] returns false and changes nothing exactly when the cursor
    is open and has no result, or its result is no longer the connection's
    current one, or that result announces no further result set. *)
Theorem nextset_nothing_to_advance (w : World) :
  nextset w = (Normal false, w) <->
  connection (cursor w) <> None
  /\ (_result (cursor w) = None
      \/ conn_result (conn w) <> _result (cursor w)
      \/ exists id, _result (cursor w) = Some id
                    /\ has_next (objects (conn w) id) = false).
Proof.
  split.
  - intros H. destruct (idle_open w H) as [r Hc]. split; [congruence|].
    destruct (_result (cursor w)) as [id|] eqn:Hr; [|left; reflexivity]. right.
    destruct (decide (conn_result (conn w) = Some id)) as [Hcr|Hcr]; [|left; exact Hcr].
    right. exists id. split; [reflexivity|].
    destruct (has_next (objects (conn w) id)) eqn:Hn; [|reflexivity].
    rewrite (nextset_unfold w r id Hc Hr Hcr Hn) in H.
    apply bind_normal in H as ([] & w1 & _ & H).
    apply bind_normal in H as ([] & w2 & _ & H). discriminate.
  - intros [Hc Hcase]. destruct (connection (cursor w)) as [r|] eqn:Hr; [|congruence].
    destruct Hcase as [Hnone | [Hstale | (id & Hid & Hn)]].
    + apply (nextset_stale w r Hr). right. exact Hnone.
    + apply (nextset_stale w r Hr). left. exact Hstale.
    + destruct (decide (conn_result (conn w) = Some id)) as [Hcr|Hcr].
      * apply (nextset_no_more w r id Hr Hid Hcr Hn).
      * apply (nextset_stale w r Hr). left. rewrite Hid. exact Hcr.
Qed.

Lemma build_result_copies (u : bool) (rp : Reply) (res : Result) :
  build_result u rp = inr res ->
  affected_rows res = reply_affected_rows rp
  /\ r_description res = reply_description rp
  /\ has_next res = reply_has_next rp
  /\ fields res = reply_fields rp
  /\ insert_id res = reply_insert_id rp.
Proof.
  unfold build_result. destruct (reply_rows rp) as [ps|].
  - destruct u.
    + intros H; injection H as <-. repeat split; reflexivity.
    + destruct (read_all_rows ps); [discriminate|].
      intros H; injection H as <-. repeat split; reflexivity.
  - intros H; injection H as <-. repeat split; reflexivity.
Qed.

(** X9. When the cursor's result is the connection's current one and
    announces a further result set, [nextset] reads exactly that set: if the
    transport delivers it, [nextset] returns true with the cursor bound to the
    new result (row pointer 0, row count and description of the new answer)
    and no statement sent; if the transport fails, the error is raised and
    the cursor keeps the result it had. *)
Theorem nextset_binds_next (w : World) (id : nat) :
  connection (cursor w) <> None ->
  _result (cursor w) = Some id ->
  conn_result (conn w) = Some id ->
  has_next (objects (conn w) id) = true ->
  (forall rp rest res,
     incoming (conn w) = Answers rp :: rest ->
     build_result (is_ss (cls (cursor w))) rp = inr res ->
     let w' := advanced rp rest res w in
     nextset w = (Normal true, w')
     /\ rownumber (cursor w') = 0
     /\ rowcount (cursor w') = reply_affected_rows rp
     /\ description (cursor w') = reply_description rp
     /\ incoming (conn w') = rest
     /\ sent (conn w') = sent (conn w))
  /\ (forall e rest,
        incoming (conn w) = Fails e :: rest ->
        nextset w = (Raised e, with_conn (set_incoming rest) w)).
Proof.
  intros Hopen Hr Hcr Hn.
  destruct (connection (cursor w)) as [r|] eqn:Hc; [|congruence].
  rewrite (nextset_unfold w r id Hc Hr Hcr Hn). split.
  - intros rp rest res Hin Hb w'.
    destruct (rebound_cursor_facts res (next_object (conn w)) (cursor w))
      as (H1 & H2 & _ & _ & _ & _ & _ & H8).
    destruct (build_result_copies _ _ _ Hb) as (Ha & Hd & _).
    split; [|subst w'; unfold advanced; cbn [cursor conn install incoming sent];
             rewrite H1, H2, H8, Ha, Hd; repeat split; reflexivity].
    unfold bind at 1. unfold conn_next_result, receive. rewrite Hin, Hb.
    unfold bind at 1.
    erewrite do_get_result_bound; [| cbn; exact Hc | cbn; reflexivity].
    cbn [conn cursor warned with_conn install objects next_object].
    rewrite Nat.eqb_refl. reflexivity.
  - intros e rest Hin. unfold bind at 1. unfold conn_next_result, receive.
    rewrite Hin. reflexivity.
Qed.

(** *** Executing a statement *)

Lemma format_step (query : pystr) (args : option PyArgs) (w : World) :
  (match (if PY2 then ensure_bytes_args <$> args else args) with
   | Some a => lift (py_format (if PY2 then ensure_bytes query else query)
                       (_escape_args a))
   | None => ret (if PY2 then ensure_bytes query else query)
   end) w = lift (formatted query args) w.
Proof.
  unfold formatted.
  destruct (if PY2 then ensure_bytes_args <$> args else args); reflexivity.
Qed.

Lemma execute_unfold (query : pystr) (args : option PyArgs) (w w1 : World)
    (r : ConnRef) :
  connection (cursor w) = Some r ->
  drain_result_sets w = (Normal tt, w1) ->
  execute query args w =
    match formatted query args with
    | inl e => (Raised e, w1)
    | inr q =>
        (do result <- _query q;
         modify_cursor (set_executed (Some q)) ;; ret result) w1
    end.
Proof.
  intros Hc Hd. unfold execute. unfold bind at 1. rewrite (get_db_bound _ _ Hc).
  unfold bind at 1. rewrite Hd. unfold bind at 1. rewrite format_step.
  destruct (formatted query args); reflexivity.
Qed.

Lemma execute_drain_raises (query : pystr) (args : option PyArgs) (w w1 : World)
    (r : ConnRef) (e : exn) :
  connection (cursor w) = Some r ->
  drain_result_sets w = (Raised e, w1) ->
  execute query args w = (Raised e, w1).
Proof.
  intros Hc Hd. unfold execute. unfold bind at 1. rewrite (get_db_bound _ _ Hc).
  unfold bind at 1. rewrite Hd. reflexivity.
Qed.

Lemma rebound_cursor_last_executed (obj : Result) (id : nat) (c : Cursor) :
  _last_executed (rebound_cursor obj id c) = _last_executed c
  /\ arraysize (rebound_cursor obj id c) = arraysize c.
Proof.
  unfold rebound_cursor.
  destruct (is_dict (cls c)); [|split; reflexivity].
  destruct (truthy_seq (r_description obj)); [|split; reflexivity].
  destruct (dict_field_names (fields obj) []); [split; reflexivity|].
  destruct (rows obj) as [[|x xs]|]; split; reflexivity.
Qed.

(** X10. A successful [execute] has sent exactly one statement, the query
    formatted with the escaped arguments, and has recorded it as the
    statement executed; what it returns is the affected-row count of the
    server's answer, which is also the cursor's row count; the row pointer is
    at 0 and the description is the answer's. *)
Theorem execute_records_statement (query : pystr) (args : option PyArgs)
    (w w' : World) (n : Z) :
  execute query args w = (Normal n, w') ->
  exists q rp rest,
    formatted query args = inr q
    /\ server (q :: sent (conn w)) = Answers rp :: rest
    /\ sent (conn w') = q :: sent (conn w)
    /\ incoming (conn w') = rest
    /\ _executed (cursor w') = Some q
    /\ _last_executed (cursor w') = Some q
    /\ n = reply_affected_rows rp
    /\ rowcount (cursor w') = n
    /\ rownumber (cursor w') = 0
    /\ description (cursor w') = reply_description rp.
Proof.
  intros H.
  assert (Hc : exists r, connection (cursor w) = Some r).
  { destruct (connection (cursor w)) as [r|] eqn:Hr; [eauto|].
    unfold execute, bind at 1 in H. rewrite (get_db_closed _ Hr) in H. discriminate. }
  destruct Hc as [r Hc].
  destruct (drain_result_sets w) as [[[]|e|] w1] eqn:Hd.
  2:{ rewrite (execute_drain_raises _ _ _ _ _ _ Hc Hd) in H. discriminate. }
  2:{ unfold execute, bind at 1 in H. rewrite (get_db_bound _ _ Hc) in H.
      unfold bind at 1 in H. rewrite Hd in H. discriminate. }
  rewrite (execute_unfold _ _ _ _ _ Hc Hd) in H.
  destruct (formatted query args) as [e|q]; [discriminate|].
  apply bind_normal in H as (m & w2 & Hq & H).
  apply bind_normal in H as ([] & w3 & Hm & H).
  injection Hm as <-. injection H as <- <-.
  apply query_normal in Hq as (rp & rest & res & Hs & Hb & -> & ->).
  destruct (drain_result_sets_advances w) as (_ & Hsent & _).
  rewrite Hd in Hsent. unfold same_sent in Hsent. cbn [snd] in Hsent.
  rewrite Hsent in Hs.
  destruct (build_result_copies _ _ _ Hb) as (Ha & Hdesc & _).
  exists q, rp, rest. unfold answered.
  cbn [cursor conn with_cursor install sent incoming set_sent
       _executed set_executed rowcount rownumber description _last_executed].
  destruct (rebound_cursor_facts res (next_object (conn w1))
              (set_last_executed (Some q) (cursor w1)))
    as (H1 & H2 & _ & _ & _ & _ & _ & H8).
  destruct (rebound_cursor_last_executed res (next_object (conn w1))
              (set_last_executed (Some q) (cursor w1))) as [H9 _].
  rewrite H1, H2, H8, H9, Hsent, Ha, Hdesc. repeat split; try reflexivity; exact Hs.
Qed.

(** X11. When formatting the query with the arguments fails, [execute] on a
    cursor with nothing pending raises the formatting error and changes
    nothing: no statement is sent and the cursor keeps its state. *)
Theorem execute_format_error (query : pystr) (args : option PyArgs) (e : exn)
    (w : World) :
  idle w ->
  formatted query args = inl e ->
  execute query args w = (Raised e, w).
Proof.
  intros Hidle Hf. destruct (idle_open w Hidle) as [r Hc].
  rewrite (execute_unfold _ _ _ _ _ Hc (drain_idle _ Hidle)), Hf. reflexivity.
Qed.

(** X12. When the server rejects the statement, [execute] raises the
    server's error after the statement went out: the statement is logged as
    sent and remembered as [_last_executed], while [_executed], the bound
    result, the rows and the row pointer stay those of the previous
    statement. *)
Theorem execute_server_error (query : pystr) (args : option PyArgs) (q : pystr)
    (e : exn) (rest : list ServerReply) (w : World) :
  idle w ->
  formatted query args = inr q ->
  server (q :: sent (conn w)) = Fails e :: rest ->
  exists w',
    execute query args w = (Raised e, w')
    /\ cursor w' = set_last_executed (Some q) (cursor w)
    /\ sent (conn w') = q :: sent (conn w)
    /\ conn_result (conn w') = conn_result (conn w)
    /\ warned w' = warned w.
Proof.
  intros Hidle Hf Hs. destruct (idle_open w Hidle) as [r Hc].
  rewrite (execute_unfold _ _ _ _ _ Hc (drain_idle _ Hidle)), Hf.
  unfold bind at 1. rewrite (query_unfold q w r Hc).
  unfold bind at 1. unfold conn_query, receive.
  cbn [conn with_conn with_cursor sent set_sent]. rewrite Hs.
  eexists. split; [reflexivity|]. repeat split; reflexivity.
Qed.

(** X13. [execute] reads off the result sets still pending from the
    previous statement before anything else; when that fails, the error is
    raised and the new statement is never sent. *)
Theorem execute_stops_when_drain_fails (query : pystr) (args : option PyArgs)
    (w w1 : World) (e : exn) :
  connection (cursor w) <> None ->
  drain_result_sets w = (Raised e, w1) ->
  execute query args w = (Raised e, w1) /\ sent (conn w1) = sent (conn w).
Proof.
  intros Hopen Hd. destruct (connection (cursor w)) as [r|] eqn:Hc; [|congruence].
  split; [apply (execute_drain_raises _ _ _ _ r _ Hc Hd)|].
  destruct (drain_result_sets_advances w) as (_ & Hsent & _).
  rewrite Hd in Hsent. exact Hsent.
Qed.

(** *** Fetching from a stream *)

Lemma stream_at_object (id : nat) (rest : list Packet) (a : bool) (w : World) :
  objects (conn (stream_at id rest a w)) id = set_unread rest a (objects (conn w) id).
Proof. unfold stream_at. cbn. rewrite Nat.eqb_refl. reflexivity. Qed.

Lemma conv_row_delivered (w : World) (r : Row) :
  conv_ready w ->
  _conv_row (Some (RowTuple r)) w = (Normal (Some (delivered (cursor w) r)), w).
Proof.
  intros Hready. unfold _conv_row, delivered, bind, get_cursor, Cursor_conv_row.
  destruct (is_dict (cls (cursor w))) eqn:Hd; [|reflexivity].
  simpl. unfold bind, get_cursor.
  destruct (_fields (cursor w)) as [names|] eqn:Hf; [reflexivity|].
  exfalso. apply (Hready Hd). exact Hf.
Qed.

Lemma conv_row_none (w : World) : _conv_row None w = (Normal None, w).
Proof.
  unfold _conv_row, bind, get_cursor, Cursor_conv_row.
  destruct (is_dict (cls (cursor w))); reflexivity.
Qed.

Lemma read_next_unfold (w : World) (id : nat) :
  _result (cursor w) = Some id ->
  conv_ready w ->
  read_next w =
    if negb (unbuffered_active (objects (conn w) id)) then (Normal None, w)
    else match unread (objects (conn w) id) with
         | [] => (Normal None, stream_at id [] false w)
         | RowData row :: rest =>
             (Normal (Some (delivered (cursor w) row)), stream_at id rest true w)
         | ErrPacket e :: rest => (Raised e, stream_at id rest true w)
         end.
Proof.
  intros Hres Hready. unfold read_next, bind at 1, get_cursor. rewrite Hres.
  unfold bind at 1. unfold read_rowdata_packet_unbuffered.
  destruct (unbuffered_active (objects (conn w) id)); simpl negb; cbv iota.
  - destruct (unread (objects (conn w) id)) as [|[row|e] rest].
    + apply conv_row_none.
    + apply (conv_row_delivered (stream_at id rest true w)). exact Hready.
    + reflexivity.
  - apply conv_row_none.
Qed.

Lemma SSCursor_fetchone_unfold (w : World) (id : nat) :
  executed w ->
  _result (cursor w) = Some id ->
  conv_ready w ->
  SSCursor_fetchone w =
    if negb (unbuffered_active (objects (conn w) id)) then (Normal None, w)
    else match unread (objects (conn w) id) with
         | [] => (Normal None, stream_at id [] false w)
         | RowData row :: rest =>
             (Normal (Some (delivered (cursor w) row)),
              with_cursor (set_rownumber (rownumber (cursor w) + 1))
                (stream_at id rest true w))
         | ErrPacket e :: rest => (Raised e, stream_at id rest true w)
         end.
Proof.
  intros Hex Hres Hready. unfold SSCursor_fetchone. rewrite (guard_passes _ _ Hex).
  unfold bind at 1. rewrite (read_next_unfold w id Hres Hready).
  destruct (unbuffered_active (objects (conn w) id)); simpl negb; cbv iota;
    [|reflexivity].
  destruct (unread (objects (conn w) id)) as [|[row|e] rest]; reflexivity.
Qed.

(** X14. [SSCursor.fetchone] on an active stream takes one packet off the
    wire: a row is returned (as a record by the dict class) and the row
    pointer moves on by one; at the end of the data it returns [None] without
    moving the pointer, and goes on returning [None]; an error packet raises
    its error and leaves the row pointer where it was. *)
Theorem streaming_fetchone (w : World) (id : nat) :
  executed w ->
  _result (cursor w) = Some id ->
  conv_ready w ->
  unbuffered_active (objects (conn w) id) = true ->
  (forall row rest,
     unread (objects (conn w) id) = RowData row :: rest ->
     SSCursor_fetchone w =
       (Normal (Some (delivered (cursor w) row)),
        with_cursor (set_rownumber (rownumber (cursor w) + 1))
          (stream_at id rest true w)))
  /\ (unread (objects (conn w) id) = [] ->
      SSCursor_fetchone w = (Normal None, stream_at id [] false w)
      /\ SSCursor_fetchone (stream_at id [] false w) =
           (Normal None, stream_at id [] false w))
  /\ (forall e rest,
        unread (objects (conn w) id) = ErrPacket e :: rest ->
        SSCursor_fetchone w = (Raised e, stream_at id rest true w)).
Proof.
  intros Hex Hres Hready Hact.
  pose proof (SSCursor_fetchone_unfold w id Hex Hres Hready) as Hone.
  rewrite Hact in Hone. simpl negb in Hone. cbv iota in Hone.
  split; [|split].
  - intros row rest Hu. rewrite Hone, Hu. reflexivity.
  - intros Hu. split; [rewrite Hone, Hu; reflexivity|].
    rewrite (SSCursor_fetchone_unfold (stream_at id [] false w) id Hex Hres Hready).
    rewrite stream_at_object. reflexivity.
  - intros e rest Hu. rewrite Hone, Hu. reflexivity.
Qed.

Lemma packet_rows_length (ps : list Packet) :
  forallb is_row_data ps = true -> length (packet_rows ps) = length ps.
Proof.
  induction ps as [|[r|e] ps IH]; simpl; intros H; [reflexivity | | discriminate].
  unfold packet_rows in *. simpl. rewrite IH by exact H. reflexivity.
Qed.

Lemma packet_rows_data (ps : list Packet) :
  forallb is_row_data ps = true -> RowData <$> packet_rows ps = ps.
Proof.
  induction ps as [|[r|e] ps IH]; intros H; [reflexivity | | discriminate].
  change (RowData r :: (RowData <$> packet_rows ps) = RowData r :: ps).
  f_equal. apply IH. exact H.
Qed.

(** The loop of [SSCursor.fetchmany] over an active stream whose next [n]
    packets (or all that remain, if fewer) are rows. *)
Lemma fetchmany_loop_rows (n : nat) :
  forall (w : World) (id : nat) (acc : list PyRow),
    _result (cursor w) = Some id ->
    conv_ready w ->
    (unbuffered_active (objects (conn w) id) = true
     \/ unread (objects (conn w) id) = []) ->
    forallb is_row_data (take n (unread (objects (conn w) id))) = true ->
    exists w',
      fetchmany_loop n acc w =
        (Normal (acc ++ (delivered (cursor w) <$>
                           packet_rows (take n (unread (objects (conn w) id))))), w')
      /\ rownumber (cursor w') =
           rownumber (cursor w) + py_len (take n (unread (objects (conn w) id)))
      /\ sent (conn w') = sent (conn w)
      /\ unread (objects (conn w') id) = drop n (unread (objects (conn w) id)).
Proof.
  induction n as [|n IH]; intros w id acc Hres Hready Hact Hrows.
  { exists w. simpl. rewrite app_nil_r, drop_0. unfold py_len. simpl.
    repeat split; try reflexivity. lia. }
  simpl fetchmany_loop. unfold bind at 1. rewrite (read_next_unfold w id Hres Hready).
  destruct (unbuffered_active (objects (conn w) id)) eqn:Ha; simpl negb; cbv iota.
  - destruct (unread (objects (conn w) id)) as [|[row|e] rest] eqn:Hu.
    + exists (stream_at id [] false w). rewrite stream_at_object.
      simpl. rewrite app_nil_r. unfold py_len. simpl.
      repeat split; try reflexivity. lia.
    + unfold bind at 1, get_cursor. unfold bind at 1, modify_cursor.
      set (w2 := with_cursor (set_rownumber (rownumber (cursor (stream_at id rest true w)) + 1))
                   (stream_at id rest true w)).
      assert (Hobj : objects (conn w2) id = set_unread rest true (objects (conn w) id)).
      { subst w2. cbn [conn with_cursor]. apply stream_at_object. }
      destruct (IH w2 id (acc ++ [delivered (cursor w) row])) as (w' & Hrun & Hp & Hs & Hun).
      * exact Hres.
      * exact Hready.
      * left. rewrite Hobj. reflexivity.
      * rewrite Hobj. simpl in Hrows. exact Hrows.
      * exists w'. rewrite Hobj in Hrun, Hp, Hun. cbn [unread set_unread] in Hrun, Hp, Hun.
        split; [|split; [|split]].
        -- rewrite Hrun. simpl take. unfold packet_rows. simpl omap.
           rewrite fmap_cons, <- app_assoc. reflexivity.
        -- rewrite Hp. subst w2. cbn [cursor with_cursor stream_at with_conn rownumber
                                       set_rownumber].
           simpl take. rewrite py_len_cons. lia.
        -- rewrite Hs. reflexivity.
        -- rewrite Hun. reflexivity.
    + simpl in Hrows. discriminate.
  - destruct Hact as [Hact|Hu]; [discriminate|].
    exists w. rewrite Hu. simpl. rewrite app_nil_r. unfold py_len. simpl.
    repeat split; try reflexivity. lia.
Qed.

(** X15. [SSCursor.fetchmany] on an active stream whose next [size] packets
    (or all that remain, if fewer) are rows returns these rows in order, at
    most [size] of them and fewer only at the end of the data, moves the row
    pointer on by the number of rows returned, leaves the later packets on
    the wire and sends nothing. *)
Theorem streaming_fetchmany (w : World) (id : nat) (size : option Z) :
  executed w ->
  _result (cursor w) = Some id ->
  conv_ready w ->
  unbuffered_active (objects (conn w) id) = true ->
  let n := Z.to_nat (match size with None => arraysize (cursor w) | Some s => s end) in
  let ps := take n (unread (objects (conn w) id)) in
  forallb is_row_data ps = true ->
  exists w',
    SSCursor_fetchmany size w = (Normal (delivered (cursor w) <$> packet_rows ps), w')
    /\ length (packet_rows ps) = (n `min` length (unread (objects (conn w) id)))%nat
    /\ rownumber (cursor w') = rownumber (cursor w) + py_len (packet_rows ps)
    /\ unread (objects (conn w') id) = drop n (unread (objects (conn w) id))
    /\ sent (conn w') = sent (conn w).
Proof.
  intros Hex Hres Hready Hact n ps Hrows.
  destruct (fetchmany_loop_rows n w id [] Hres Hready (or_introl Hact) Hrows)
    as (w' & Hrun & Hp & Hs & Hun).
  exists w'. split; [|split; [|split; [|split]]].
  - unfold SSCursor_fetchmany. rewrite (guard_passes _ _ Hex).
    unfold bind at 1, get_cursor. exact Hrun.
  - rewrite (packet_rows_length ps Hrows). subst ps. apply length_take.
  - rewrite Hp. unfold py_len. rewrite (packet_rows_length ps Hrows). reflexivity.
  - exact Hun.
  - exact Hs.
Qed.

(** *** Iterating *)

Lemma dispatch_fetchone_streaming (w : World) :
  is_ss (cls (cursor w)) = true -> fetchone w = SSCursor_fetchone w.
Proof. intros H. unfold fetchone, bind, get_cursor. rewrite H. reflexivity. Qed.

Lemma dispatch_fetchone_buffered (w : World) :
  is_ss (cls (cursor w)) = false -> fetchone w = Cursor_fetchone w.
Proof. intros H. unfold fetchone, bind, get_cursor. rewrite H. reflexivity. Qed.

(** The bound of [iterate] is enough: every row that [fetchone] returns
    uses up one unit of [rows_left], so the iteration never stops for lack
    of fuel. *)
Lemma read_rowdata_total (id : nat) : total (read_rowdata_packet_unbuffered id).
Proof.
  intros w. unfold read_rowdata_packet_unbuffered.
  destruct (unbuffered_active (objects (conn w) id)); simpl; [|discriminate].
  destruct (unread (objects (conn w) id)) as [|[row|e] rest]; discriminate.
Qed.

Lemma fetchone_total : total fetchone.
Proof.
  unfold fetchone, SSCursor_fetchone, Cursor_fetchone, read_next.
  pose proof conv_row_total. pose proof read_rowdata_total.
  assert (total _check_executed) by (unfold _check_executed; frame).
  frame.
Qed.

Lemma conv_row_some (row : option PyRow) (w w' : World) (r : PyRow) :
  _conv_row row w = (Normal (Some r), w') -> w' = w /\ row <> None.
Proof.
  unfold _conv_row, bind, get_cursor, Cursor_conv_row, DictCursorMixin_conv_row.
  destruct (is_dict (cls (cursor w))).
  - destruct row as [x|]; [|discriminate]. unfold bind, get_cursor.
    destruct (_fields (cursor w)); [|discriminate].
    intros H; injection H as _ <-. split; [reflexivity | discriminate].
  - intros H; injection H as -> <-. split; [reflexivity | discriminate].
Qed.

Lemma fetchone_some_uses_row (w w' : World) (r : PyRow) :
  fetchone w = (Normal (Some r), w') -> rows_left w = S (rows_left w').
Proof.
  unfold fetchone, bind at 1, get_cursor. unfold rows_left.
  destruct (is_ss (cls (cursor w))) eqn:Hss.
  - unfold SSCursor_fetchone. intros H.
    apply bind_normal in H as ([] & w0 & Hck & H).
    assert (w0 = w) as ->.
    { unfold _check_executed, bind, get_cursor in Hck.
      destruct (truthy_str (_executed (cursor w))); [|discriminate].
      injection Hck as <-. reflexivity. }
    apply bind_normal in H as (row & w1 & Hread & H).
    destruct row as [x|]; [|discriminate].
    apply bind_normal in H as (c & w2 & Hc & H). injection Hc as <- <-.
    apply bind_normal in H as ([] & w3 & Hm & H). injection Hm as <-.
    injection H as _ <-.
    unfold read_next, bind at 1, get_cursor in Hread.
    destruct (_result (cursor w)) as [id|] eqn:Hres; [|discriminate].
    apply bind_normal in Hread as (raw & w4 & Hraw & Hconv).
    apply conv_row_some in Hconv as [-> Hsome].
    unfold read_rowdata_packet_unbuffered in Hraw.
    destruct (unbuffered_active (objects (conn w) id)); simpl negb in Hraw;
      cbv iota in Hraw;
      [|injection Hraw as <- _; exfalso; apply Hsome; reflexivity].
    destruct (unread (objects (conn w) id)) as [|[row|e] rest];
      [injection Hraw as <- _; exfalso; apply Hsome; reflexivity | | discriminate].
    injection Hraw as _ <-.
    cbn [cursor with_cursor with_conn conn cls set_rownumber _result objects set_object].
    rewrite Hss, Hres, Nat.eqb_refl. reflexivity.
  - unfold Cursor_fetchone. intros H.
    apply bind_normal in H as ([] & w0 & Hck & H).
    assert (w0 = w) as ->.
    { unfold _check_executed, bind, get_cursor in Hck.
      destruct (truthy_str (_executed (cursor w))); [|discriminate].
      injection Hck as <-. reflexivity. }
    apply bind_normal in H as (c & w1 & Hc & H). injection Hc as <- <-.
    destruct (_rows (cursor w)) as [rs|] eqn:Hrows; [|discriminate].
    destruct (Z.leb_spec (py_len rs) (rownumber (cursor w))); [discriminate|].
    destruct (py_getitem rs (rownumber (cursor w))); [|discriminate].
    apply bind_normal in H as ([] & w2 & Hm & H). injection Hm as <-.
    injection H as _ <-.
    cbn [cursor with_cursor cls set_rownumber _rows rownumber].
    rewrite Hss, Hrows. lia.
Qed.

Lemma fetch_until_none_enough_fuel (fuel : nat) (w : World) :
  (rows_left w < fuel)%nat -> (fetch_until_none fuel w).1 <> NoFuel.
Proof.
  revert w. induction fuel as [|n IH]; intros w Hlen; [lia|].
  simpl. unfold bind at 1. pose proof (fetchone_total w) as Ht.
  destruct (fetchone w) as [[[r|]|e|] w1] eqn:E; simpl in *; try discriminate.
  - apply fetchone_some_uses_row in E.
    specialize (IH w1). unfold bind.
    destruct (fetch_until_none n w1) as [[rest|e|] w2]; simpl in *;
      try discriminate.
    apply IH. lia.
  - congruence.
Qed.

Lemma iterate_total : total iterate.
Proof. intros w. unfold iterate. apply fetch_until_none_enough_fuel. lia. Qed.

Lemma with_cursor_same_rownumber (w : World) (p : Z) :
  rownumber (cursor w) = p -> with_cursor (set_rownumber p) w = w.
Proof. destruct w as [[] cn wd]. simpl. intros <-. reflexivity. Qed.

Lemma fetch_until_none_buffered (k : nat) :
  forall (w : World) (rs : list PyRow) (fuel : nat),
    is_ss (cls (cursor w)) = false ->
    executed w ->
    _rows (cursor w) = Some rs ->
    0 <= rownumber (cursor w) ->
    py_len rs - rownumber (cursor w) = Z.of_nat k ->
    (k < fuel)%nat ->
    fetch_until_none fuel w =
      (Normal (drop (Z.to_nat (rownumber (cursor w))) rs),
       with_cursor (set_rownumber (py_len rs)) w).
Proof.
  induction k as [|k IH]; intros w rs fuel Hss Hex Hrows Hp Hk Hfuel;
    (destruct fuel as [|fuel]; [lia|]); simpl fetch_until_none;
    unfold bind at 1; rewrite (dispatch_fetchone_buffered w Hss),
      (fetchone_unfold w rs Hex Hrows).
  - destruct (Z.leb_spec (py_len rs) (rownumber (cursor w))); [|lia].
    rewrite drop_ge by (unfold py_len in *; lia).
    rewrite with_cursor_same_rownumber by lia. reflexivity.
  - destruct (Z.leb_spec (py_len rs) (rownumber (cursor w))); [lia|].
    rewrite (py_getitem_in_range _ rs _ Hp).
    destruct (lookup_lt_is_Some_2 rs (Z.to_nat (rownumber (cursor w)))) as [r Hr].
    { unfold py_len in *. lia. }
    rewrite Hr.
    set (w1 := with_cursor (set_rownumber (rownumber (cursor w) + 1)) w).
    unfold bind at 1.
    rewrite (IH w1 rs fuel Hss Hex Hrows); subst w1;
      cbn [cursor with_cursor rownumber set_rownumber]; try lia.
    unfold ret. f_equal. f_equal.
    rewrite (drop_S rs r (Z.to_nat (rownumber (cursor w))) Hr).
    f_equal. f_equal. lia.
Qed.

(** X16. Iterating over a buffered cursor whose row pointer lies within the
    materialised rows yields, in order, the rows from the pointer on, which
    is what [fetchall] returns, and leaves the cursor as [fetchall] does, the
    pointer at the end of the rows. *)
Theorem iterate_buffered (w : World) (rs : list PyRow) :
  is_ss (cls (cursor w)) = false ->
  executed w ->
  _rows (cursor w) = Some rs ->
  0 <= rownumber (cursor w) <= py_len rs ->
  let left := drop (Z.to_nat (rownumber (cursor w))) rs in
  iterate w = (Normal left, with_cursor (set_rownumber (py_len rs)) w)
  /\ fetchall w = (Normal (Some left), with_cursor (set_rownumber (py_len rs)) w).
Proof.
  intros Hss Hex Hrows Hp left. split.
  - unfold iterate.
    apply (fetch_until_none_buffered (Z.to_nat (py_len rs - rownumber (cursor w))));
      try assumption; try lia.
    unfold rows_left. rewrite Hss, Hrows. lia.
  - unfold fetchall, bind, get_cursor. rewrite Hss.
    rewrite (fetchall_rows w rs Hex Hrows). subst left.
    destruct (Z.eqb_spec (rownumber (cursor w)) 0) as [Hz|Hz].
    + rewrite Hz. reflexivity.
    + rewrite py_slice_open by lia. reflexivity.
Qed.

Lemma fetch_until_none_streaming (ps : list Packet) :
  forall (w : World) (id : nat) (fuel : nat),
    is_ss (cls (cursor w)) = true ->
    executed w ->
    _result (cursor w) = Some id ->
    conv_ready w ->
    unbuffered_active (objects (conn w) id) = true ->
    unread (objects (conn w) id) = ps ->
    forallb is_row_data ps = true ->
    (length ps < fuel)%nat ->
    exists w',
      fetch_until_none fuel w = (Normal (delivered (cursor w) <$> packet_rows ps), w')
      /\ rownumber (cursor w') = rownumber (cursor w) + py_len ps
      /\ sent (conn w') = sent (conn w)
      /\ unread (objects (conn w') id) = []
      /\ unbuffered_active (objects (conn w') id) = false.
Proof.
  induction ps as [|[row|e] ps IH]; intros w id fuel Hss Hex Hres Hready Hact Hu Hrows Hfuel;
    (destruct fuel as [|fuel]; [simpl in Hfuel; lia|]); simpl fetch_until_none;
    unfold bind at 1; rewrite (dispatch_fetchone_streaming w Hss),
      (SSCursor_fetchone_unfold w id Hex Hres Hready), Hact, Hu; simpl negb; cbv iota.
  - exists (stream_at id [] false w). rewrite stream_at_object.
    unfold py_len. simpl. repeat split; try reflexivity. lia.
  - set (w1 := with_cursor (set_rownumber (rownumber (cursor w) + 1))
                 (stream_at id ps true w)).
    assert (Hobj : objects (conn w1) id = set_unread ps true (objects (conn w) id)).
    { subst w1. cbn [conn with_cursor]. apply stream_at_object. }
    destruct (IH w1 id fuel Hss Hex Hres Hready) as (w' & Hrun & Hp & Hs & Hun & Hoff).
    + rewrite Hobj. reflexivity.
    + rewrite Hobj. reflexivity.
    + exact Hrows.
    + simpl in Hfuel. lia.
    + exists w'. unfold bind at 1. rewrite Hrun.
      split; [reflexivity|]. split; [|split; [|split]].
      * rewrite Hp. subst w1. cbn [cursor with_cursor stream_at with_conn rownumber
                                    set_rownumber].
        rewrite py_len_cons. lia.
      * rewrite Hs. reflexivity.
      * exact Hun.
      * exact Hoff.
  - simpl in Hrows. discriminate.
Qed.

(** X17. [SSCursor.fetchall] (and iterating over a streaming cursor) on an
    active stream that carries only rows returns all of them in order, moves
    the row pointer on by their number, leaves nothing on the wire and sends
    nothing. *)
Theorem streaming_fetchall (w : World) (id : nat) :
  is_ss (cls (cursor w)) = true ->
  executed w ->
  _result (cursor w) = Some id ->
  conv_ready w ->
  unbuffered_active (objects (conn w) id) = true ->
  forallb is_row_data (unread (objects (conn w) id)) = true ->
  exists w',
    SSCursor_fetchall w =
      (Normal (delivered (cursor w) <$> packet_rows (unread (objects (conn w) id))), w')
    /\ rownumber (cursor w') = rownumber (cursor w) + py_len (unread (objects (conn w) id))
    /\ unread (objects (conn w') id) = []
    /\ unbuffered_active (objects (conn w') id) = false
    /\ sent (conn w') = sent (conn w).
Proof.
  intros Hss Hex Hres Hready Hact Hrows.
  destruct (fetch_until_none_streaming (unread (objects (conn w) id)) w id
              (S (rows_left w)) Hss Hex Hres Hready Hact eq_refl Hrows)
    as (w' & Hrun & Hp & Hs & Hun & Hoff).
  { unfold rows_left. rewrite Hss, Hres. lia. }
  exists w'. unfold SSCursor_fetchall, iterate. auto.
Qed.

(** *** Binding a result, once more *)

Lemma rebound_cursor_rows (obj : Result) (id : nat) (c : Cursor) :
  let names := dict_field_names (fields obj) [] in
  (is_dict (cls c) = false ->
   _rows (rebound_cursor obj id c) = (map RowTuple <$> rows obj))
  /\ (is_dict (cls c) = true ->
      truthy_seq (r_description obj) = true ->
      _fields (rebound_cursor obj id c) = Some names
      /\ forall rs,
           rows obj = Some rs -> fields obj <> [] ->
           _rows (rebound_cursor obj id c) = Some (dict_row names <$> (RowTuple <$> rs))).
Proof.
  intros names. split.
  - intros Hd. unfold rebound_cursor. rewrite Hd. reflexivity.
  - intros Hd Ht. unfold rebound_cursor. rewrite Hd, Ht. fold names.
    cbv zeta. split.
    + destruct names as [|n ns]; [reflexivity|].
      destruct (rows obj) as [[|x xs]|]; reflexivity.
    + intros rs Hrows Hf. rewrite Hrows.
      destruct names as [|n ns] eqn:Hn.
      * exfalso. destruct (dict_field_names_app (fields obj) []) as (tl & Heq & Hlen).
        fold names in Heq. rewrite Hn in Heq. simpl in Heq. subst tl.
        destruct (fields obj); [congruence | discriminate].
      * destruct rs as [|x xs]; [|reflexivity].
        unfold bound_cursor. cbn [_rows set_fields set_rows]. rewrite Hrows. reflexivity.
Qed.

(** X18. On an open cursor whose connection holds a current result,
    [_do_get_result] binds that result: the row pointer goes to 0, the row
    count, the description and the last insert id are copied from it, the
    connection is untouched, and the messages of the connection's warnings
    are issued in order exactly when the result counts a warning.  A plain
    cursor takes the rows as tuples; a dict cursor with a description records
    the field names and turns every row into a record over these names. *)
Theorem do_get_result_binds (w : World) (id : nat) :
  connection (cursor w) <> None ->
  conn_result (conn w) = Some id ->
  let obj := objects (conn w) id in
  let names := dict_field_names (fields obj) [] in
  exists w',
    _do_get_result w = (Normal tt, w')
    /\ conn w' = conn w
    /\ rownumber (cursor w') = 0
    /\ _result (cursor w') = Some id
    /\ rowcount (cursor w') = affected_rows obj
    /\ description (cursor w') = r_description obj
    /\ lastrowid (cursor w') = Some (insert_id obj)
    /\ warned w' =
         warned w ++ (if 0 <? warning_count obj
                      then w_message <$> pending_warnings (conn w) else [])
    /\ (is_dict (cls (cursor w)) = false ->
        _rows (cursor w') = (map RowTuple <$> rows obj))
    /\ (is_dict (cls (cursor w)) = true ->
        truthy_seq (r_description obj) = true ->
        _fields (cursor w') = Some names
        /\ forall rs,
             rows obj = Some rs -> fields obj <> [] ->
             _rows (cursor w') = Some (dict_row names <$> (RowTuple <$> rs))).
Proof.
  intros Hopen Hcr obj names.
  destruct (connection (cursor w)) as [r|] eqn:Hc; [|congruence].
  eexists. split; [apply (do_get_result_bound w r id Hc Hcr)|].
  cbn [conn cursor warned]. fold obj.
  destruct (rebound_cursor_facts obj id (cursor w))
    as (H1 & H2 & H3 & _ & _ & _ & _ & H8).
  split; [reflexivity|]. split; [exact H1|]. split; [exact H3|].
  split; [exact H2|]. split; [exact H8|].
  destruct (rebound_cursor_rows obj id (cursor w)) as [Hplain Hdict].
  split; [|split; [reflexivity|split; [exact Hplain | exact Hdict]]].
  unfold rebound_cursor.
  destruct (is_dict (cls (cursor w))); [|reflexivity].
  destruct (truthy_seq (r_description obj)); [|reflexivity].
  destruct (dict_field_names (fields obj) []); [reflexivity|].
  destruct (rows obj) as [[|x xs]|]; reflexivity.
Qed.

(** *** Escaping the arguments *)

Lemma py_dict_fmap {K V1 V2} `{Countable K} (f : V1 -> V2) (d : gmap K V1) :
  py_dict ((fun kv => (kv.1, f kv.2)) <$> map_to_list d) = f <$> d.
Proof.
  apply map_eq. intros k. rewrite lookup_fmap.
  assert (Hfst : forall l : list (K * V1),
            ((fun kv => (kv.1, f kv.2)) <$> l).*1 = l.*1).
  { intros l. rewrite <- list_fmap_compose. reflexivity. }
  destruct (d !! k) as [v|] eqn:Hk; simpl.
  - apply elem_of_map_to_list in Hk.
    apply list_elem_of_split in Hk as (l1 & l2 & Hl).
    pose proof (NoDup_fst_map_to_list d) as Hnd. rewrite Hl in Hnd |- *.
    rewrite fmap_app, NoDup_app in Hnd. destruct Hnd as (_ & _ & Hnd).
    rewrite fmap_cons in Hnd. apply NoDup_cons in Hnd as [Hnotin _].
    rewrite fmap_app, fmap_cons. simpl.
    apply py_dict_lookup_last. rewrite Hfst. exact Hnotin.
  - unfold py_dict. rewrite foldl_insert_lookup_notin; [apply lookup_empty|].
    rewrite Hfst. intros Hin. apply list_elem_of_fmap in Hin as ([k' v] & -> & Hin).
    apply elem_of_map_to_list in Hin. simpl in Hk. congruence.
Qed.

(** X19. [_escape_args] keeps the shape of the arguments: a sequence
    becomes the tuple of its escaped elements, in order and of the same
    length; a dict becomes a dict over the same keys with every value
    escaped; anything else is escaped as it is. *)
Theorem escape_args_keeps_shape :
  (forall l, exists l',
      _escape_args (ArgSeq l) = FmtTuple l'
      /\ length l' = length l
      /\ forall i v, l !! i = Some v -> l' !! i = Some (escape v))
  /\ (forall d, exists d',
        _escape_args (ArgDict d) = FmtDict d'
        /\ dom d' = dom d
        /\ forall k, d' !! k = escape <$> d !! k)
  /\ (forall v, _escape_args (ArgScalar v) = FmtScalar (escape v)).
Proof.
  split; [|split].
  - intros l. exists (escape <$> l). split; [reflexivity|].
    split; [apply length_fmap|]. intros i v Hi. rewrite list_lookup_fmap, Hi. reflexivity.
  - intros d. exists (escape <$> d). split.
    + unfold _escape_args. rewrite py_dict_fmap. reflexivity.
    + split; [apply dom_fmap_L|]. intros k. apply lookup_fmap.
  - reflexivity.
Qed.

(** *** Fetching without the connection *)

(** X20. The fetch and scroll methods of a buffered cursor never consult
    the connection: they leave it untouched, and on a cursor whose connection
    reference has been replaced (cleared by [close], say) they return what
    they return on the original cursor and change the cursor in the same
    way. *)
Theorem buffered_fetch_ignores_connection (w : World) (v : option ConnRef) :
  let moved := with_cursor (set_connection v) in
  (Cursor_fetchone (moved w) = ((Cursor_fetchone w).1, moved (Cursor_fetchone w).2)
   /\ conn (Cursor_fetchone w).2 = conn w)
  /\ (forall size,
        Cursor_fetchmany size (moved w) =
          ((Cursor_fetchmany size w).1, moved (Cursor_fetchmany size w).2)
        /\ conn (Cursor_fetchmany size w).2 = conn w)
  /\ (Cursor_fetchall (moved w) = ((Cursor_fetchall w).1, moved (Cursor_fetchall w).2)
      /\ conn (Cursor_fetchall w).2 = conn w)
  /\ (forall n mode,
        Cursor_scroll n mode (moved w) =
          ((Cursor_scroll n mode w).1, moved (Cursor_scroll n mode w).2)
        /\ conn (Cursor_scroll n mode w).2 = conn w).
Proof.
  intros moved. subst moved.
  split; [|split; [|split]]; intros;
    unfold Cursor_fetchone, Cursor_fetchmany, Cursor_fetchall, Cursor_scroll,
      _check_executed, bind, get_cursor, modify_cursor, ret, raise;
    repeat (cbv beta iota;
            cbn [cursor with_cursor conn _executed set_connection set_rownumber
                 _rows rownumber arraysize fst snd];
            try match goal with
                | |- context [if ?b then _ else _] => destruct b
                | |- context [match ?x with _ => _ end] => destruct x
                end);
    split; reflexivity.
Qed.

(** *** The statement template *)

Lemma drop_while_split {A} (p : A -> bool) (l : list A) :
  exists ws, l = ws ++ drop_while p l /\ Forall (fun x => p x = true) ws.
Proof.
  induction l as [|x l (ws & Hl & Hws)]; [exists []; split; [reflexivity | constructor]|].
  simpl. destruct (p x) eqn:Hp.
  - exists (x :: ws). split; [simpl; congruence | constructor; assumption].
  - exists []. split; [reflexivity | constructor].
Qed.

Lemma split_paren_split (r rc rp : list ascii) :
  split_paren r = Some (rc, rp) ->
  r = rc ++ "("%char :: rp /\ ("("%char ∉ rc).
Proof.
  revert rc. induction r as [|c r IH]; intros rc; simpl; [discriminate|].
  destruct (Ascii.eqb_spec c "("%char) as [->|Hc].
  - intros H; injection H as <- <-. split; [reflexivity | apply not_elem_of_nil].
  - destruct (split_paren r) as [[a b]|]; [|discriminate].
    intros H; injection H as <- <-. destruct (IH a eq_refl) as [-> Hnotin].
    split; [reflexivity|]. intros Hin. apply elem_of_cons in Hin as [Heq|Hin]; auto.
Qed.

(** X21. When the template of [executemany] matches a statement, the
    statement is the prefix, then group 1, then nothing but blanks; group 1
    opens with a parenthesis, closes with one and holds no other opening
    parenthesis, so it is the last parenthesised group of the statement. *)
Theorem insert_values_match_splits (q before g : string) :
  RE_INSERT_VALUES_match q = Some (before, g) ->
  exists content tail,
    String.list_ascii_of_string q =
      String.list_ascii_of_string before ++ String.list_ascii_of_string g ++ tail
    /\ String.list_ascii_of_string g = ("("%char :: content) ++ [")"%char]
    /\ ("("%char ∉ content)
    /\ Forall (fun c => is_space c = true) tail.
Proof.
  unfold RE_INSERT_VALUES_match.
  destruct (drop_while_split is_space (reverse (String.list_ascii_of_string q)))
    as (ws & Hl & Hws).
  destruct (drop_while is_space (reverse (String.list_ascii_of_string q)))
    as [|c r]; [discriminate|].
  destruct (Ascii.eqb_spec c ")"%char) as [->|]; [|discriminate].
  destruct (split_paren r) as [[rcontent rprefix]|] eqn:Hsp; [|discriminate].
  destruct (placeholders false (reverse rcontent) &&
            insert_values_prefix (reverse rprefix)); [|discriminate].
  intros H; injection H as <- <-.
  apply split_paren_split in Hsp as [-> Hnotin].
  exists (reverse rcontent), (reverse ws).
  rewrite ?String.list_ascii_of_string_of_list_ascii.
  cbn [String.list_ascii_of_string].
  rewrite ?String.list_ascii_of_string_of_list_ascii.
  split; [|split; [reflexivity|split]].
  - apply (f_equal reverse) in Hl. rewrite reverse_involutive in Hl. rewrite Hl.
    rewrite reverse_app, reverse_cons, reverse_app, reverse_cons.
    rewrite <- !app_assoc. simpl. rewrite <- ?app_assoc. simpl. reflexivity.
  - intros Hin. apply Hnotin. apply elem_of_reverse. exact Hin.
  - apply Forall_reverse. exact Hws.
Qed.

(** *** [executemany], the other cases *)

Lemma sum_execute_sends (query : pystr) (count : pystr -> Z) (args : list PyArgs) :
  forall (singles : list pystr) (w : World) (total : Z),
    Forall2 (fun a q => formatted query (Some a) = inr q) args singles ->
    (forall log q, q ∈ singles ->
       exists rp, server (q :: log) = [Answers rp] /\ ok_reply (count q) rp) ->
    idle w ->
    exists w',
      sum_execute query args total w =
        (Normal (total + foldr Z.add 0 (count <$> singles)), w')
      /\ sent (conn w') = reverse singles ++ sent (conn w).
Proof.
  induction args as [|a args IH]; intros singles w total Hf Hs Hidle.
  - apply Forall2_nil_inv_l in Hf as ->. exists w. simpl. unfold ret.
    rewrite Z.add_0_r. split; reflexivity.
  - apply Forall2_cons_inv_l in Hf as (q & qs & Hq & Hf & ->).
    destruct (Hs (sent (conn w)) q) as (rp & Hsrv & Hok); [left|].
    destruct (execute_answered query (Some a) q rp (count q) w Hidle Hq Hsrv Hok)
      as (w1 & Hex & Hidle1 & Hsent1 & _).
    destruct (IH qs w1 (total + count q) Hf) as (w' & Hrun & Hsent); [|exact Hidle1|].
    { intros log q' Hin. apply Hs. right. exact Hin. }
    exists w'. simpl sum_execute. unfold bind. rewrite Hex, Hrun. split.
    + rewrite fmap_cons. simpl foldr. f_equal. f_equal. lia.
    + rewrite Hsent, Hsent1, reverse_cons, <- app_assoc. reflexivity.
Qed.

(** X22. A statement that the bulk-insert template does not match is run
    once per argument set, in order, on a cursor with nothing pending and
    against a server that answers each of these statements with a plain
    count: the statements sent are the query formatted with each argument set
    in turn, and [executemany] returns the total of the counts and leaves it
    in the cursor's row count. *)
Theorem executemany_one_by_one (query : pystr) (args : list PyArgs) (w : World)
    (singles : list pystr) (count : pystr -> Z) :
  args <> [] ->
  negb PY2 && negb (is_text query) = false ->
  RE_INSERT_VALUES_match (payload query) = None ->
  idle w ->
  Forall2 (fun a q => formatted query (Some a) = inr q) args singles ->
  (forall log q, q ∈ singles ->
     exists rp, server (q :: log) = [Answers rp] /\ ok_reply (count q) rp) ->
  let total := foldr Z.add 0 (count <$> singles) in
  exists w',
    executemany query args w = (Normal (Some total), w')
    /\ rowcount (cursor w') = total
    /\ sent (conn w') = reverse singles ++ sent (conn w).
Proof.
  intros Hargs Hkind Hmatch Hidle Hf Hs total.
  destruct (sum_execute_sends query count args singles w 0 Hf Hs Hidle)
    as (w1 & Hrun & Hsent).
  exists (with_cursor (set_rowcount total) w1).
  destruct args as [|a args]; [congruence|].
  unfold executemany. rewrite Hkind, Hmatch. unfold bind at 1. rewrite Hrun.
  rewrite Z.add_0_l. fold total. split; [reflexivity|]. split; [reflexivity|].
  exact Hsent.
Qed.

Lemma greedy_fits_or_single (limit : Z) (prefix : string) (vs : list string) :
  forall cur : list string,
    cur <> [] ->
    fits limit prefix cur \/ length cur = 1%nat ->
    Forall (fun g => fits limit prefix g \/ length g = 1%nat)
      (greedy limit prefix cur vs).
Proof.
  induction vs as [|v vs IH]; intros cur Hne Hcur; simpl.
  - constructor; [exact Hcur | constructor].
  - destruct (Z.ltb_spec limit (str_len (statement prefix cur) + str_len v + 1)).
    + constructor; [exact Hcur|]. apply IH; [discriminate | right; reflexivity].
    + apply IH; [destruct cur; discriminate|]. left. unfold fits.
      rewrite (statement_snoc _ _ _ Hne), !str_len_append.
      change (str_len ",") with 1. lia.
Qed.

(** X23. Under the conditions in which [executemany] sends its batches (a
    statement that matches the template, a cursor with nothing pending, rows
    that render, a server that counts the rows it is sent), every statement
    sent either respects the length ceiling or carries exactly one row: a row
    too long for the ceiling still goes out, on its own. *)
Theorem executemany_long_row_goes_alone (query : pystr) (args : list PyArgs)
    (w : World) (before group1 : string) (vs : list string) :
  let prefix := to_bytes (same_kind query before) in
  let values := same_kind query (rstrip group1) in
  let limit := max_stmt_length (cursor w) in
  args <> [] ->
  negb PY2 && negb (is_text query) = false ->
  RE_INSERT_VALUES_match (payload query) = Some (before, group1) ->
  idle w ->
  Forall2 (fun a v => render values a = inr v) args vs ->
  (forall log l1 group l2,
     group <> [] -> vs = l1 ++ group ++ l2 ->
     exists rp, server (Bytes (statement prefix group) :: log) = [Answers rp]
                /\ ok_reply (py_len group) rp) ->
  exists bs w',
    executemany query args w = (Normal (Some (py_len args)), w')
    /\ sent (conn w') = reverse (Bytes ∘ statement prefix <$> bs) ++ sent (conn w)
    /\ concat bs = vs
    /\ Forall (fun g => fits limit prefix g \/ length g = 1%nat) bs.
Proof.
  intros prefix values limit Hargs Hkind Hmatch Hidle Hrender Hsrv.
  destruct vs as [|v vs'].
  { apply Forall2_nil_inv_r in Hrender. congruence. }
  destruct (match_group_parenthesised _ _ _ Hmatch) as [Hstrip Hparen].
  destruct (idle_open w Hidle) as [r Hc].
  destruct (do_execute_many_runs prefix values limit (v :: vs') Hsrv
              (same_kind query before) args v vs' w eq_refl eq_refl Hrender Hidle)
    as (w' & Hrun & _ & Hsent).
  exists (greedy limit prefix [v] vs'), w'.
  split; [|split; [|split]].
  - destruct args as [|a args]; [congruence|].
    unfold executemany. rewrite Hkind, Hmatch, Hstrip, Hparen.
    unfold bind at 1, get_cursor. unfold bind at 1. rewrite (get_db_bound _ _ Hc).
    unfold bind at 1. fold limit. subst values. rewrite Hstrip in Hrun.
    rewrite Hrun. reflexivity.
  - exact Hsent.
  - apply greedy_concat.
  - apply greedy_fits_or_single; [discriminate | right; reflexivity].
Qed.

(** *** Buffered against streaming *)

Lemma read_all_rows_rows (ps : list Packet) :
  forallb is_row_data ps = true -> read_all_rows ps = inr (packet_rows ps).
Proof.
  induction ps as [|[r|e] ps IH]; simpl; intros H; [reflexivity | | discriminate].
  rewrite (IH H). reflexivity.
Qed.

Lemma execute_bound (query : pystr) (args : option PyArgs) (q : pystr) (rp : Reply)
    (rest : list ServerReply) (res : Result) (w : World) :
  idle w ->
  formatted query args = inr q ->
  server (q :: sent (conn w)) = Answers rp :: rest ->
  build_result (is_ss (cls (cursor w))) rp = inr res ->
  execute query args w =
    (Normal (affected_rows res),
     with_cursor (set_executed (Some q)) (answered q rp rest res w)).
Proof.
  intros Hidle Hf Hs Hb. destruct (idle_open w Hidle) as [r Hc].
  rewrite (execute_unfold _ _ _ _ _ Hc (drain_idle _ Hidle)), Hf.
  unfold bind at 1. rewrite (query_answered q w r rp rest res Hc Hs Hb). reflexivity.
Qed.

(** X24. A buffered and a streaming cursor of the same kind (both plain or
    both dict) that run the same statement against the same answer, a result
    set whose packets [ps] all carry rows, fetch the same rows: [execute]
    followed by [fetchall] returns on both the list [conv <$> packet_rows
    ps], the rows of the answer in the order of their packets, each as a
    tuple or, for the dict kind, as the record keyed by the field names of
    the answer.  (For the dict kind the answer must carry a description and
    fields.) *)
Theorem same_rows_buffered_or_streaming (query : pystr) (args : option PyArgs)
    (q : pystr) (rp : Reply) (rest : list ServerReply) (ps : list Packet)
    (wb ws : World) :
  is_ss (cls (cursor wb)) = false ->
  is_ss (cls (cursor ws)) = true ->
  is_dict (cls (cursor ws)) = is_dict (cls (cursor wb)) ->
  idle wb ->
  idle ws ->
  formatted query args = inr q ->
  payload q <> "" ->
  server (q :: sent (conn wb)) = Answers rp :: rest ->
  server (q :: sent (conn ws)) = Answers rp :: rest ->
  reply_rows rp = Some ps ->
  forallb is_row_data ps = true ->
  (is_dict (cls (cursor wb)) = true ->
   truthy_seq (reply_description rp) = true /\ reply_fields rp <> []) ->
  let names := dict_field_names (reply_fields rp) [] in
  let conv := fun r : Row =>
                if is_dict (cls (cursor wb)) then dict_row names (RowTuple r)
                else RowTuple r in
  let rows := conv <$> packet_rows ps in
  ((execute query args ;; fetchall) wb).1 = Normal (Some rows)
  /\ ((execute query args ;; fetchall) ws).1 = Normal (Some rows)
  /\ RowData <$> packet_rows ps = ps
  /\ length rows = length ps.
Proof.
  intros Hb Hs Hkind Hidleb Hidles Hf Hq Hsb Hss Hrows Hdata Hdict names conv rows.
  subst rows.
  assert (Hexd : truthy_str (Some q) = true).
  { simpl. apply negb_true_iff, String.eqb_neq. exact Hq. }
  split; [|split; [|split]].
  - (* the buffered cursor *)
    set (res := {| affected_rows := reply_affected_rows rp;
                   r_description := reply_description rp;
                   fields := reply_fields rp;
                   insert_id := reply_insert_id rp;
                   warning_count := py_len (reply_warnings rp);
                   has_next := reply_has_next rp;
                   rows := Some (packet_rows ps);
                   unbuffered_active := false; unread := [] |}).
    assert (Hres : build_result (is_ss (cls (cursor wb))) rp = inr res).
    { rewrite Hb. unfold build_result. rewrite Hrows, (read_all_rows_rows ps Hdata).
      reflexivity. }
    unfold bind. rewrite (execute_bound _ _ _ _ _ _ _ Hidleb Hf Hsb Hres).
    match goal with |- context [fetchall ?x] => set (w' := x) end.
    assert (Hss' : is_ss (cls (cursor w')) = false).
    { subst w'. cbn [cursor with_cursor cls set_executed].
      destruct (answered_facts q rp rest res wb) as (_ & _ & _ & _ & _ & _ & _ & -> & _).
      exact Hb. }
    assert (Hp : rownumber (cursor w') = 0).
    { subst w'. cbn [cursor with_cursor rownumber set_executed].
      apply answered_facts. }
    assert (Hr : _rows (cursor w') = Some (conv <$> packet_rows ps)).
    { subst w' conv. unfold answered.
      cbn [cursor with_cursor _rows set_executed].
      match goal with |- context [rebound_cursor ?o ?i ?c] =>
        destruct (rebound_cursor_rows o i c) as [Hplain Hd] end.
      cbn [cls set_last_executed fields r_description rows] in Hplain, Hd.
      destruct (is_dict (cls (cursor wb))) eqn:Hk.
      - destruct (Hdict eq_refl) as [Ht Hfs].
        destruct (Hd eq_refl Ht) as [_ Hconv].
        rewrite (Hconv _ eq_refl Hfs). rewrite <- list_fmap_compose. reflexivity.
      - rewrite (Hplain eq_refl). reflexivity. }
    unfold fetchall, bind, get_cursor. rewrite Hss'.
    rewrite (fetchall_rows w' _ Hexd Hr), Hp. reflexivity.
  - (* the streaming cursor *)
    set (res := {| affected_rows := reply_affected_rows rp;
                   r_description := reply_description rp;
                   fields := reply_fields rp;
                   insert_id := reply_insert_id rp;
                   warning_count := py_len (reply_warnings rp);
                   has_next := reply_has_next rp;
                   rows := None;
                   unbuffered_active := true; unread := ps |}).
    assert (Hres : build_result (is_ss (cls (cursor ws))) rp = inr res).
    { rewrite Hs. unfold build_result. rewrite Hrows. reflexivity. }
    unfold bind. rewrite (execute_bound _ _ _ _ _ _ _ Hidles Hf Hss Hres).
    match goal with |- context [fetchall ?x] => set (w' := x) end.
    destruct (answered_facts q rp rest res ws)
      as (_ & _ & Hid & _ & Hobj & _ & _ & Hcls & _).
    assert (Hss' : is_ss (cls (cursor w')) = true).
    { subst w'. cbn [cursor with_cursor cls set_executed]. rewrite Hcls. exact Hs. }
    assert (Hid' : _result (cursor w') = Some (next_object (conn ws))).
    { subst w'. cbn [cursor with_cursor _result set_executed]. exact Hid. }
    assert (Hobj' : objects (conn w') (next_object (conn ws)) = res) by exact Hobj.
    assert (Hdel : forall r, delivered (cursor w') r = conv r
                             /\ conv_ready w').
    { intros r. subst w' conv. unfold delivered, conv_ready, answered.
      cbn [cursor with_cursor cls _fields set_executed].
      match goal with |- context [rebound_cursor ?o ?i ?c] =>
        destruct (rebound_cursor_rows o i c) as [_ Hd];
        destruct (rebound_cursor_facts o i c) as (_ & _ & _ & -> & _) end.
      cbn [cls set_last_executed fields r_description rows] in Hd |- *.
      rewrite Hkind. destruct (is_dict (cls (cursor wb))) eqn:Hk.
      - destruct (Hdict eq_refl) as [Ht _].
        destruct (Hd Hkind Ht) as [-> _]. split; [reflexivity | discriminate].
      - split; [reflexivity | discriminate]. }
    destruct (fetch_until_none_streaming ps w' (next_object (conn ws))
                (S (rows_left w')) Hss' Hexd Hid' (proj2 (Hdel []))) as (w2 & Hrun & _).
    + rewrite Hobj'. reflexivity.
    + rewrite Hobj'. reflexivity.
    + exact Hdata.
    + unfold rows_left. rewrite Hss', Hid', Hobj'. simpl. lia.
    + unfold fetchall, bind, get_cursor. rewrite Hss'.
      unfold SSCursor_fetchall, iterate. rewrite Hrun. simpl. f_equal. f_equal.
      apply list_fmap_ext. intros i r _. apply Hdel.
  - apply packet_rows_data. exact Hdata.
  - rewrite length_fmap. apply packet_rows_length. exact Hdata.
Qed.

End Properties.

(** ** The theorems at work on the sample server *)


Lemma sscursor_close_drains_current_witness :
  exists o w',
    close (selected_world ClsSSCursor) = (o, w') /\ o <> NoFuel
    /\ connection (cursor w') = None
    /\ unbuffered_active (objects (conn w') 0%nat) = false
    /\ (unbuffered_active (objects (conn (selected_world ClsSSCursor)) 0%nat) = true ->
        unread (objects (conn w') 0%nat) = []).
Proof.
  refine (proj1 (sscursor_close_drains_current (selected_world ClsSSCursor) 0 _ _ _ _) _ _).
  - reflexivity.
  - discriminate.
  - reflexivity.
  - vm_compute. lia.
  - reflexivity.
  - reflexivity.
Defined.

Lemma scroll_buffered_witness :
  Cursor_scroll 2 "absolute" (selected_world ClsCursor) =
    (Normal tt, with_cursor (set_rownumber 2) (selected_world ClsCursor)).
Proof.
  refine (proj1 (proj1 (scroll_buffered (selected_world ClsCursor)
                          (RowTuple <$> sample_rows) 2 "absolute" _ _)
                   (or_intror eq_refl)) _).
  - reflexivity.
  - reflexivity.
  - vm_compute. split; [discriminate | reflexivity].
Defined.

(** C4: [executemany] ran a [SELECT] for two argument sets, so the row
    count is 6 while 3 rows are held; the target 4 lies in [0, row count)
    and [scroll] raises [IndexError], leaving the pointer where it was. *)
Lemma scroll_bound_is_rows_held :
  executed summed_world
  /\ _rows (cursor summed_world) = Some (RowTuple <$> sample_rows)
  /\ rowcount (cursor summed_world) = 6
  /\ 0 <= 4 < rowcount (cursor summed_world)
  /\ Cursor_scroll 4 "absolute" summed_world =
       (Raised (IndexError "out of range"), summed_world).
Proof.
  split; [reflexivity|]. split; [reflexivity|]. split; [reflexivity|].
  split; [vm_compute; split; [discriminate | reflexivity]|].
  vm_compute. reflexivity.
Qed.

Lemma fetchall_after_execute_witness :
  Cursor_fetchall (selected_world ClsCursor) =
    (Normal (Some (RowTuple <$> sample_rows)),
     with_cursor (set_rownumber 3) (selected_world ClsCursor)).
Proof.
  refine (proj1 (proj2 (fetchall_after_execute (env := sample_env)
                          (Text "SELECT a FROM t") None (fresh_world ClsCursor)
                          (selected_world ClsCursor) 3 (RowTuple <$> sample_rows)
                          _ _ _ _))).
  - reflexivity.
  - reflexivity.
  - reflexivity.
  - reflexivity.
Defined.

Lemma scroll_streaming_witness :
  exists w',
    SSCursor_scroll 2 "relative" (selected_world ClsSSCursor) = (Normal tt, w')
    /\ cursor w' = set_rownumber 2 (cursor (selected_world ClsSSCursor))
    /\ unread (objects (conn w') 0%nat) = [RowData [VInt 30]]
    /\ sent (conn w') = sent (conn (selected_world ClsSSCursor)).
Proof.
  refine (proj2 (proj2 (proj2 (scroll_streaming (selected_world ClsSSCursor) 2 "relative" _)))
            0%nat 2 2 _ _ _ _ _).
  - reflexivity.
  - left. repeat split; reflexivity || lia.
  - reflexivity.
  - intros H. discriminate H.
  - reflexivity.
  - reflexivity.
Defined.


(** ** The further properties at work on the sample server *)

Lemma fetch_before_execute_witness :
  Cursor_fetchone (fresh_world ClsCursor) =
    refused "execute() first" (fresh_world ClsCursor).
Proof.
  refine (proj1 (fetch_before_execute (fresh_world ClsCursor) _)). reflexivity.
Defined.

Lemma closed_cursor_refuses_witness :
  execute (env := sample_env) (Text "SELECT a FROM t") None closed_world =
    refused "Cursor closed" closed_world.
Proof.
  refine (proj1 (closed_cursor_refuses (env := sample_env) closed_world _) _ _).
  reflexivity.
Defined.

Lemma fetchone_buffered_witness :
  Cursor_fetchone (selected_world ClsCursor) =
    (Normal (Some (RowTuple [VInt 10])),
     with_cursor (set_rownumber (rownumber (cursor (selected_world ClsCursor)) + 1))
       (selected_world ClsCursor)).
Proof.
  refine (proj1 (fetchone_buffered (selected_world ClsCursor)
                   (RowTuple <$> sample_rows) _ _ _) _ _).
  - reflexivity.
  - reflexivity.
  - vm_compute. discriminate.
  - reflexivity.
Defined.

Lemma fetch_without_result_set_witness :
  Cursor_fetchall inserted_world = (Normal None, inserted_world)
  /\ Cursor_scroll 1 "absolute" inserted_world =
       (Raised (TypeError "object of type 'NoneType' has no len()"), inserted_world)
  /\ Cursor_scroll (-1) "relative" inserted_world =
       (Raised (IndexError "out of range"), inserted_world).
Proof.
  pose proof (fetch_without_result_set inserted_world eq_refl eq_refl)
    as (_ & _ & Hall & Hscroll).
  split; [exact Hall|]. split.
  - apply (Hscroll 1 "absolute" (or_intror eq_refl)). vm_compute. discriminate.
  - apply (Hscroll (-1) "relative" (or_introl eq_refl)). vm_compute. reflexivity.
Defined.

Lemma fetchmany_then_fetchall_witness :
  exists w1 w2 rest,
    Cursor_fetchmany (Some 2) (selected_world ClsCursor) =
      (Normal (Some [RowTuple [VInt 10]; RowTuple [VInt 20]]), w1)
    /\ rownumber (cursor w1) = 2
    /\ Cursor_fetchall w1 = (Normal (Some rest), w2)
    /\ [RowTuple [VInt 10]; RowTuple [VInt 20]] ++ rest = RowTuple <$> sample_rows
    /\ rownumber (cursor w2) = 3.
Proof.
  refine (fetchmany_then_fetchall (selected_world ClsCursor)
            (RowTuple <$> sample_rows) (Some 2) _ _ _ _).
  - reflexivity.
  - reflexivity.
  - vm_compute. split; discriminate.
  - vm_compute. discriminate.
Defined.

Lemma fetchmany_negative_rewinds_witness :
  Cursor_fetchmany (Some (-1))
    (with_cursor (set_rownumber 2) (selected_world ClsCursor)) =
    (Normal (Some []), with_cursor (set_rownumber 1) (selected_world ClsCursor)).
Proof.
  refine (fetchmany_negative_rewinds
            (with_cursor (set_rownumber 2) (selected_world ClsCursor))
            (RowTuple <$> sample_rows) (Some (-1)) _ _ _ _ _).
  - reflexivity.
  - reflexivity.
  - vm_compute. discriminate.
  - reflexivity.
  - vm_compute. discriminate.
Defined.

Lemma nextset_binds_next_witness :
  nextset called_world =
    (Normal true,
     advanced (count_reply 0) [] (ok_result (count_reply 0)) called_world).
Proof.
  refine (proj1 (proj1 (nextset_binds_next called_world 0 _ _ _ _)
                   (count_reply 0) [] (ok_result (count_reply 0)) _ _)).
  - vm_compute. discriminate.
  - reflexivity.
  - reflexivity.
  - reflexivity.
  - reflexivity.
  - reflexivity.
Defined.

Lemma execute_records_statement_witness :
  exists q,
    @formatted sample_env (Text "SELECT a FROM t WHERE a > %s")
      (Some (ArgSeq [VInt 5])) = inr q
    /\ sent (conn (after (execute (env := sample_env)
                            (Text "SELECT a FROM t WHERE a > %s")
                            (Some (ArgSeq [VInt 5]))) (fresh_world ClsCursor)))
       = q :: sent (conn (fresh_world ClsCursor))
    /\ _executed (cursor (after (execute (env := sample_env)
                                   (Text "SELECT a FROM t WHERE a > %s")
                                   (Some (ArgSeq [VInt 5]))) (fresh_world ClsCursor)))
       = Some q.
Proof.
  destruct (execute_records_statement (env := sample_env)
              (Text "SELECT a FROM t WHERE a > %s") (Some (ArgSeq [VInt 5]))
              (fresh_world ClsCursor)
              (after (execute (env := sample_env) (Text "SELECT a FROM t WHERE a > %s")
                        (Some (ArgSeq [VInt 5]))) (fresh_world ClsCursor))
              3 eq_refl)
    as (q & rp & rest & Hf & _ & Hsent & _ & Hex & _).
  exists q. split; [exact Hf|]. split; [exact Hsent | exact Hex].
Defined.

Lemma execute_format_error_witness :
  execute (env := sample_env) (Text "SELECT %s") (Some (ArgSeq []))
    (selected_world ClsCursor) =
    (Raised (TypeError "not enough arguments for format string"),
     selected_world ClsCursor).
Proof.
  refine (execute_format_error (env := sample_env) (Text "SELECT %s")
            (Some (ArgSeq [])) _ (selected_world ClsCursor) _ _).
  - unfold idle. vm_compute. reflexivity.
  - reflexivity.
Defined.

Lemma execute_server_error_witness :
  exists w',
    execute (env := sample_env) (Text "SELEC") None (selected_world ClsCursor) =
      (Raised syntax_error, w')
    /\ cursor w' =
         set_last_executed (Some (Text "SELEC")) (cursor (selected_world ClsCursor))
    /\ sent (conn w') = Text "SELEC" :: sent (conn (selected_world ClsCursor))
    /\ conn_result (conn w') = conn_result (conn (selected_world ClsCursor))
    /\ warned w' = warned (selected_world ClsCursor).
Proof.
  refine (execute_server_error (env := sample_env) (Text "SELEC") None
            (Text "SELEC") syntax_error [] (selected_world ClsCursor) _ _ _).
  - unfold idle. vm_compute. reflexivity.
  - reflexivity.
  - reflexivity.
Defined.

Lemma execute_stops_when_drain_fails_witness :
  execute (env := sample_env) (Text "SELECT a FROM t") None interrupted_world =
    (Raised lost_connection, after drain_result_sets interrupted_world)
  /\ sent (conn (after drain_result_sets interrupted_world)) =
       sent (conn interrupted_world).
Proof.
  refine (execute_stops_when_drain_fails (env := sample_env)
            (Text "SELECT a FROM t") None interrupted_world
            (after drain_result_sets interrupted_world) lost_connection _ _).
  - vm_compute. discriminate.
  - reflexivity.
Defined.

Lemma streaming_fetchone_witness :
  SSCursor_fetchone (selected_world ClsSSCursor) =
    (Normal (Some (RowTuple [VInt 10])),
     with_cursor (set_rownumber (rownumber (cursor (selected_world ClsSSCursor)) + 1))
       (stream_at 0 [RowData [VInt 20]; RowData [VInt 30]] true
          (selected_world ClsSSCursor))).
Proof.
  refine (proj1 (streaming_fetchone (selected_world ClsSSCursor) 0 _ _ _ _)
            [VInt 10] [RowData [VInt 20]; RowData [VInt 30]] _).
  - reflexivity.
  - reflexivity.
  - intros H. discriminate H.
  - reflexivity.
  - reflexivity.
Defined.

Lemma streaming_fetchmany_witness :
  exists w',
    SSCursor_fetchmany (Some 2) (selected_world ClsSSCursor) =
      (Normal [RowTuple [VInt 10]; RowTuple [VInt 20]], w')
    /\ length [[VInt 10]; [VInt 20]] = 2%nat
    /\ rownumber (cursor w') = 2
    /\ unread (objects (conn w') 0%nat) = [RowData [VInt 30]]
    /\ sent (conn w') = sent (conn (selected_world ClsSSCursor)).
Proof.
  refine (streaming_fetchmany (selected_world ClsSSCursor) 0 (Some 2) _ _ _ _ _).
  - reflexivity.
  - reflexivity.
  - intros H. discriminate H.
  - reflexivity.
  - reflexivity.
Defined.

Lemma iterate_buffered_witness :
  iterate (with_cursor (set_rownumber 1) (selected_world ClsCursor)) =
    (Normal [RowTuple [VInt 20]; RowTuple [VInt 30]],
     with_cursor (set_rownumber 3)
       (with_cursor (set_rownumber 1) (selected_world ClsCursor))).
Proof.
  refine (proj1 (iterate_buffered
                   (with_cursor (set_rownumber 1) (selected_world ClsCursor))
                   (RowTuple <$> sample_rows) _ _ _ _)).
  - reflexivity.
  - reflexivity.
  - reflexivity.
  - vm_compute. split; discriminate.
Defined.

Lemma streaming_fetchall_witness :
  exists w',
    SSCursor_fetchall (selected_world ClsSSCursor) =
      (Normal (RowTuple <$> sample_rows), w')
    /\ rownumber (cursor w') = 3
    /\ unread (objects (conn w') 0%nat) = []
    /\ unbuffered_active (objects (conn w') 0%nat) = false
    /\ sent (conn w') = sent (conn (selected_world ClsSSCursor)).
Proof.
  refine (streaming_fetchall (selected_world ClsSSCursor) 0 _ _ _ _ _ _).
  - reflexivity.
  - reflexivity.
  - reflexivity.
  - intros H. discriminate H.
  - reflexivity.
  - reflexivity.
Defined.

Lemma do_get_result_binds_witness :
  exists w',
    _do_get_result (selected_world ClsDictCursor) = (Normal tt, w')
    /\ rownumber (cursor w') = 0
    /\ rowcount (cursor w') = 3
    /\ _fields (cursor w') = Some ["a"].
Proof.
  destruct (do_get_result_binds (selected_world ClsDictCursor) 0)
    as (w' & Hrun & _ & Hp & _ & Hcount & _ & _ & _ & _ & Hdict).
  - vm_compute. discriminate.
  - reflexivity.
  - exists w'. split; [exact Hrun|]. split; [exact Hp|]. split; [exact Hcount|].
    exact (proj1 (Hdict eq_refl eq_refl)).
Defined.

Lemma insert_values_match_splits_witness :
  exists content tail,
    String.list_ascii_of_string "INSERT INTO t (a) VALUES (%s)  " =
      String.list_ascii_of_string "INSERT INTO t (a) VALUES "
      ++ String.list_ascii_of_string "(%s)" ++ tail
    /\ String.list_ascii_of_string "(%s)" = ("("%char :: content) ++ [")"%char]
    /\ ("("%char ∉ content)
    /\ Forall (fun c => is_space (env := sample_env) c = true) tail.
Proof.
  refine (insert_values_match_splits (env := sample_env)
            "INSERT INTO t (a) VALUES (%s)  " "INSERT INTO t (a) VALUES " "(%s)" _).
  vm_compute. reflexivity.
Defined.

Lemma executemany_one_by_one_witness :
  exists w',
    executemany (env := sample_env) (Text "REPLACE INTO t (a) VALUES (%s)")
      [ArgSeq [VInt 1]; ArgSeq [VInt 2]] (fresh_world ClsCursor)
    = (Normal (Some 2), w')
    /\ rowcount (cursor w') = 2
    /\ sent (conn w') =
         [Text "REPLACE INTO t (a) VALUES (2)"; Text "REPLACE INTO t (a) VALUES (1)"].
Proof.
  refine (executemany_one_by_one (env := sample_env)
            (Text "REPLACE INTO t (a) VALUES (%s)")
            [ArgSeq [VInt 1]; ArgSeq [VInt 2]] (fresh_world ClsCursor)
            [Text "REPLACE INTO t (a) VALUES (1)"; Text "REPLACE INTO t (a) VALUES (2)"]
            (fun _ => 1) _ _ _ _ _ _).
  - discriminate.
  - reflexivity.
  - vm_compute. reflexivity.
  - reflexivity.
  - repeat constructor.
  - intros log q Hin.
    repeat (apply elem_of_cons in Hin as [->|Hin]); [| |inversion Hin];
      (exists (count_reply 1); split; [vm_compute; reflexivity | repeat split]).
Defined.

Lemma executemany_long_row_goes_alone_witness :
  exists bs w',
    executemany (env := sample_env) (Text "INSERT INTO t (a) VALUES (%s)")
      [ArgSeq [VInt 1]; ArgSeq [VInt 2]]
      (with_cursor (set_max_stmt_length 10) (fresh_world ClsCursor))
    = (Normal (Some 2), w')
    /\ concat bs = ["(1)"; "(2)"]
    /\ Forall (fun g => fits 10 "INSERT INTO t (a) VALUES " g \/ length g = 1%nat) bs.
Proof.
  destruct (executemany_long_row_goes_alone (env := sample_env)
              (Text "INSERT INTO t (a) VALUES (%s)")
              [ArgSeq [VInt 1]; ArgSeq [VInt 2]]
              (with_cursor (set_max_stmt_length 10) (fresh_world ClsCursor))
              "INSERT INTO t (a) VALUES " "(%s)" ["(1)"; "(2)"])
    as (bs & w' & Hrun & _ & Hcat & Hall).
  - discriminate.
  - reflexivity.
  - vm_compute. reflexivity.
  - reflexivity.
  - repeat constructor.
  - intros log l1 group l2 Hne Heq.
    destruct l1 as [|a1 [|a2 [|a3 l1]]];
      destruct group as [|g1 [|g2 [|g3 group]]];
      try congruence; simplify_eq/=;
      (eexists; split; [vm_compute; reflexivity | repeat split]).
  - exists bs, w'. split; [exact Hrun|]. split; [exact Hcat | exact Hall].
Defined.

Lemma same_rows_buffered_or_streaming_witness :
  ((execute (env := sample_env) (Text "SELECT a FROM t") None ;; fetchall)
     (fresh_world ClsDictCursor)).1 =
    Normal (Some ((fun r => dict_row ["a"] (RowTuple r)) <$> sample_rows))
  /\ ((execute (env := sample_env) (Text "SELECT a FROM t") None ;; fetchall)
        (fresh_world ClsSSDictCursor)).1 =
      Normal (Some ((fun r => dict_row ["a"] (RowTuple r)) <$> sample_rows)).
Proof.
  refine ((fun H => conj (proj1 H) (proj1 (proj2 H)))
            (same_rows_buffered_or_streaming (env := sample_env)
               (Text "SELECT a FROM t") None (Text "SELECT a FROM t")
               (rows_reply false) [] (RowData <$> sample_rows)
               (fresh_world ClsDictCursor) (fresh_world ClsSSDictCursor)
               _ _ _ _ _ _ _ _ _ _ _ _)).
  - reflexivity.
  - reflexivity.
  - reflexivity.
  - reflexivity.
  - reflexivity.
  - reflexivity.
  - discriminate.
  - reflexivity.
  - reflexivity.
  - reflexivity.
  - reflexivity.
  - intros _. split; [reflexivity | discriminate].
Defined.
